(** * Floppy: the node / port execution core (floppy/node.py)

    A shallow embedding of the port model ([Info], [InputInfo], [OutputInfo]),
    the class registry built by [MetaNode], the base [Node] protocol
    (check / run / notify), the control-flow nodes [SwitchNode], [Loop]
    and [ForEach], the barrier nodes [WaitAll] and [WaitAny] and the nodes
    that hand one input on ([CreateBool], [CreateInt], [CreateString],
    [Test], [DebugPrint]), followed by the properties established about
    them.

    Conventions of the embedding.
    - Python objects that flow through ports are values of [pyobj]: [None],
      booleans, integers (unbounded, as in Python), floats (IEEE binary64,
      the kernel's primitive floats), strings and lists.
    - Strings are Rocq strings, i.e. sequences of 8-bit characters; the
      case conversions [str.upper] / [str.lower] are the ASCII ones.
    - A method that mutates [self] and may raise is a function returning
      the outcome together with the state after the call, so that what an
      exception leaves behind is part of the model.
    - Node objects live in a store indexed by node ID; a connection names
      its endpoints by ID, which is how aliasing between the notifying node
      and its downstream nodes is kept. *)

From Stdlib Require Import ZArith Floats Ascii String.
From stdpp Require Import gmap strings list pretty.

Local Open Scope string_scope.
Local Open Scope Z_scope.
Local Set Warnings "-register-all".

(** ** Python values and exceptions *)

Inductive pyobj : Type :=
| VNone
| VBool (b : bool)
| VInt (z : Z)
| VFloat (f : float)
| VStr (s : string)
| VList (l : list pyobj).

Inductive exn : Type :=
| InputNotAvailable
| InputAlreadySet
| ValueError
| TypeError
| KeyError
| IndexError
| OverflowError
| AttributeError.

Inductive result (A : Type) : Type :=
| Ok (a : A)
| Raise (e : exn).
Arguments Ok {A} a.
Arguments Raise {A} e.

Global Instance result_ret : MRet result := λ A a, Ok a.
Global Instance result_bind : MBind result := λ A B k r,
  match r with
  | Ok a => k a
  | Raise e => Raise e
  end.

(** [[f(i) for i in xs]]: left to right, stopping at the first exception. *)
Fixpoint result_map {A B} (f : A → result B) (xs : list A) : result (list B) :=
  match xs with
  | [] => Ok []
  | x :: xs' => y ← f x; ys ← result_map f xs'; Ok (y :: ys)
  end.

(** The types a port can be declared with: [object], the builtin scalar
    types used in node.py, and the subclasses of [floppy.types.Type]
    (instances of [MetaType]), identified by class name. *)
Inductive pyType : Type :=
| TObject
| TBool
| TInt
| TFloat
| TStr
| TFloppy (cname : string).

Global Instance pyType_eq_dec : EqDecision pyType.
Proof. solve_decision. Defined.

(** [varType.__name__] *)
Definition type_name (t : pyType) : string :=
  match t with
  | TObject => "object"
  | TBool => "bool"
  | TInt => "int"
  | TFloat => "float"
  | TStr => "str"
  | TFloppy n => n
  end.

(** [issubclass(varType, Type)] and [isinstance(varType, MetaType)]: both
    hold exactly for the classes derived from [Type]. *)
Definition issubclass_Type (t : pyType) : bool :=
  match t with TFloppy _ => true | _ => false end.
Definition isinstance_MetaType (t : pyType) : bool :=
  match t with TFloppy _ => true | _ => false end.

(** ** Strings *)

Definition ascii_upper (c : ascii) : ascii :=
  let n := N_of_ascii c in
  if ((97 <=? n) && (n <=? 122))%N then ascii_of_N (n - 32) else c.

Definition ascii_lower (c : ascii) : ascii :=
  let n := N_of_ascii c in
  if ((65 <=? n) && (n <=? 90))%N then ascii_of_N (n + 32) else c.

Fixpoint str_map (f : ascii → ascii) (s : string) : string :=
  match s with
  | EmptyString => EmptyString
  | String c r => String (f c) (str_map f r)
  end.

(** [s.upper()], [s.lower()] *)
Definition upper (s : string) : string := str_map ascii_upper s.
Definition lower (s : string) : string := str_map ascii_lower s.

(** [s.startswith(p)] *)
Definition startswith (s p : string) : bool := String.prefix p s.

(** The characters [int()] and [float()] skip around a literal. *)
Definition is_space (c : ascii) : bool :=
  let n := N_of_ascii c in
  ((n =? 32) || ((9 <=? n) && (n <=? 13)) || ((28 <=? n) && (n <=? 31)))%N.

Fixpoint lstrip (s : string) : string :=
  match s with
  | String c r => if is_space c then lstrip r else s
  | EmptyString => EmptyString
  end.

Fixpoint rstrip (s : string) : string :=
  match s with
  | EmptyString => EmptyString
  | String c r =>
      match rstrip r with
      | EmptyString => if is_space c then EmptyString else String c EmptyString
      | r' => String c r'
      end
  end.

Definition strip (s : string) : string := rstrip (lstrip s).

Definition is_digit (c : ascii) : bool :=
  let n := N_of_ascii c in ((48 <=? n) && (n <=? 57))%N.

Definition digit_val (c : ascii) : Z := Z.of_N (N_of_ascii c) - 48.

(** ** The builtin constructors [bool], [int], [float], [str]

    Reading a port calls the port's declared type on the stored value.
    The decimal conversions of floats (the literal grammar of [float(str)]
    beyond the empty literal, and [repr] of a float) and the classes of
    [floppy.FloppyTypes] (their constructors and [checkType]) are not part
    of node.py; they are taken as parameters. *)

Class PyExt : Type := {
  (** [float(s)] on a stripped, non-empty literal; [None] is [ValueError] *)
  float_of_literal : string → option float;
  (** [repr(f)] for a float *)
  float_repr : float → string;
  (** calling a [Type] subclass on a value *)
  floppy_call : string → pyobj → result pyobj;
  (** [cls.checkType(value)] of a [Type] subclass *)
  floppy_checkType : string → pyobj → result pyobj
}.

(** Truth value of an object ([bool(x)], [if x:]). *)
Definition py_truthy (v : pyobj) : bool :=
  match v with
  | VNone => false
  | VBool b => b
  | VInt z => negb (z =? 0)
  | VFloat f => negb (PrimFloat.eqb f 0%float)
  | VStr s => negb (String.eqb s "")
  | VList l => match l with [] => false | _ => true end
  end.

(** Decimal digits with single underscores between them. [seen] tells
    whether the previous character was a digit. *)
Fixpoint parse_digits (s : string) (acc : Z) (seen : bool) : option Z :=
  match s with
  | EmptyString => if seen then Some acc else None
  | String c r =>
      if is_digit c then parse_digits r (acc * 10 + digit_val c) true
      else if Ascii.eqb c "_"%char then
             (if seen then parse_digits r acc false else None)
      else None
  end.

(** [int(s)] for a string, base 10. *)
Definition int_of_str (s : string) : result Z :=
  let body (t : string) :=
    match parse_digits t 0 false with
    | Some z => Ok z
    | None => Raise ValueError
    end in
  match strip s with
  | String "-"%char t => z ← body t; Ok (- z)
  | String "+"%char t => body t
  | t => body t
  end.

(** [int(f)] for a float: truncation towards zero. *)
Definition int_of_float (f : float) : result Z :=
  match Prim2SF f with
  | S754_zero _ => Ok 0
  | S754_infinity _ => Raise OverflowError
  | S754_nan => Raise ValueError
  | S754_finite s m e =>
      let a := if 0 <=? e then Z.shiftl (Z.pos m) e else Z.shiftr (Z.pos m) (- e) in
      Ok (if s then - a else a)
  end.

(** [float(z)] for an integer: nearest binary64, [OverflowError] beyond. *)
Definition float_of_int (z : Z) : result float :=
  match binary_normalize prec emax z 0 false with
  | S754_infinity _ => Raise OverflowError
  | x => Ok (SF2Prim x)
  end.

Definition py_bool (v : pyobj) : result pyobj := Ok (VBool (py_truthy v)).

Definition py_int (v : pyobj) : result pyobj :=
  match v with
  | VBool b => Ok (VInt (if b then 1 else 0))
  | VInt z => Ok (VInt z)
  | VFloat f => z ← int_of_float f; Ok (VInt z)
  | VStr s => z ← int_of_str s; Ok (VInt z)
  | VNone | VList _ => Raise TypeError
  end.

Definition py_float `{PyExt} (v : pyobj) : result pyobj :=
  match v with
  | VBool b => Ok (VFloat (if b then 1%float else 0%float))
  | VInt z => f ← float_of_int z; Ok (VFloat f)
  | VFloat f => Ok (VFloat f)
  | VStr s =>
      match strip s with
      | EmptyString => Raise ValueError
      | t => match float_of_literal t with
             | Some f => Ok (VFloat f)
             | None => Raise ValueError
             end
      end
  | VNone | VList _ => Raise TypeError
  end.

(** [repr(s)] for a string: single quotes unless the text holds a single
    quote and no double quote; backslash escapes for the quote, the
    backslash and the control characters. *)
Definition hex_digit (n : N) : ascii :=
  if (n <? 10)%N then ascii_of_N (48 + n) else ascii_of_N (87 + n).

Fixpoint str_contains (c : ascii) (s : string) : bool :=
  match s with
  | EmptyString => false
  | String d r => Ascii.eqb c d || str_contains c r
  end.

Fixpoint repr_chars (q : ascii) (s : string) : string :=
  match s with
  | EmptyString => EmptyString
  | String c r =>
      let n := N_of_ascii c in
      let rest := repr_chars q r in
      if Ascii.eqb c q || Ascii.eqb c "\"%char then String "\" (String c rest)
      else if (n =? 9)%N then "\t" +:+ rest
      else if (n =? 10)%N then "\n" +:+ rest
      else if (n =? 13)%N then "\r" +:+ rest
      else if ((n <? 32) || (n =? 127))%N then
             "\x" +:+ String (hex_digit (n / 16)) (String (hex_digit (n mod 16)) rest)
      else String c rest
  end.

Definition dquote : ascii := ascii_of_N 34.

Definition repr_str (s : string) : string :=
  let q := if str_contains "'" s && negb (str_contains dquote s)
           then dquote else "'"%char in
  String q (repr_chars q s) +:+ String q EmptyString.

Fixpoint py_repr `{PyExt} (v : pyobj) : string :=
  match v with
  | VNone => "None"
  | VBool b => if b then "True" else "False"
  | VInt z => pretty z
  | VFloat f => float_repr f
  | VStr s => repr_str s
  | VList l =>
      "[" +:+ (fix items (l : list pyobj) : string :=
                 match l with
                 | [] => ""
                 | x :: r =>
                     match r with
                     | [] => py_repr x
                     | _ => py_repr x +:+ ", " +:+ items r
                     end
                 end) l +:+ "]"
  end.

(** [str(v)] *)
Definition py_str `{PyExt} (v : pyobj) : string :=
  match v with
  | VStr s => s
  | _ => py_repr v
  end.

(** [t(v)]: calling a type object on a value. [object] takes no argument. *)
Definition py_call `{PyExt} (t : pyType) (v : pyobj) : result pyobj :=
  match t with
  | TObject => Raise TypeError
  | TBool => py_bool v
  | TInt => py_int v
  | TFloat => py_float v
  | TStr => Ok (VStr (py_str v))
  | TFloppy n => floppy_call n v
  end.

(** [for i in v]: the elements a comprehension iterates over. *)
Definition py_iter (v : pyobj) : result (list pyobj) :=
  match v with
  | VList l => Ok l
  | VStr s => Ok ((λ c, VStr (String c EmptyString)) <$> list_ascii_of_string s)
  | VNone | VBool _ | VInt _ | VFloat _ => Raise TypeError
  end.

(** [v[i]] for an integer index. *)
Definition py_getitem (v : pyobj) (i : Z) : result pyobj :=
  match v with
  | VList l =>
      let n := Z.of_nat (length l) in
      let j := if i <? 0 then i + n else i in
      if (0 <=? j) && (j <? n) then
        match l !! Z.to_nat j with
        | Some x => Ok x
        | None => Raise IndexError
        end
      else Raise IndexError
  | VStr s =>
      let n := Z.of_nat (String.length s) in
      let j := if i <? 0 then i + n else i in
      if (0 <=? j) && (j <? n) then
        match String.get (Z.to_nat j) s with
        | Some c => Ok (VStr (String c EmptyString))
        | None => Raise IndexError
        end
      else Raise IndexError
  | VNone | VBool _ | VInt _ | VFloat _ => Raise TypeError
  end.

(** A concrete choice of the external parts, for closed examples: no float
    literal is recognised, floats print as a fixed text, and the classes
    derived from [Type] take no constructor argument and check nothing. *)
Definition trivial_ext : PyExt := {|
  float_of_literal := λ _, None;
  float_repr := λ _, "<float>";
  floppy_call := λ _ _, Raise TypeError;
  floppy_checkType := λ _ v, Ok v
|}.

(** ** Ports: [Info], [InputInfo], [OutputInfo] *)

(** The attributes of an [Info] object. [isList] is the attribute [list];
    [owner] is [None] until [setOwner] stores the owning node. [pinID] is
    the attribute [ID] of a port: [Info.__init__] does not create it, the
    constructor of the port's [Pin] writes it ([ID] is taken by the
    attribute of the node). *)
Record Info : Type := mkInfo {
  name : string;
  connected : bool;
  varType : pyType;
  hints : list string;
  default : pyobj;
  valueSet : bool;
  value : pyobj;
  select : option (list pyobj);
  owner : option string;
  isList : bool;
  pinID : option string
}.

Definition with_default (d : pyobj) (i : Info) : Info :=
  mkInfo (name i) (connected i) (varType i) (hints i) d (valueSet i) (value i)
         (select i) (owner i) (isList i) (pinID i).
Definition with_value (vs : bool) (v : pyobj) (i : Info) : Info :=
  mkInfo (name i) (connected i) (varType i) (hints i) (default i) vs v
         (select i) (owner i) (isList i) (pinID i).
Definition with_connected (c : bool) (i : Info) : Info :=
  mkInfo (name i) c (varType i) (hints i) (default i) (valueSet i) (value i)
         (select i) (owner i) (isList i) (pinID i).
Definition with_owner (o : option string) (i : Info) : Info :=
  mkInfo (name i) (connected i) (varType i) (hints i) (default i) (valueSet i)
         (value i) (select i) o (isList i) (pinID i).
Definition with_pinID (d : option string) (i : Info) : Info :=
  mkInfo (name i) (connected i) (varType i) (hints i) (default i) (valueSet i)
         (value i) (select i) (owner i) (isList i) d.

(** [Info.__init__(name, varType, hints, default, select, owner, list)] *)
Definition Info_init (name : string) (varType : pyType)
    (hints : option (list string)) (default : pyobj)
    (select : option (list pyobj)) (owner : option string) (isList : bool) : Info :=
  mkInfo name false varType
         (match hints with
          | None | Some [] => [type_name varType]
          | Some hs => type_name varType :: hs
          end)
         default false VNone select owner isList None.

Definition setOwner (self : Info) (o : string) : Info := with_owner (Some o) self.

(** [Info.setDefault(value)] *)
Definition setDefault `{PyExt} (self : Info) (v : pyobj) : result unit * Info :=
  if negb (bool_decide (varType self = TObject)) && negb (issubclass_Type (varType self))
  then
    let after_bool (s1 : Info) : result unit * Info :=
      if bool_decide (varType self = TBool) then
        match v with
        | VStr s =>
            if String.eqb (upper s) "TRUE" then (Ok (), with_default (VBool true) s1)
            else (Ok (), with_default (VBool false) s1)
        | _ => (Ok (), with_default v s1)
        end
      else (Ok (), s1) in
    match py_call (varType self) v with
    | Ok d => after_bool (with_default d self)
    | Raise ValueError => after_bool (with_default (VStr "") self)
    | Raise e => (Raise e, self)
    end
  else (Ok (), with_default v self).

(** [Info.reset()] *)
Definition reset (self : Info) : Info :=
  with_value false VNone (with_default VNone self).

(** [self.default != None] *)
Definition not_None (v : pyobj) : bool :=
  match v with VNone => false | _ => true end.

(** [varType.checkType(v)]: only the classes derived from [Type] carry the
    method. *)
Definition checkType `{PyExt} (t : pyType) (v : pyobj) : result pyobj :=
  match t with
  | TFloppy n => floppy_checkType n v
  | _ => Raise AttributeError
  end.

(** [InputInfo.__call__(noException)]: reading an input. *)
Definition InputInfo_call `{PyExt} (self : Info) (noException : bool) : result pyobj :=
  if valueSet self then
    if negb (bool_decide (varType self = TObject)) then
      if isinstance_MetaType (varType self) then
        if isList self then
          xs ← py_iter (value self);
          ys ← result_map (checkType (varType self)) xs; Ok (VList ys)
        else checkType (varType self) (value self)
      else
        if isList self then
          xs ← py_iter (value self);
          ys ← result_map (py_call (varType self)) xs; Ok (VList ys)
        else py_call (varType self) (value self)
    else Ok (value self)
  else if not_None (default self) && negb (connected self) then
    if negb (bool_decide (varType self = TObject)) then py_call (varType self) (default self)
    else Ok (default self)
  else
    if noException then Ok VNone else Raise InputNotAvailable.

(** [InputInfo.set(value, override)] *)
Definition InputInfo_set (self : Info) (v : pyobj) (override : bool) : result unit * Info :=
  if valueSet self && negb override then (Raise InputAlreadySet, self)
  else (Ok (), with_value true v self).

(** [InputInfo.setConnected(value)] *)
Definition setConnected (self : Info) (c : bool) : Info := with_connected c self.

(** [InputInfo.isAvailable()] *)
Definition isAvailable (self : Info) : bool :=
  if valueSet self then true
  else if not_None (default self) && negb (connected self) then true
  else false.

(** [OutputInfo.__call__(value)]. Attaching [__FloppyType__] to the value
    fails with [AttributeError] for every object of [pyobj] and is
    ignored, as in the source. *)
Definition OutputInfo_call (self : Info) (v : pyobj) : Info := with_value true v self.

(** ** Ordered dictionaries

    [__inputs__], [__outputs__], [inputs] and [outputs] are [OrderedDict]s
    keyed by port name: association lists in insertion order with at most
    one entry per key. *)

Definition odict (V : Type) : Type := list (string * V).

(** [d[k]]; [None] stands for [KeyError]. *)
Fixpoint odict_get {V} (d : odict V) (k : string) : option V :=
  match d with
  | [] => None
  | (k', v) :: r => if String.eqb k' k then Some v else odict_get r k
  end.

(** [d[k] = v]: replaces in place, appends a new key at the end. *)
Fixpoint odict_set {V} (d : odict V) (k : string) (v : V) : odict V :=
  match d with
  | [] => [(k, v)]
  | (k', v') :: r => if String.eqb k' k then (k', v) :: r else (k', v') :: odict_set r k v
  end.

Definition odict_keys {V} (d : odict V) : list string := fst <$> d.
Definition odict_values {V} (d : odict V) : list V := snd <$> d.

(** ** Class declarations: [MetaNode] *)

(** The dictionary [addInput] / [addOutput] record for a declaration. *)
Record PortDecl : Type := mkPortDecl {
  d_name : string;
  d_varType : pyType;
  d_hints : option (list string);
  d_default : pyobj;
  d_select : option (list pyobj);
  d_list : bool
}.

(** [Input(name, varType, hints=None, default='', select=None, list=False)].
    [default = None] is a call that leaves the argument out. *)
Definition addInput (name : string) (varType : pyType) (hints : option (list string))
    (default : option pyobj) (select : option (list pyobj)) (isList : bool) : PortDecl :=
  mkPortDecl name varType hints
             (match default with Some d => d | None => VStr "" end) select isList.

Definition addOutput (name : string) (varType : pyType) (hints : option (list string))
    (default : option pyobj) (select : option (list pyobj)) (isList : bool) : PortDecl :=
  mkPortDecl name varType hints
             (match default with Some d => d | None => VStr "" end) select isList.

(** [InputInfo] / [OutputInfo] built from the keywords of a declaration;
    [owner] keeps its default. *)
Definition Info_of_decl (d : PortDecl) : Info :=
  Info_init (d_name d) (d_varType d) (d_hints d) (d_default d) (d_select d) None (d_list d).

(** A node class: [__name__], [__inputs__], [__outputs__], [__tags__]. *)
Record NodeClass : Type := mkNodeClass {
  cls_name : string;
  cls_inputs : odict Info;
  cls_outputs : odict Info;
  cls_tags : list string
}.

(** [cls._addInput(data=inp, cls=cls)] *)
Definition _addInput (c : NodeClass) (d : PortDecl) : NodeClass :=
  mkNodeClass (cls_name c) (odict_set (cls_inputs c) (d_name d) (Info_of_decl d))
              (cls_outputs c) (cls_tags c).
Definition _addOutput (c : NodeClass) (d : PortDecl) : NodeClass :=
  mkNodeClass (cls_name c) (cls_inputs c)
              (odict_set (cls_outputs c) (d_name d) (Info_of_decl d)) (cls_tags c).
Definition _addTag (c : NodeClass) (tag : string) : NodeClass :=
  mkNodeClass (cls_name c) (cls_inputs c) (cls_outputs c) (cls_tags c ++ [tag]).

(** [MetaNode.__new__]: the ports and tags of the first base are copied,
    then the declarations of the class body are added in order. *)
Definition MetaNode_new (name : string) (base : option NodeClass)
    (body_inputs body_outputs : list PortDecl) (body_tags : list string) : NodeClass :=
  let start :=
    match base with
    | Some b => mkNodeClass name (cls_inputs b) (cls_outputs b) (cls_tags b)
    | None => mkNodeClass name [] [] []
    end in
  foldl _addTag (foldl _addOutput (foldl _addInput start body_inputs) body_outputs) body_tags.

(** A class statement: name, first base (absent for [Node] itself) and
    the declarations of the class body. Every node class comes into being
    through [MetaNode.__new__], its base included. *)
Inductive ClassDef : Type :=
| class_def (cname : string) (base : option ClassDef)
            (body_inputs body_outputs : list PortDecl) (body_tags : list string).

Definition class_body_inputs (d : ClassDef) : list PortDecl :=
  match d with class_def _ _ ins _ _ => ins end.

Fixpoint class_of (d : ClassDef) : NodeClass :=
  match d with
  | class_def n b ins outs tags =>
      MetaNode_new n (match b with Some b' => Some (class_of b') | None => None end)
                   ins outs tags
  end.

(** The declaration an input name of a class goes back to: the last one
    of that name in the class body, and otherwise the one inherited from
    the base. *)
Fixpoint declared_input (d : ClassDef) (nm : string) : option PortDecl :=
  match d with
  | class_def _ b ins _ _ =>
      match last (filter (λ x, d_name x = nm) ins) with
      | Some decl => Some decl
      | None => match b with Some b' => declared_input b' nm | None => None end
      end
  end.


(** *** Catalogue search: [matchHint] and its three parts *)

(** [a or b]: the first operand when it is true, the second otherwise. *)
Definition py_or (a b : pyobj) : pyobj := if py_truthy a then a else b.

(** [cls.matchClassTag(text)] *)
Definition matchClassTag (cls : NodeClass) (text : string) : pyobj :=
  VBool (existsb (λ tag, startswith (lower tag) text) (cls_tags cls)).

(** [cls.matchInputHint(text)]: [True], or [None] when the method falls
    off its end. *)
Definition matchInputHint (cls : NodeClass) (text : string) : pyobj :=
  if String.eqb text "object" then VBool true
  else if existsb (λ inp : Info, existsb (λ hint, startswith hint text) (hints inp))
                  (odict_values (cls_inputs cls))
       then VBool true
       else VNone.

(** [cls.matchOutputHint(text)] *)
Definition matchOutputHint (cls : NodeClass) (text : string) : pyobj :=
  if String.eqb text "object" then VBool true
  else if existsb (λ out : Info, existsb (λ hint, startswith hint text) (hints out))
                  (odict_values (cls_outputs cls))
       then VBool true
       else VNone.

(** [cls.matchHint(text)] *)
Definition matchHint (cls : NodeClass) (text : string) : pyobj :=
  py_or (py_or (matchInputHint cls text) (matchOutputHint cls text)) (matchClassTag cls text).

(** ** Node instances *)

(** A [Pin] object: its [ID], the [name] of its port and the [node] it
    belongs to, named by its ID. The attribute [info] is a reference to
    the port object itself, the one the node holds under that name in
    [inputs] (for an input pin) or [outputs] (for an output pin); it is
    found there and is not copied into the pin. *)
Record Pin : Type := mkPin {
  pin_ID : string;
  pin_name : string;
  pin_node : string
}.

(** [Pin.__init__(pinID, info, node)]: the new pin, and the port with
    its [ID] written. *)
Definition Pin_init (pinID : string) (info : Info) (node : string) : Pin * Info :=
  (mkPin pinID (name info) node, with_pinID (Some pinID) info).

(** The attributes of a node object. [fresh], [counter] and [done] are the
    state of the control-flow nodes; the classes that do not define them
    never read them. The attribute [waiting] of [ControlNode] is written
    once and never read, and is left out, as are the position and the
    reference to the graph. *)
Record Node : Type := mkNode {
  className : string;
  ID : string;
  inputs : odict Info;
  outputs : odict Info;
  fresh : bool;
  counter : Z;
  done : bool;
  inputPins : odict Pin;
  outputPins : odict Pin
}.

Definition with_inputs (i : odict Info) (n : Node) : Node :=
  mkNode (className n) (ID n) i (outputs n) (fresh n) (counter n) (done n)
         (inputPins n) (outputPins n).
Definition with_outputs (o : odict Info) (n : Node) : Node :=
  mkNode (className n) (ID n) (inputs n) o (fresh n) (counter n) (done n)
         (inputPins n) (outputPins n).
Definition with_fresh (b : bool) (n : Node) : Node :=
  mkNode (className n) (ID n) (inputs n) (outputs n) b (counter n) (done n)
         (inputPins n) (outputPins n).
Definition with_counter (c : Z) (n : Node) : Node :=
  mkNode (className n) (ID n) (inputs n) (outputs n) (fresh n) c (done n)
         (inputPins n) (outputPins n).
Definition with_done (b : bool) (n : Node) : Node :=
  mkNode (className n) (ID n) (inputs n) (outputs n) (fresh n) (counter n) b
         (inputPins n) (outputPins n).

(** The loops of [Node.__init__]: every port of the class is copied and
    given its owner; a pin is built for it, whose identifier is the node
    ID, the mark [tag] (:I for an input, :O for an output) and the port
    name, and whose constructor writes that identifier into the copy;
    the pin and the copy are stored under the port's name. *)
Definition instantiate_ports (nodeID tag : string) (ports : odict Info)
    : odict Info * odict Pin :=
  foldl (λ acc p,
           let inp := setOwner p nodeID in
           let inpID := nodeID +:+ tag +:+ name inp in
           let '(newPin, inp') := Pin_init inpID inp nodeID in
           (odict_set acc.1 (name inp') inp', odict_set acc.2 (name inp') newPin))
        ([], []) (odict_values ports).

(** [Node.__init__(nodeID, graph)] *)
Definition Node_init (cls : NodeClass) (nodeID : string) : result Node :=
  let '(ins, inPins) := instantiate_ports nodeID ":I" (cls_inputs cls) in
  let '(outs, outPins) := instantiate_ports nodeID ":O" (cls_outputs cls) in
  match ins with
  | [] => Raise AttributeError
  | _ => Ok (mkNode (cls_name cls) nodeID ins outs false 0 false inPins outPins)
  end.

(** The port of an instance as [Node.__init__] leaves it: the port of the
    class with the owner and the pin identifier filled in. *)
Definition instance_port (nodeID tag : string) (p : Info) : Info :=
  with_pinID (Some (nodeID +:+ tag +:+ name p)) (setOwner p nodeID).

(** The pin [Node.__init__] builds for a port. *)
Definition instance_pin (nodeID tag : string) (p : Info) : Pin :=
  mkPin (nodeID +:+ tag +:+ name p) (name p) nodeID.

(** *** Methods as state transformers

    A method that mutates an object and may raise maps the state before
    the call to the outcome and the state after it; what was mutated
    before an exception stays mutated. *)
Definition SE (S A : Type) : Type := S → result A * S.

Global Instance SE_ret {S} : MRet (SE S) := λ A a s, (Ok a, s).
Global Instance SE_bind {S} : MBind (SE S) := λ A B k m s,
  match m s with
  | (Ok a, s') => k a s'
  | (Raise e, s') => (Raise e, s')
  end.

Definition se_get {S} : SE S S := λ s, (Ok s, s).
Definition se_modify {S} (f : S → S) : SE S unit := λ s, (Ok (), f s).
Definition se_lift {S A} (r : result A) : SE S A := λ s, (r, s).
Definition se_raise {S A} (e : exn) : SE S A := λ s, (Raise e, s).

(** [for x in xs: body] *)
Fixpoint se_for {S A} (xs : list A) (body : A → SE S unit) : SE S unit :=
  match xs with
  | [] => mret ()
  | x :: r => body x;; se_for r body
  end.

(** [try: m  except IndexError: h] *)
Definition try_IndexError {S A} (m h : SE S A) : SE S A := λ s,
  match m s with
  | (Raise IndexError, s') => h s'
  | r => r
  end.

(** [d[k]] with its [KeyError] *)
Definition odict_item {S V} (d : odict V) (k : string) : SE S V :=
  match odict_get d k with
  | Some v => mret v
  | None => se_raise KeyError
  end.

(** [Node.setInput(inputName, value, override)] *)
Definition Node_setInput (inputName : string) (v : pyobj) (override : bool) : SE Node unit :=
  self ← se_get;
  inp ← odict_item (inputs self) inputName;
  match InputInfo_set inp v override with
  | (Ok _, inp') => se_modify (with_inputs (odict_set (inputs self) inputName inp'))
  | (Raise e, _) => se_raise e
  end.

(** [self.inputs[k].reset()] *)
Definition reset_input (k : string) : SE Node unit :=
  self ← se_get;
  inp ← odict_item (inputs self) k;
  se_modify (with_inputs (odict_set (inputs self) k (reset inp))).

(** [Node.run()]: the base class only prints. *)
Definition Node_run : SE Node unit := mret ().

(** [Node.check()] *)
Definition Node_check (self : Node) : bool :=
  forallb isAvailable (odict_values (inputs self)).

(** What [self._<name>] evaluates to in [Node.__getattr__]: the value read
    from the input of that name, or, when there is no such input (or the
    read itself ends in [KeyError], which the same handler catches), the
    output object of that name. *)
Inductive attr : Type :=
| AttrValue (v : pyobj)
| AttrOutput (outputName : string).

Definition Node_getattr `{PyExt} (item : string) : SE Node attr :=
  self ← se_get;
  let from_outputs : SE Node attr :=
    match odict_get (outputs self) item with
    | Some _ => mret (AttrOutput item)
    | None => se_raise AttributeError
    end in
  match odict_get (inputs self) item with
  | Some inp =>
      match InputInfo_call inp false with
      | Ok v => mret (AttrValue v)
      | Raise KeyError => from_outputs
      | Raise e => se_raise e
      end
  | None => from_outputs
  end.

(** [self._<item>] used as a value. Output objects are not values of
    [pyobj]; no method of node.py uses one as a value. *)
Definition read_attr `{PyExt} (item : string) : SE Node pyobj :=
  a ← Node_getattr item;
  match a with
  | AttrValue v => mret v
  | AttrOutput _ => se_raise TypeError
  end.

(** [callee(v)] for what [self._<name>] gave: an output object stores the
    value, a plain value is not callable. *)
Definition call_attr (callee : attr) (v : pyobj) : SE Node unit :=
  match callee with
  | AttrValue _ => se_raise TypeError
  | AttrOutput o =>
      self ← se_get;
      out ← odict_item (outputs self) o;
      se_modify (with_outputs (odict_set (outputs self) o (OutputInfo_call out v)))
  end.

(** ** The graph collaborator *)

(** A connection record [{outputNode, outputName, inputNode, inputName}];
    the node objects are named by their IDs. *)
Record Connection : Type := mkConnection {
  outputNode : string;
  outputName : string;
  inputNode : string;
  inputName : string
}.

(** The node objects and the connections between their ports. *)
Record Graph : Type := mkGraph {
  nodes : gmap string Node;
  connections : list Connection
}.

Definition with_nodes (m : gmap string Node) (g : Graph) : Graph :=
  mkGraph m (connections g).

(** Modelled from the spec: [getConnectionsFrom(node)] of the graph class,
    which is not part of node.py; the records of the connections that
    leave the node, in the order the graph holds them. *)
Definition getConnectionsFrom (g : Graph) (self : string) : list Connection :=
  filter (λ c, outputNode c = self) (connections g).

(** Modelled from the spec: [getConnectionsOfOutput(output)] of the graph
    class, which is not part of node.py; the same records, for the
    connections that leave the output [output] of the node [self]. *)
Definition getConnectionsOfOutput (g : Graph) (self output : string) : list Connection :=
  filter (λ c, outputNode c = self ∧ outputName c = output) (connections g).

(** Running a method of the node object [nid]. A connection always holds
    a live node object; an ID without a node has no counterpart in the
    source and is reported as [KeyError]. *)
Definition on_node {A} (nid : string) (m : SE Node A) : SE Graph A := λ g,
  match nodes g !! nid with
  | None => (Raise KeyError, g)
  | Some nd => let '(r, nd') := m nd in (r, with_nodes (<[nid := nd']> (nodes g)) g)
  end.

Definition get_node (nid : string) : SE Graph Node := λ g,
  match nodes g !! nid with
  | Some nd => (Ok nd, g)
  | None => (Raise KeyError, g)
  end.

(** What an output hands to the loop of [notify]: in [Node.notify]
    ([use_default]) the value if one was written and the default
    otherwise; in the control-flow nodes the attribute [value] as it is. *)
Definition current (use_default : bool) (out : Info) : pyobj :=
  if use_default && negb (valueSet out) then default out else value out.

(** The loop shared by every [notify]: for each connection, the value of
    the named output of [self] is stored into the downstream input. *)
Definition propagate (self : string) (use_default override : bool)
    (cons : list Connection) : SE Graph unit :=
  se_for cons (λ con,
    me ← get_node self;
    out ← odict_item (outputs me) (outputName con);
    on_node (inputNode con)
            (Node_setInput (inputName con) (current use_default out) override)).

(** [Node.notify()] *)
Definition Node_notify (self : string) : SE Graph unit :=
  g ← se_get;
  propagate self true true (getConnectionsFrom g self);;
  on_node self (se_modify (λ me, with_inputs (prod_map id reset <$> inputs me) me)).

(** ** The classes of node.py used below *)

Definition Node_def : ClassDef := class_def "Node" None [] [] ["Node"].

Definition ControlNode_def : ClassDef :=
  class_def "ControlNode" (Some Node_def)
    [addInput "Start" TObject None None None false;
     addInput "Control" TObject None None None false]
    [addOutput "Final" TObject None None None false] [].

Definition SwitchNode_def : ClassDef :=
  class_def "SwitchNode" (Some ControlNode_def)
    [addInput "Switch" TBool None None None false]
    [addOutput "True" TObject None None None false;
     addOutput "False" TObject None None None false] [].

Definition Loop_def : ClassDef :=
  class_def "Loop" (Some ControlNode_def)
    [addInput "Iterations" TInt None None None false]
    [addOutput "LoopBody" TObject None None None false] [].

Definition ForEach_def : ClassDef :=
  class_def "ForEach" (Some ControlNode_def)
    [addInput "Start" TObject None None None true]
    [addOutput "ListElement" TObject None None None false] [].

Definition CreateInt_def : ClassDef :=
  class_def "CreateInt" (Some Node_def)
    [addInput "Value" TInt None None None false]
    [addOutput "Integer" TInt None None None false] [].

Definition TestNode2_def : ClassDef :=
  class_def "TestNode2" (Some Node_def)
    [addInput "strInput" TStr None None None false;
     addInput "floatInput" TFloat None (Some (VFloat 10%float)) None false;
     addInput "Input" TStr None (Some (VStr "TestNode")) None false]
    [addOutput "strOutput" TStr None None None false] [].

Definition DebugNode_def : ClassDef := class_def "DebugNode" (Some Node_def) [] [] ["Debug"].

Definition DebugPrint_def : ClassDef :=
  class_def "DebugPrint" (Some DebugNode_def)
    [addInput "Object" TObject None None None false]
    [addOutput "Out" TObject None None None false] [].

Definition Node_class : NodeClass := class_of Node_def.
Definition ControlNode_class : NodeClass := class_of ControlNode_def.
Definition SwitchNode_class : NodeClass := class_of SwitchNode_def.
Definition Loop_class : NodeClass := class_of Loop_def.
Definition ForEach_class : NodeClass := class_of ForEach_def.
Definition CreateInt_class : NodeClass := class_of CreateInt_def.
Definition DebugPrint_class : NodeClass := class_of DebugPrint_def.

(** [SwitchNode.__init__], [Loop.__init__], [ForEach.__init__] *)
Definition SwitchNode_init (nodeID : string) : result Node :=
  n ← Node_init SwitchNode_class nodeID; Ok (with_fresh true n).
Definition Loop_init (nodeID : string) : result Node :=
  n ← Node_init Loop_class nodeID; Ok (with_counter 0 (with_fresh true n)).
Definition ForEach_init (nodeID : string) : result Node :=
  n ← Node_init ForEach_class nodeID;
  Ok (with_done false (with_counter 0 (with_fresh true n))).

(** The readiness loop the three control nodes share in the fresh state:
    every input but [Control] must be available. *)
Definition fresh_check (self : Node) : bool :=
  forallb (λ inp, String.eqb (name inp) "Control" || isAvailable inp)
          (odict_values (inputs self)).

(** *** [SwitchNode] *)

(** [SwitchNode.check()]: [True], [False], or [None] when the method falls
    off its end. *)
Definition SwitchNode_check (self : Node) : result pyobj :=
  if fresh self then Ok (VBool (fresh_check self))
  else
    match odict_get (inputs self) "Control" with
    | None => Raise KeyError
    | Some c => Ok (if isAvailable c then VBool true else VNone)
    end.

(** [SwitchNode.run()] *)
Definition SwitchNode_run `{PyExt} : SE Node unit :=
  self ← se_get;
  if fresh self then
    sw ← read_attr "Switch";
    if py_truthy sw then
      callee ← Node_getattr "True"; v ← read_attr "Start"; call_attr callee v
    else
      callee ← Node_getattr "False"; v ← read_attr "Start"; call_attr callee v
  else
    callee ← Node_getattr "Final"; v ← read_attr "Control"; call_attr callee v.

(** [SwitchNode.notify()] *)
Definition SwitchNode_notify `{PyExt} (self : string) : SE Graph unit :=
  me ← get_node self;
  (if fresh me then
     sw ← on_node self (read_attr "Switch");
     output ← (if py_truthy sw then (odict_item (outputs me) "True";; mret "True")
               else (odict_item (outputs me) "False";; mret "False"));
     g ← se_get;
     propagate self false false (getConnectionsOfOutput g self output);;
     on_node self (se_modify (with_fresh false);;
                   reset_input "Start";; reset_input "Switch")
   else
     odict_item (outputs me) "Final";;
     g ← se_get;
     propagate self false false (getConnectionsOfOutput g self "Final");;
     on_node self (se_modify (with_fresh true)));;
  on_node self (reset_input "Control").

(** *** [Loop] *)

(** [Loop.check()] *)
Definition Loop_check (self : Node) : result pyobj :=
  if fresh self then Ok (VBool (fresh_check self))
  else if 0 <? counter self then
    match odict_get (inputs self) "Control" with
    | None => Raise KeyError
    | Some c => Ok (if isAvailable c then VBool true else VNone)
    end
  else Ok VNone.

(** The integer behind a counter value. The ports that feed a counter are
    declared [int], so that a read gives an int. *)
Definition as_int {S} (v : pyobj) : SE S Z :=
  match v with
  | VInt z => mret z
  | VBool b => mret (if b then 1 else 0)
  | _ => se_raise TypeError
  end.

(** [Loop.run()] *)
Definition Loop_run `{PyExt} : SE Node unit :=
  self ← se_get;
  if fresh self then
    n ← read_attr "Iterations"; z ← as_int n;
    se_modify (with_counter z);;
    callee ← Node_getattr "LoopBody"; v ← read_attr "Start"; call_attr callee v;;
    se_modify (with_fresh false)
  else if counter self =? 0 then
    callee ← Node_getattr "Final"; v ← read_attr "Control"; call_attr callee v
  else
    se_modify (with_counter (counter self - 1));;
    callee ← Node_getattr "LoopBody"; v ← read_attr "Control"; call_attr callee v.

(** The loop [for inp in self.inputs.values(): if not inp.name ==
    'Iterations': inp.reset()] *)
Definition reset_but_Iterations (me : Node) : Node :=
  with_inputs (prod_map id (λ inp, if String.eqb (name inp) "Iterations" then inp
                                   else reset inp) <$> inputs me) me.

(** [Loop.notify()] *)
Definition Loop_notify (self : string) : SE Graph unit :=
  me ← get_node self;
  if 0 <? counter me then
    odict_item (outputs me) "LoopBody";;
    g ← se_get;
    propagate self false true (getConnectionsOfOutput g self "LoopBody");;
    on_node self (reset_input "Control")
  else
    odict_item (outputs me) "Final";;
    g ← se_get;
    propagate self false false (getConnectionsOfOutput g self "Final");;
    on_node self (se_modify (with_fresh true);; se_modify reset_but_Iterations).

(** *** [ForEach] *)

(** [ForEach.check()] *)
Definition ForEach_check (self : Node) : result pyobj :=
  if fresh self then Ok (VBool (fresh_check self))
  else
    match odict_get (inputs self) "Control" with
    | None => Raise KeyError
    | Some c => Ok (if isAvailable c then VBool true else VNone)
    end.

(** [ForEach.run()] *)
Definition ForEach_run `{PyExt} : SE Node unit :=
  se_modify (with_fresh false);;
  try_IndexError
    (callee ← Node_getattr "ListElement";
     start ← read_attr "Start";
     self ← se_get;
     x ← se_lift (py_getitem start (counter self));
     call_attr callee x)
    (callee ← Node_getattr "Final"; start ← read_attr "Start"; call_attr callee start;;
     se_modify (with_done true));;
  se_modify (λ self, with_counter (counter self + 1) self).

(** [ForEach.notify()] *)
Definition ForEach_notify (self : string) : SE Graph unit :=
  me ← get_node self;
  if negb (done me) then
    odict_item (outputs me) "ListElement";;
    g ← se_get;
    propagate self false true (getConnectionsOfOutput g self "ListElement");;
    on_node self (reset_input "Control")
  else
    odict_item (outputs me) "Final";;
    g ← se_get;
    propagate self false false (getConnectionsOfOutput g self "Final");;
    on_node self (se_modify (with_fresh true);; se_modify reset_but_Iterations;;
                  se_modify (with_counter 0);; se_modify (with_fresh true);;
                  se_modify (with_done false)).

(** ** The barrier nodes and the nodes that forward one input *)

Definition WaitAll_def : ClassDef :=
  class_def "WaitAll" (Some Node_def)
    [addInput "1" TObject None None None false;
     addInput "2" TObject None None None false]
    [addOutput "out" TObject None None None false] [].

Definition WaitAny_def : ClassDef := class_def "WaitAny" (Some WaitAll_def) [] [] [].

Definition Test_def : ClassDef :=
  class_def "Test" (Some Node_def)
    [addInput "Test" TBool None None None false]
    [addOutput "T" TBool None None None false] [].

Definition CreateBool_def : ClassDef :=
  class_def "CreateBool" (Some Node_def)
    [addInput "Value" TBool None None (Some [VBool true; VBool false]) false]
    [addOutput "Boolean" TBool None None None false] [].

Definition CreateString_def : ClassDef :=
  class_def "CreateString" (Some Node_def)
    [addInput "Str" TStr None None None false]
    [addOutput "String" TStr None None None false] [].

Definition WaitAll_class : NodeClass := class_of WaitAll_def.
Definition WaitAny_class : NodeClass := class_of WaitAny_def.

(** [WaitAll.notify()]: the inherited notify, then once more a reset of
    every input. *)
Definition WaitAll_notify (self : string) : SE Graph unit :=
  Node_notify self;;
  on_node self (se_modify (λ me, with_inputs (prod_map id reset <$> inputs me) me)).

(** [WaitAny.check()]: [True] at the first input that holds a value,
    [None] when the loop ends without one. *)
Definition WaitAny_check (self : Node) : pyobj :=
  if existsb valueSet (odict_values (inputs self)) then VBool true else VNone.

(** [WaitAny.run()]: every input that holds a value is written to [out],
    in the order of the inputs, one after the other. *)
Definition WaitAny_run `{PyExt} : SE Node unit :=
  Node_run;;
  self ← se_get;
  se_for (odict_values (inputs self)) (λ inp,
    if valueSet inp then callee ← Node_getattr "out"; call_attr callee (value inp)
    else mret ()).

(** [self._<o>(self._<i>)], the body of the nodes that hand one input to
    one output. *)
Definition forward `{PyExt} (i o : string) : SE Node unit :=
  callee ← Node_getattr o; v ← read_attr i; call_attr callee v.

(** [CreateBool.run()], [CreateInt.run()], [CreateString.run()] *)
Definition CreateBool_run `{PyExt} : SE Node unit := Node_run;; forward "Value" "Boolean".
Definition CreateInt_run `{PyExt} : SE Node unit := Node_run;; forward "Value" "Integer".
Definition CreateString_run `{PyExt} : SE Node unit := Node_run;; forward "Str" "String".

(** [Test.run()]: the input is read once for printing, then forwarded. *)
Definition Test_run `{PyExt} : SE Node unit :=
  Node_run;; read_attr "Test";; forward "Test" "T".

(** [DebugPrint.run()]: the object is read, printed (its text form, the
    values of [pyobj] carrying no [__FloppyType__]) and handed to [Out]. *)
Definition DebugPrint_run `{PyExt} : SE Node unit :=
  Node_run;;
  obj ← read_attr "Object";
  callee ← Node_getattr "Out";
  call_attr callee obj.

(** [Node.getInputID(inputName)], [Node.getOutputID(outputName)]: the
    format strings with [I] and [O] after the colon. *)
Definition getInputID (self : Node) (inputName : string) : string :=
  ID self +:+ ":I" +:+ inputName.
Definition getOutputID (self : Node) (outputName : string) : string :=
  ID self +:+ ":O" +:+ outputName.

(** [Node.getInputInfo(inputName)], [Node.getOutputInfo(outputName)] *)
Definition getInputInfo (self : Node) (inputName : string) : result Info :=
  match odict_get (inputs self) inputName with Some p => Ok p | None => Raise KeyError end.
Definition getOutputInfo (self : Node) (outputName : string) : result Info :=
  match odict_get (outputs self) outputName with Some p => Ok p | None => Raise KeyError end.

(** [Node.getInputPin(inputName)], [Node.getOutputPin(outputName)] *)
Definition getInputPin (self : Node) (inputName : string) : result Pin :=
  match odict_get (inputPins self) inputName with Some p => Ok p | None => Raise KeyError end.
Definition getOutputPin (self : Node) (outputName : string) : result Pin :=
  match odict_get (outputPins self) outputName with Some p => Ok p | None => Raise KeyError end.


(** The nodes of node.py whose [run] reads one input and writes what it
    read to one output, with the names of the two ports. *)
Definition forwarders `{PyExt} : list (SE Node unit * string * string) :=
  [(CreateBool_run, "Value", "Boolean"); (CreateInt_run, "Value", "Integer");
   (CreateString_run, "Str", "String"); (Test_run, "Test", "T");
   (DebugPrint_run, "Object", "Out")].


(** A value that is already an object of the type a read converts to:
    [type(v) is t], and anything for [object]. *)
Definition value_of_type (t : pyType) (v : pyobj) : bool :=
  match t, v with
  | TObject, _ => true
  | TBool, VBool _ | TInt, VInt _ | TFloat, VFloat _ | TStr, VStr _ => true
  | _, _ => false
  end.

(** The same for what a port stores: a list port of a converting type
    holds a list of such values. *)
Definition fits (p : Info) (v : pyobj) : bool :=
  if isList p && negb (bool_decide (varType p = TObject)) then
    match v with
    | VList l => forallb (value_of_type (varType p)) l
    | _ => false
    end
  else value_of_type (varType p) v.


(** ** The effect of propagation, node by node

    Pure counterparts of the loop of [notify], used to state what the
    loop leaves in the graph. *)

(** A connection's downstream port. *)
Definition target (c : Connection) : string * string := (inputNode c, inputName c).

(** The input [i] of node [m], when both exist. *)
Definition get_input (g : Graph) (m i : string) : option Info :=
  nd ← nodes g !! m; odict_get (inputs nd) i.

(** The output [o] of node [m]. *)
Definition get_output (g : Graph) (m o : string) : option Info :=
  nd ← nodes g !! m; odict_get (outputs nd) o.

(** Storing [v] into the input [i] of a node, as a successful
    [setInput] does. *)
Definition node_store (i : string) (v : pyobj) (nd : Node) : Node :=
  match odict_get (inputs nd) i with
  | Some p => with_inputs (odict_set (inputs nd) i (with_value true v p)) nd
  | None => nd
  end.

(** The stores that the connections [cons], read from the outputs [outs]
    of the notifying node, perform on node [m]. *)
Definition node_pushes (use_default : bool) (outs : odict Info) (m : string)
    (cons : list Connection) (nd : Node) : Node :=
  foldl (λ nd c,
           if decide (inputNode c = m) then
             match odict_get outs (outputName c) with
             | Some out => node_store (inputName c) (current use_default out) nd
             | None => nd
             end
           else nd) nd cons.

(** The graph after all the stores. *)
Definition push_all (use_default : bool) (outs : odict Info) (cons : list Connection)
    (g : Graph) : Graph :=
  with_nodes (map_imap (λ m nd, Some (node_pushes use_default outs m cons nd)) (nodes g)) g.

(** The value the last connection of [cons] that ends in the input
    [(m, i)] carries, if there is one. *)
Definition last_value (use_default : bool) (outs : odict Info) (m i : string)
    (cons : list Connection) : option pyobj :=
  foldl (λ acc c,
           if decide (target c = (m, i)) then
             match odict_get outs (outputName c) with
             | Some out => Some (current use_default out)
             | None => acc
             end
           else acc) None cons.

(** Every connection of [cons] names an output held in [outs]. *)
Definition outputs_exist (outs : odict Info) (cons : list Connection) : Prop :=
  Forall (λ c, is_Some (odict_get outs (outputName c))) cons.

(** Every connection of [cons] ends in an existing input of an existing
    node. *)
Definition targets_exist (g : Graph) (cons : list Connection) : Prop :=
  Forall (λ c, is_Some (get_input g (inputNode c) (inputName c))) cons.

(** Every connection of [cons] ends in an input that holds no value, and
    no two of them end in the same input: what a store without override
    needs. *)
Definition targets_unset (g : Graph) (cons : list Connection) : Prop :=
  NoDup (target <$> cons)
  ∧ Forall (λ c, valueSet <$> get_input g (inputNode c) (inputName c) = Some false) cons.

(** ** Nodes of a class, and the driver *)

(** What a port keeps of its declaration for life: key, name, type and
    list flag. *)
Definition port_shape (kp : string * Info) : string * string * pyType * bool :=
  (kp.1, name kp.2, varType kp.2, isList kp.2).

(** The node carries the ports its class declares, in whatever state. *)
Definition instance_of (cls : NodeClass) (nd : Node) : Prop :=
  port_shape <$> inputs nd = port_shape <$> cls_inputs cls
  ∧ odict_keys (outputs nd) = odict_keys (cls_outputs cls).

(** [self.inputs[k]()], the read behind [self._k] for an input [k]. *)
Definition read_input `{PyExt} (nd : Node) (k : string) : result pyobj :=
  match odict_get (inputs nd) k with
  | Some p => InputInfo_call p false
  | None => Raise KeyError
  end.

(** Modelled from the spec: the driver is not part of node.py. One
    scheduling cycle of a node that reported ready runs it and then lets
    it notify. *)
Definition cycle (run : SE Node unit) (notify : string → SE Graph unit)
    (self : string) : SE Graph unit :=
  on_node self run;; notify self.


(** What one cycle of a control-flow node that emits along the output [o]
    leaves: the node itself as [me1], every other node with the stores of
    the connections of [o] applied, the connections as they were. *)
Definition after_cycle (g : Graph) (self o : string) (outs : odict Info)
    (me1 : Node) (g1 : Graph) : Prop :=
  connections g1 = connections g
  ∧ nodes g1 !! self = Some me1
  ∧ ∀ m, m ≠ self →
      nodes g1 !! m
      = node_pushes false outs m (getConnectionsOfOutput g self o) <$> nodes g !! m.


(** Resetting the input [k] of a node, as [self.inputs[k].reset()] does
    when the input exists. *)
Definition node_reset (k : string) (nd : Node) : Node :=
  match odict_get (inputs nd) k with
  | Some p => with_inputs (odict_set (inputs nd) k (reset p)) nd
  | None => nd
  end.


(** ** Vocabulary for the scenarios of the control-flow nodes *)

(** One cycle of the node [self] in the graph [g] emits [x] on its output
    [o]: the cycle completes, [x] is written to the output and stored,
    marked as set, into every input of another node that a connection of
    [o] ends in; the node's other outputs, the other inputs of other
    nodes and the connections are as before. *)
Definition emits (run : SE Node unit) (notify : string → SE Graph unit)
    (g : Graph) (self o : string) (x : pyobj) (g1 : Graph) : Prop :=
  cycle run notify self g = (Ok (), g1)
  ∧ connections g1 = connections g
  ∧ get_output g1 self o = with_value true x <$> get_output g self o
  ∧ (∀ o', o' ≠ o → get_output g1 self o' = get_output g self o')
  ∧ ∀ m i, m ≠ self →
      get_input g1 m i
      = if decide ((m, i) ∈ target <$> getConnectionsOfOutput g self o)
        then with_value true x <$> get_input g m i
        else get_input g m i.

(** [g'] is a later graph in which [Control] of [self] has been set to
    [c] since [g1]; the other nodes are whatever they have become. *)
Definition refilled (g1 : Graph) (self : string) (c : pyobj) (g' : Graph) : Prop :=
  nodes g' !! self = node_store "Control" c <$> nodes g1 !! self.

(** The connections of the output [o] of [self] end in existing inputs,
    none of them the input [Start] of [self] itself. *)
Definition feeds_others (g : Graph) (self o : string) : Prop :=
  targets_exist g (getConnectionsOfOutput g self o)
  ∧ (self, "Start") ∉ target <$> getConnectionsOfOutput g self o.

(** The node [self] reports ready by the given [check]. *)
Definition ready (check : Node → result pyobj) (g : Graph) (self : string) : Prop :=
  check <$> nodes g !! self = Some (Ok (VBool true)).


(** ** Scenarios of any length *)

(** The emissions on [LoopBody] that follow the first one, for the
    values [cs] stored into [Control] one after the other: each time
    [Control] has been set, in whatever the graph has become, the node is
    ready and its cycle emits that value, provided the connections of
    [LoopBody] end in existing inputs. After the last of them the node is
    pending with its counter at 1. *)
Fixpoint Loop_body_cycles `{PyExt} (self : string) (cs : list pyobj) (g : Graph) : Prop :=
  match cs with
  | [] =>
      ∃ me, nodes g !! self = Some me ∧ instance_of Loop_class me
            ∧ fresh me = false ∧ counter me = 1
  | c :: cs' =>
      ∀ g', refilled g self c g' →
            targets_exist g' (getConnectionsOfOutput g' self "LoopBody") →
            ready Loop_check g' self
            ∧ ∃ g1, emits Loop_run Loop_notify g' self "LoopBody" c g1
                    ∧ Loop_body_cycles self cs' g1
  end.

(** The cycles of a [ForEach] node over the list [l], with the elements
    [rest] still to come: each element is emitted on [ListElement], and
    the node is ready again once [Control] has been set; when none is
    left the whole list is emitted on [Final] and the node ends fresh,
    not done, with its counter at 0. The connections of [ListElement]
    must end in existing inputs other than the node's own [Start], those
    of [Final] in distinct inputs that hold no value. *)
Fixpoint ForEach_cycles `{PyExt} (self : string) (l rest : list pyobj) (g : Graph) : Prop :=
  match rest with
  | [] =>
      targets_unset g (getConnectionsOfOutput g self "Final") →
      ∃ g1 me1, emits ForEach_run ForEach_notify g self "Final" (VList l) g1
                ∧ nodes g1 !! self = Some me1
                ∧ fresh me1 = true ∧ counter me1 = 0 ∧ done me1 = false
  | x :: rest' =>
      feeds_others g self "ListElement" →
      ∃ g1, emits ForEach_run ForEach_notify g self "ListElement" x g1
            ∧ ∀ c g', refilled g1 self c g' →
                      ready ForEach_check g' self ∧ ForEach_cycles self l rest' g'
  end.


(** ** Example graphs *)

(** The node a constructor call returns; the calls below do not raise. *)
Definition constructed (r : result Node) : Node :=
  match r with
  | Ok n => n
  | Raise _ => mkNode "" "" [] [] false 0 false [] []
  end.

(** The node a graph holds under an ID, for reading examples off it. *)
Definition node_at (g : Graph) (nid : string) : Node :=
  constructed (match nodes g !! nid with Some n => Ok n | None => Raise KeyError end).

(** [node.setInput(k, v)] on a node under construction. *)
Definition given (k : string) (v : pyobj) (nd : Node) : Node :=
  (Node_setInput k v false nd).2.

(** Set flag and value of a port, for reading results off a graph. *)
Definition port_state (p : option Info) : option (bool * pyobj) :=
  (λ q, (valueSet q, value q)) <$> p.

(** A [Loop] node with [Iterations] = 3 and [Start] = [S0], whose
    [LoopBody] feeds the node [body] and whose [Final] feeds the node
    [after]. *)
Definition loop_graph (S0 : pyobj) : Graph :=
  mkGraph
    (<["loop" := given "Iterations" (VInt 3) (given "Start" S0 (constructed (Loop_init "loop")))]>
     (<["body" := constructed (Node_init DebugPrint_class "body")]>
      (<["after" := constructed (Node_init DebugPrint_class "after")]> ∅)))
    [mkConnection "loop" "LoopBody" "body" "Object";
     mkConnection "loop" "Final" "after" "Object"].


(** Every entry of a port dictionary sits under its own name, and no key
    occurs twice. *)
Definition well_keyed (d : odict Info) : Prop :=
  Forall (λ kp, name kp.2 = kp.1) d ∧ NoDup (odict_keys d).


(** A [ForEach] node in the middle of the list [l], about to emit the
    element of index [k]. *)
Definition ForEach_at `{PyExt} (me : Node) (l : list pyobj) (k : nat) : Prop :=
  instance_of ForEach_class me ∧ done me = false ∧ counter me = Z.of_nat k
  ∧ read_input me "Start" = Ok (VList l).

(** What one declaration of the class body does to [__inputs__]. *)
Definition declare_input (d : odict Info) (decl : PortDecl) : odict Info :=
  odict_set d (d_name decl) (Info_of_decl decl).

(** A [CreateInt] node [a] that has run on the value 5, connected to the
    input of a [DebugPrint] node [b] that still holds a value from an
    earlier cycle. *)
Definition notify_graph : Graph :=
  mkGraph
    (<["a" := (call_attr (AttrOutput "Integer") (VInt 5)
                 (given "Value" (VInt 5) (constructed (Node_init CreateInt_class "a")))).2]>
     (<["b" := given "Object" (VStr "stale")
                 (constructed (Node_init DebugPrint_class "b"))]> ∅))
    [mkConnection "a" "Integer" "b" "Object"].


(** A [ForEach] node over the list 1, 2, 3; [ListElement] feeds the node
    [body], [Final] the node [after]. *)
Definition foreach_graph : Graph :=
  mkGraph
    (<["each" := given "Start" (VList [VInt 1; VInt 2; VInt 3])
                   (constructed (ForEach_init "each"))]>
     (<["body" := constructed (Node_init DebugPrint_class "body")]>
      (<["after" := constructed (Node_init DebugPrint_class "after")]> ∅)))
    [mkConnection "each" "ListElement" "body" "Object";
     mkConnection "each" "Final" "after" "Object"].



(** [foreach_graph] with a value left in the input that [Final] feeds. *)
Definition stale_foreach_graph : Graph :=
  (on_node "after" (Node_setInput "Object" (VStr "old") false) foreach_graph).2.

(** A [ForEach] node over the list 1, 2, 3 whose [ListElement] feeds its
    own [Start]. *)
Definition self_fed_foreach_graph : Graph :=
  mkGraph
    (<["each" := given "Start" (VList [VInt 1; VInt 2; VInt 3])
                   (constructed (ForEach_init "each"))]> ∅)
    [mkConnection "each" "ListElement" "each" "Start"].


(** ** Statements of the specification used for comparison *)

(** The tag match as the specification words it: the prefix starts some
    tag, letter case ignored on both sides. *)
Definition tag_match_caseless (cls : NodeClass) (text : string) : bool :=
  existsb (λ tag, startswith (lower tag) (lower text)) (cls_tags cls).

(** * Properties *)

(** ** The builtin conversions on a few inputs *)

Example repr_examples :
  @py_repr trivial_ext (VList [VInt (-12); VStr "a\b"; VNone; VList [VBool true]])
  = "[-12, 'a\\b', None, [True]]"
  ∧ repr_str "a'b" = String dquote ("a'b" +:+ String dquote EmptyString)
  ∧ int_of_str "  +1_000 " = Ok 1000 ∧ int_of_str "" = Raise ValueError
  ∧ int_of_str "1__0" = Raise ValueError ∧ int_of_str "-007" = Ok (-7)
  ∧ int_of_float (-3.5)%float = Ok (-3) ∧ float_of_int 3 = Ok 3%float.
Proof. vm_compute. repeat split. Qed.

(** ** Ports *)

Section PortProperties.
Context `{PyExt}.

Lemma upper_TRUE_is_bool (p : Info) (s : string) :
  varType p = TBool →
  setDefault p (VStr s) = (Ok (), with_default (VBool (String.eqb (upper s) "TRUE")) p).
Proof.
  intros Hty. unfold setDefault. rewrite Hty. simpl.
  destruct (String.eqb (upper s) "TRUE"); destruct p; reflexivity.
Qed.

(** C2: on a bool-typed port, [setDefault] with a string literal stores
    [True] exactly when the upper-cased literal is TRUE and [False] for
    every other literal, without raising; a later read of the port, while
    it has no explicit value and is not connected, returns that boolean. *)
Theorem setDefault_bool_literal (p : Info) (s : string) :
  varType p = TBool →
  ∃ p', setDefault p (VStr s) = (Ok (), p')
        ∧ default p' = VBool (String.eqb (upper s) "TRUE")
        ∧ (String.eqb (upper s) "TRUE" = false → default p' = VBool false)
        ∧ valueSet p' = valueSet p ∧ connected p' = connected p
        ∧ ∀ noException, valueSet p' = false → connected p' = false →
            InputInfo_call p' noException = Ok (VBool (String.eqb (upper s) "TRUE")).
Proof.
  intros Hty. eexists. split; [apply upper_TRUE_is_bool; exact Hty|].
  repeat split; try reflexivity.
  - intros ->. reflexivity.
  - intros noExc Hvs Hc. unfold InputInfo_call. simpl in *.
    rewrite Hvs, Hc, Hty. reflexivity.
Qed.

Lemma result_map_Forall2 {A B} (f : A → result B) (xs : list A) (ys : list B) :
  result_map f xs = Ok ys ↔ Forall2 (λ x y, f x = Ok y) xs ys.
Proof.
  revert ys. induction xs as [|x xs IH]; intros ys; simpl.
  - split; [intros [= <-]; constructor|]. intros Hf. by apply Forall2_nil_inv_l in Hf as ->.
  - destruct (f x) as [y|e] eqn:Ex; simpl.
    + destruct (result_map f xs) as [ys'|e] eqn:Er; simpl.
      * split.
        -- intros [= <-]. constructor; [done|]. by apply IH.
        -- intros Hf. apply Forall2_cons_inv_l in Hf as (y' & ys'' & Hy & Hys & ->).
           apply IH in Hys. congruence.
      * split; [done|]. intros Hf.
        apply Forall2_cons_inv_l in Hf as (y' & ys'' & Hy & Hys & ->).
        apply IH in Hys. done.
    + split; [done|]. intros Hf.
      apply Forall2_cons_inv_l in Hf as (y' & ys'' & Hy & Hys & ->). congruence.
Qed.

(** The loop of a comprehension stops at the first element whose
    conversion raises, with that exception. *)
Lemma result_map_Raise {A B} (f : A → result B) (xs : list A) (e : exn) :
  result_map f xs = Raise e
  ↔ ∃ pre x post, xs = (pre ++ x :: post)%list
                  ∧ Forall (λ x', ∃ y, f x' = Ok y) pre ∧ f x = Raise e.
Proof.
  induction xs as [|x xs IH]; simpl.
  - split; [done|]. intros (pre & x & post & Hxs & _). by destruct pre.
  - destruct (f x) as [y|e'] eqn:Ex; simpl.
    + destruct (result_map f xs) as [ys'|e'] eqn:Er; simpl.
      * split; [done|]. intros ([|x' pre] & x0 & post & Hxs & Hpre & Hx0).
        -- injection Hxs as -> _. congruence.
        -- injection Hxs as -> ->. apply Forall_cons in Hpre as [_ Hpre].
           assert (Ok ys' = (Raise e : result (list B))) as Habs; [|done].
           apply IH. exists pre, x0, post. done.
      * split.
        -- intros [= ->]. destruct (proj1 IH eq_refl) as (pre & x0 & post & -> & Hpre & Hx0).
           exists (x :: pre), x0, post. split; [done|]. split; [|done].
           constructor; eauto.
        -- intros ([|x' pre] & x0 & post & Hxs & Hpre & Hx0).
           ++ injection Hxs as -> _. congruence.
           ++ injection Hxs as -> ->. apply Forall_cons in Hpre as [_ Hpre].
              apply IH. exists pre, x0, post. done.
    + split.
      * intros [= ->]. exists [], x, xs. by repeat split.
      * intros ([|x' pre] & x0 & post & Hxs & Hpre & Hx0).
        -- injection Hxs as -> _. congruence.
        -- injection Hxs as -> ->. apply Forall_cons in Hpre as [[y Hy] _]. congruence.
Qed.

(** What the constructor of a builtin type returns is an object of that
    type, and an object of the type is returned as it is. *)
Lemma py_call_typed (t : pyType) (v w : pyobj) :
  t ≠ TObject → issubclass_Type t = false → py_call t v = Ok w → value_of_type t w = true.
Proof.
  intros Ho Hs. destruct t; try done; simpl.
  - by intros [= <-].
  - destruct v as [|b|z|f|s|l]; simpl; try done; try (by intros [= <-]).
    + destruct (int_of_float f); simpl; [by intros [= <-]|done].
    + destruct (int_of_str s); simpl; [by intros [= <-]|done].
  - destruct v as [|b|z|f|s|l]; simpl; try done; try (by intros [= <-]).
    + destruct (float_of_int z); simpl; [by intros [= <-]|done].
    + destruct (strip s); [done|]. destruct (float_of_literal _); [by intros [= <-]|done].
  - by intros [= <-].
Qed.

Lemma py_call_fixes_typed (t : pyType) (v : pyobj) :
  t ≠ TObject → value_of_type t v = true → py_call t v = Ok v.
Proof. destruct t, v; simpl; done. Qed.

(** C3: a read returns the explicit value coerced to the port type when
    one was set; otherwise the coerced default when that is not [None]
    and the port is not flagged connected; otherwise it raises
    [InputNotAvailable], or returns [None] when [noException] is
    requested. On an [object] port the coercion is the identity. On a
    port of a builtin type it is the call of the type: what it returns
    is an object of that type, an object of the type is returned as it
    is, and the text 42 read through an int port is the int 42. On a list
    port the explicit value is converted element by element: the result
    is the list of the converted elements, in order and of the same
    length, and the first element that does not convert decides the
    exception. The default is converted as a whole, also on a list port.
    For a class derived from [Type] the explicit value goes through
    [checkType] and the default through the constructor. *)
Theorem InputInfo_call_cases (p : Info) (noException : bool) :
  let t := varType p in
  let read := InputInfo_call p noException in
  let builtin := t ≠ TObject ∧ isinstance_MetaType t = false in
  (valueSet p = true →
     (t = TObject → read = Ok (value p))
     ∧ (builtin → isList p = false →
          read = py_call t (value p)
          ∧ (∀ w, read = Ok w → value_of_type t w = true)
          ∧ (value_of_type t (value p) = true → read = Ok (value p)))
     ∧ (builtin → isList p = true →
          (∀ ys, read = Ok (VList ys)
                 ↔ ∃ xs, py_iter (value p) = Ok xs
                         ∧ Forall2 (λ x y, py_call t x = Ok y) xs ys)
          ∧ (∀ w, read = Ok w →
                  ∃ xs ys, w = VList ys ∧ py_iter (value p) = Ok xs
                           ∧ length ys = length xs
                           ∧ Forall (λ y, value_of_type t y = true) ys)
          ∧ (∀ e, read = Raise e
                  ↔ py_iter (value p) = Raise e
                    ∨ ∃ pre x post,
                        py_iter (value p) = Ok (pre ++ x :: post)%list
                        ∧ Forall (λ x', ∃ y, py_call t x' = Ok y) pre
                        ∧ py_call t x = Raise e))
     ∧ (isinstance_MetaType t = true → isList p = false →
          read = checkType t (value p))
     ∧ (isinstance_MetaType t = true → isList p = true →
          ∀ ys, read = Ok (VList ys)
                ↔ ∃ xs, py_iter (value p) = Ok xs
                        ∧ Forall2 (λ x y, checkType t x = Ok y) xs ys))
  ∧ (valueSet p = false → default p ≠ VNone → connected p = false →
     (t = TObject → read = Ok (default p))
     ∧ (t ≠ TObject → read = py_call t (default p))
     ∧ (builtin → ∀ w, read = Ok w → value_of_type t w = true))
  ∧ (valueSet p = false → default p = VNone ∨ connected p = true →
     read = if noException then Ok VNone else Raise InputNotAvailable)
  ∧ (py_call TInt (VStr "42") = Ok (VInt 42)
     ∧ py_call TInt (VStr "4x") = Raise ValueError
     ∧ py_call TInt (VBool true) = Ok (VInt 1)
     ∧ py_call TInt VNone = Raise TypeError
     ∧ py_call TStr (VInt 42) = Ok (VStr "42")
     ∧ py_call TBool (VStr "") = Ok (VBool false)
     ∧ py_call TBool (VStr "False") = Ok (VBool true)
     ∧ InputInfo_call
         (with_value true (VList [VStr "1"; VInt 2; VBool true])
            (Info_init "xs" TInt None (VStr "") None None true)) noException
       = Ok (VList [VInt 1; VInt 2; VInt 1])
     ∧ InputInfo_call
         (with_value true (VList [VStr "1"; VStr "x"; VNone])
            (Info_init "xs" TInt None (VStr "") None None true)) noException
       = Raise ValueError).
Proof.
  intros t read builtin. subst read. unfold InputInfo_call. fold t.
  split; [|split; [|split]].
  - intros ->. split; [|split; [|split; [|split]]].
    + intros ->. reflexivity.
    + intros [Ho Hm] ->. rewrite bool_decide_eq_false_2 by done. simpl. rewrite Hm.
      assert (issubclass_Type t = false) as Hs by (by destruct t).
      split; [reflexivity|]. split.
      * intros w. by apply py_call_typed.
      * by apply py_call_fixes_typed.
    + intros [Ho Hm] ->. rewrite bool_decide_eq_false_2 by done. simpl. rewrite Hm.
      assert (issubclass_Type t = false) as Hs by (by destruct t).
      split; [|split].
      * intros ys. destruct (py_iter (value p)) as [xs|e]; simpl.
        -- destruct (result_map (py_call t) xs) as [zs|e] eqn:Er; simpl.
           ++ apply result_map_Forall2 in Er. split.
              ** intros [= <-]. eauto.
              ** intros (xs' & [= <-] & Hf). f_equal. f_equal.
                 apply result_map_Forall2 in Hf.
                 apply result_map_Forall2 in Er. congruence.
           ++ split; [done|]. intros (xs' & [= <-] & Hf).
              apply result_map_Forall2 in Hf. congruence.
        -- split; [done|]. by intros (xs' & ? & _).
      * intros w. destruct (py_iter (value p)) as [xs|e]; simpl; [|done].
        destruct (result_map (py_call t) xs) as [zs|e] eqn:Er; simpl; [|done].
        intros [= <-]. apply result_map_Forall2 in Er. exists xs, zs.
        split; [done|]. split; [done|]. split.
        -- symmetry. by eapply Forall2_length.
        -- clear -Er Ho Hs. induction Er as [|x z xs zs Hx _ IH]; constructor; [|done].
           by apply (py_call_typed t x).
      * intros e. destruct (py_iter (value p)) as [xs|e'] eqn:Ei; simpl.
        -- destruct (result_map (py_call t) xs) as [zs|e'] eqn:Er; simpl.
           ++ split; [done|]. intros [?|(pre & x & post & [= ->] & Hpre & Hx)]; [done|].
              assert (result_map (py_call t) (pre ++ x :: post) = Raise e) as Habs.
              { apply result_map_Raise. eauto 6. }
              congruence.
           ++ split.
              ** intros [= ->]. right. apply result_map_Raise in Er
                   as (pre & x & post & -> & Hpre & Hx). eauto 6.
              ** intros [?|(pre & x & post & [= ->] & Hpre & Hx)]; [done|].
                 assert (result_map (py_call t) (pre ++ x :: post) = Raise e) as Habs.
                 { apply result_map_Raise. eauto 6. }
                 congruence.
        -- split; [intros [= ->]; by left|].
           intros [[= ->]|(pre & x & post & ? & _)]; done.
    + intros Hm ->. assert (t ≠ TObject) as Ho by (by destruct t).
      rewrite bool_decide_eq_false_2 by done. simpl. by rewrite Hm.
    + intros Hm -> ys. assert (t ≠ TObject) as Ho by (by destruct t).
      rewrite bool_decide_eq_false_2 by done. simpl. rewrite Hm.
      destruct (py_iter (value p)) as [xs|e]; simpl.
      * destruct (result_map (checkType t) xs) as [zs|e] eqn:Er; simpl.
        -- apply result_map_Forall2 in Er. split.
           ++ intros [= <-]. eauto.
           ++ intros (xs' & [= <-] & Hf). f_equal. f_equal.
              apply result_map_Forall2 in Hf. apply result_map_Forall2 in Er. congruence.
        -- split; [done|]. intros (xs' & [= <-] & Hf).
           apply result_map_Forall2 in Hf. congruence.
      * split; [done|]. by intros (xs' & ? & _).
  - intros -> Hd ->.
    assert (not_None (default p) = true) as -> by (by destruct (default p)).
    simpl. split; [|split].
    + intros ->. reflexivity.
    + intros Ho. by rewrite bool_decide_eq_false_2.
    + intros [Ho Hm] w. rewrite bool_decide_eq_false_2 by done. simpl.
      apply py_call_typed; [done|]. by destruct t.
  - intros -> [-> | ->]; simpl; [reflexivity|].
    rewrite andb_false_r. reflexivity.
  - repeat split; reflexivity.
Qed.

(** C4: on an input that already holds a value, [set] without override
    raises [InputAlreadySet] and leaves the port as it was; with override
    it succeeds for every value and every port type, and stores the value
    exactly as given. *)
Theorem InputInfo_set_twice (p : Info) (v : pyobj) :
  valueSet p = true →
  InputInfo_set p v false = (Raise InputAlreadySet, p)
  ∧ ∃ p', InputInfo_set p v true = (Ok (), p')
          ∧ value p' = v ∧ valueSet p' = true
          ∧ p' = with_value true v p.
Proof.
  intros Hset. unfold InputInfo_set. rewrite Hset. simpl.
  split; [reflexivity|]. eexists. repeat split.
Qed.

(** C8: [reset] clears the default, the value and the set flag and is
    idempotent; afterwards [isAvailable] is the test on default and
    connected flag alone (which fails, the default being gone), whatever
    value had been set before. *)
Theorem reset_idempotent_available (p : Info) :
  default (reset p) = VNone ∧ value (reset p) = VNone ∧ valueSet (reset p) = false
  ∧ reset (reset p) = reset p
  ∧ connected (reset p) = connected p
  ∧ isAvailable (reset p) = not_None (default (reset p)) && negb (connected (reset p))
  ∧ isAvailable (reset p) = false
  ∧ ∀ v override, isAvailable (reset (InputInfo_set p v override).2) = isAvailable (reset p).
Proof.
  repeat split.
Qed.

End PortProperties.

(** ** Catalogue search *)

Lemma existsb_elem_of {A} (f : A → bool) (l : list A) :
  existsb f l = true ↔ ∃ x, x ∈ l ∧ f x = true.
Proof.
  rewrite existsb_exists. split; intros (x & Hx & Hf); exists x; split; try done.
  - by apply list_elem_of_In.
  - by apply list_elem_of_In.
Qed.

Lemma hint_match_truthy (ports : odict Info) (text : string) :
  py_truthy (if String.eqb text "object" then VBool true
             else if existsb (λ p : Info, existsb (λ hint, startswith hint text) (hints p))
                             (odict_values ports)
                  then VBool true else VNone) = true
  ↔ text = "object"
    ∨ ∃ p hint, p ∈ odict_values ports ∧ hint ∈ hints p ∧ startswith hint text = true.
Proof.
  destruct (String.eqb_spec text "object") as [->|Hne]; simpl.
  - split; [by left | done].
  - destruct (existsb _ (odict_values ports)) eqn:E; simpl.
    + apply existsb_elem_of in E as (p & Hp & E).
      apply existsb_elem_of in E as (hint & Hh & E).
      split; [intros _; right; eauto | done].
    + split; [done|]. intros [?|(p & hint & Hp & Hh & E')]; [done|].
      assert (existsb (λ p : Info, existsb (λ hint, startswith hint text) (hints p))
                      (odict_values ports) = true) as E2; [|congruence].
      apply existsb_elem_of. exists p. split; [done|].
      apply existsb_elem_of. eauto.
Qed.

(** C9 (as the code has it): the tag match holds exactly when the prefix,
    taken as given, starts the lower-cased form of some tag, so that it
    agrees with the case-insensitive match on every prefix that has no
    upper-case letter; each hint match holds exactly when the prefix is
    the word object or starts a hint of some input (output); [matchHint]
    is the disjunction of the three. *)
Theorem matchHint_parts (cls : NodeClass) (text : string) :
  (py_truthy (matchClassTag cls text) = true
     ↔ ∃ tag, tag ∈ cls_tags cls ∧ startswith (lower tag) text = true)
  ∧ (lower text = text →
       py_truthy (matchClassTag cls text) = tag_match_caseless cls text)
  ∧ (py_truthy (matchInputHint cls text) = true
     ↔ text = "object"
       ∨ ∃ inp hint, inp ∈ odict_values (cls_inputs cls) ∧ hint ∈ hints inp
                     ∧ startswith hint text = true)
  ∧ (py_truthy (matchOutputHint cls text) = true
     ↔ text = "object"
       ∨ ∃ out hint, out ∈ odict_values (cls_outputs cls) ∧ hint ∈ hints out
                     ∧ startswith hint text = true)
  ∧ py_truthy (matchHint cls text)
    = py_truthy (matchInputHint cls text) || py_truthy (matchOutputHint cls text)
      || py_truthy (matchClassTag cls text).
Proof.
  split; [|split; [|split; [|split]]].
  - unfold matchClassTag. simpl. apply existsb_elem_of.
  - intros Hlow. unfold matchClassTag, tag_match_caseless. simpl. by rewrite Hlow.
  - apply hint_match_truthy.
  - apply hint_match_truthy.
  - unfold matchHint, py_or.
    destruct (py_truthy (matchInputHint cls text)) eqn:E1; simpl; [by rewrite E1|].
    destruct (py_truthy (matchOutputHint cls text)) eqn:E2; simpl; [by rewrite E2|].
    done.
Qed.

(** C9, refuted as stated: the class [Node] carries the tag Node, yet the
    prefix Node does not match it, because only the tag is lower-cased. *)
Lemma matchClassTag_not_caseless :
  ¬ (∀ cls text, py_truthy (matchClassTag cls text) = tag_match_caseless cls text).
Proof.
  intros Hall. specialize (Hall Node_class "Node"). vm_compute in Hall. discriminate.
Qed.

(** ** Ordered dictionaries and stores *)

Lemma odict_get_set_eq {V} (d : odict V) (k : string) (v : V) :
  odict_get (odict_set d k v) k = Some v.
Proof.
  induction d as [|[k' v'] d IH]; simpl.
  - by rewrite String.eqb_refl.
  - destruct (String.eqb_spec k' k) as [->|Hne]; simpl.
    + by rewrite String.eqb_refl.
    + by destruct (String.eqb_spec k' k).
Qed.

Lemma odict_get_set_ne {V} (d : odict V) (k k' : string) (v : V) :
  k ≠ k' → odict_get (odict_set d k v) k' = odict_get d k'.
Proof.
  intros Hne. induction d as [|[k0 v0] d IH]; simpl.
  - by destruct (String.eqb_spec k k').
  - destruct (String.eqb_spec k0 k) as [->|Hne0]; simpl.
    + by destruct (String.eqb_spec k k').
    + destruct (String.eqb_spec k0 k'); [done|apply IH].
Qed.

Lemma odict_get_set {V} (d : odict V) (k k' : string) (v : V) :
  odict_get (odict_set d k v) k' = if decide (k = k') then Some v else odict_get d k'.
Proof.
  case_decide as Hk; [subst; apply odict_get_set_eq | by apply odict_get_set_ne].
Qed.

Lemma odict_keys_set {V} (d : odict V) (k : string) (v : V) :
  is_Some (odict_get d k) → odict_keys (odict_set d k v) = odict_keys d.
Proof.
  unfold odict_keys. induction d as [|[k0 v0] d IH]; simpl; intros [x Hx]; [done|].
  destruct (String.eqb_spec k0 k) as [->|Hne]; simpl; [done|].
  f_equal. apply IH. eauto.
Qed.

Lemma odict_get_fmap {V W} (f : V → W) (d : odict V) (k : string) :
  odict_get (prod_map id f <$> d) k = f <$> odict_get d k.
Proof.
  induction d as [|[k0 v0] d IH]; simpl; [done|].
  destruct (String.eqb k0 k); [done|apply IH].
Qed.

(** A store touches one input and nothing else of the node. *)
Lemma node_store_inputs (i i' : string) (v : pyobj) (nd : Node) :
  odict_get (inputs (node_store i v nd)) i'
  = if decide (i = i') then with_value true v <$> odict_get (inputs nd) i'
    else odict_get (inputs nd) i'.
Proof.
  unfold node_store. destruct (odict_get (inputs nd) i) as [p|] eqn:E; simpl.
  - rewrite odict_get_set. case_decide; [subst; by rewrite E|done].
  - case_decide; [subst; by rewrite E|done].
Qed.

Lemma node_store_rest (i : string) (v : pyobj) (nd : Node) :
  with_inputs [] (node_store i v nd) = with_inputs [] nd
  ∧ odict_keys (inputs (node_store i v nd)) = odict_keys (inputs nd).
Proof.
  unfold node_store. destruct (odict_get (inputs nd) i) as [p|] eqn:E; [|done].
  split; [done|]. simpl. apply odict_keys_set. eauto.
Qed.

Section Pushes.
Variables (ud : bool) (outs : odict Info) (m : string).

Lemma node_pushes_snoc (cons : list Connection) (c : Connection) (nd : Node) :
  node_pushes ud outs m (cons ++ [c]) nd
  = let nd' := node_pushes ud outs m cons nd in
    if decide (inputNode c = m) then
      match odict_get outs (outputName c) with
      | Some out => node_store (inputName c) (current ud out) nd'
      | None => nd'
      end
    else nd'.
Proof. unfold node_pushes. by rewrite foldl_app. Qed.

Lemma node_pushes_rest (cons : list Connection) (nd : Node) :
  with_inputs [] (node_pushes ud outs m cons nd) = with_inputs [] nd
  ∧ odict_keys (inputs (node_pushes ud outs m cons nd)) = odict_keys (inputs nd).
Proof.
  induction cons as [|c cons IH] using rev_ind; [done|].
  rewrite node_pushes_snoc. simpl. case_decide; [|done].
  destruct (odict_get outs (outputName c)) as [out|]; [|done].
  destruct (node_store_rest (inputName c) (current ud out) (node_pushes ud outs m cons nd))
    as [-> ->]. done.
Qed.

Lemma node_pushes_inputs (cons : list Connection) (nd : Node) (i : string) :
  odict_get (inputs (node_pushes ud outs m cons nd)) i
  = match last_value ud outs m i cons with
    | Some v => with_value true v <$> odict_get (inputs nd) i
    | None => odict_get (inputs nd) i
    end.
Proof.
  induction cons as [|c cons IH] using rev_ind; [done|].
  rewrite node_pushes_snoc. unfold last_value. rewrite foldl_app. simpl.
  fold (last_value ud outs m i cons). unfold target.
  destruct (decide (inputNode c = m)) as [<-|Hm].
  - destruct (odict_get outs (outputName c)) as [out|].
    + rewrite node_store_inputs, IH.
      destruct (decide (inputName c = i)) as [<-|Hi].
      * rewrite decide_True by done.
        destruct (last_value _ _ _ _ cons); [|done].
        by destruct (odict_get (inputs nd) (inputName c)).
      * rewrite decide_False by congruence. done.
    + rewrite IH. by case_decide.
  - rewrite decide_False by congruence. done.
Qed.

End Pushes.

(** ** The propagation loop *)

Lemma se_bind_unfold {S A B} (mm : SE S A) (k : A → SE S B) (s : S) :
  (mm ≫= k) s = match mm s with
                | (Ok a, s') => k a s'
                | (Raise e, s') => (Raise e, s')
                end.
Proof. reflexivity. Qed.

Lemma se_ret_unfold {S A} (a : A) (s : S) : (mret a : SE S A) s = (Ok a, s).
Proof. reflexivity. Qed.

Lemma se_modify_unfold {S} (f : S → S) (s : S) : se_modify f s = (Ok (), f s).
Proof. reflexivity. Qed.

Lemma se_get_unfold {S} (s : S) : se_get s = (Ok s, s).
Proof. reflexivity. Qed.

(** One step of symbolic execution of a method body. *)
Ltac se_step :=
  repeat first
    [ rewrite se_bind_unfold
    | rewrite se_ret_unfold
    | rewrite se_get_unfold
    | rewrite se_modify_unfold ];
  cbv beta iota.

Lemma get_node_ok (g : Graph) (m : string) (nd : Node) :
  nodes g !! m = Some nd → get_node m g = (Ok nd, g).
Proof. intros E. unfold get_node. by rewrite E. Qed.

Lemma on_node_ok {A} (g : Graph) (m : string) (nd nd' : Node) (mm : SE Node A) (r : result A) :
  nodes g !! m = Some nd → mm nd = (r, nd') →
  on_node m mm g = (r, with_nodes (<[m := nd']> (nodes g)) g).
Proof. intros E1 E2. unfold on_node. by rewrite E1, E2. Qed.

Lemma Node_setInput_ok (nd : Node) (i : string) (v : pyobj) (ov : bool) (p : Info) :
  odict_get (inputs nd) i = Some p → ov = true ∨ valueSet p = false →
  Node_setInput i v ov nd = (Ok (), node_store i v nd).
Proof.
  intros E Hov. unfold Node_setInput, node_store.
  rewrite se_bind_unfold. simpl. unfold odict_item. rewrite E.
  rewrite se_bind_unfold. simpl. unfold InputInfo_set.
  destruct Hov as [-> | ->]; [rewrite andb_false_r|]; reflexivity.
Qed.

(** One store, seen from any input of the graph. *)
Lemma get_input_store (g : Graph) (m i m' i' : string) (v : pyobj) (nd : Node) :
  nodes g !! m = Some nd →
  get_input (with_nodes (<[m := node_store i v nd]> (nodes g)) g) m' i'
  = if decide ((m, i) = (m', i')) then with_value true v <$> get_input g m' i'
    else get_input g m' i'.
Proof.
  intros E. unfold get_input. simpl.
  destruct (decide (m = m')) as [<-|Hm].
  - rewrite lookup_insert_eq, E. simpl. rewrite node_store_inputs.
    destruct (decide (i = i')) as [<-|Hi].
    + by rewrite decide_True.
    + rewrite decide_False by congruence. done.
  - rewrite lookup_insert_ne by done. rewrite decide_False by congruence. done.
Qed.

Lemma push_all_nil (ud : bool) (outs : odict Info) (g : Graph) :
  push_all ud outs [] g = g.
Proof.
  destruct g as [ns cs]. unfold push_all, with_nodes. simpl. f_equal.
  apply map_eq. intros k. rewrite map_lookup_imap. by destruct (ns !! k).
Qed.

Lemma push_all_cons (ud : bool) (outs : odict Info) (c : Connection)
    (cons : list Connection) (g : Graph) (nd : Node) (out : Info) :
  nodes g !! inputNode c = Some nd →
  odict_get outs (outputName c) = Some out →
  push_all ud outs cons
    (with_nodes (<[inputNode c := node_store (inputName c) (current ud out) nd]> (nodes g)) g)
  = push_all ud outs (c :: cons) g.
Proof.
  intros E Eo. destruct g as [ns cs]. unfold push_all, with_nodes. simpl in *. f_equal.
  apply map_eq. intros k. rewrite !map_lookup_imap.
  destruct (decide (inputNode c = k)) as [<-|Hk].
  - rewrite lookup_insert_eq, E. simpl. by rewrite Eo.
  - rewrite lookup_insert_ne by done. by destruct (ns !! k).
Qed.

(** The loop succeeds as soon as every connection names an output of the
    notifying node and ends in an existing input, and, when the stores do
    not override, in distinct inputs that hold no value; the graph it
    leaves is [push_all]. *)
Lemma propagate_spec (self : string) (ud ov : bool) (outs : odict Info)
    (cons : list Connection) :
  ∀ g,
    (∃ me, nodes g !! self = Some me ∧ outputs me = outs) →
    outputs_exist outs cons →
    targets_exist g cons →
    (ov = false → targets_unset g cons) →
    propagate self ud ov cons g = (Ok (), push_all ud outs cons g).
Proof.
  unfold outputs_exist, targets_exist, targets_unset.
  induction cons as [|c cons IH]; intros g (me & Eme & Eouts) Hout Hex Hun.
  - by rewrite push_all_nil.
  - apply Forall_cons in Hout as [[out Eo] Hout].
    apply Forall_cons in Hex as [[p Ep] Hex].
    unfold get_input in Ep.
    destruct (nodes g !! inputNode c) as [nd|] eqn:End; [simpl in Ep|done].
    assert (ov = true ∨ valueSet p = false) as Hov.
    { destruct ov; [by left|right].
      destruct (Hun eq_refl) as [_ Hu]. apply Forall_cons in Hu as [Hu _].
      unfold get_input in Hu. rewrite End in Hu. simpl in Hu. rewrite Ep in Hu.
      simpl in Hu. congruence. }
    unfold propagate. simpl se_for. rewrite se_bind_unfold.
    rewrite se_bind_unfold, (get_node_ok _ _ _ Eme).
    rewrite se_bind_unfold. unfold odict_item at 1. rewrite Eouts, Eo. se_step.
    rewrite (on_node_ok _ _ _ _ _ _ End (Node_setInput_ok _ _ _ _ _ Ep Hov)).
    set (g1 := with_nodes _ g).
    change (se_for cons _ g1) with (propagate self ud ov cons g1).
    rewrite IH; first by (unfold g1; rewrite (push_all_cons _ _ _ _ _ _ _ End Eo)).
    + destruct (decide (inputNode c = self)) as [Hs|Hs].
      * exists (node_store (inputName c) (current ud out) nd). split.
        -- unfold g1. simpl. rewrite Hs. apply lookup_insert_eq.
        -- rewrite Hs in End. assert (nd = me) as -> by congruence.
           rewrite <- Eouts.
           pose proof (node_store_rest (inputName c) (current ud out) me) as [Hr _].
           by apply (f_equal outputs) in Hr.
      * exists me. split; [|done]. unfold g1. simpl. by rewrite lookup_insert_ne.
    + done.
    + eapply Forall_impl; [exact Hex|]. intros c' [p' Ep']. unfold g1.
      rewrite (get_input_store _ _ _ _ _ _ _ End). rewrite Ep'. by case_decide.
    + intros ->. destruct (Hun eq_refl) as [Hnd Hu]. simpl in Hnd.
      apply NoDup_cons in Hnd as [Hnotin Hnd]. split; [done|].
      apply Forall_cons in Hu as [_ Hu]. apply Forall_forall. intros c' Hc'.
      rewrite Forall_forall in Hu. specialize (Hu c' Hc'). unfold g1.
      rewrite (get_input_store _ _ _ _ _ _ _ End).
      rewrite decide_False; [done|]. intros Heq. apply Hnotin.
      apply list_elem_of_fmap. exists c'. done.
Qed.

(** What the loop leaves in each node: its inputs after the stores, and
    the rest of the node as it was. *)
Lemma push_all_lookup (ud : bool) (outs : odict Info) (cons : list Connection)
    (g : Graph) (m : string) :
  nodes (push_all ud outs cons g) !! m = node_pushes ud outs m cons <$> nodes g !! m.
Proof. unfold push_all. simpl. rewrite map_lookup_imap. by destruct (nodes g !! m). Qed.

Lemma push_all_input (ud : bool) (outs : odict Info) (cons : list Connection)
    (g : Graph) (m i : string) :
  get_input (push_all ud outs cons g) m i
  = match last_value ud outs m i cons with
    | Some v => with_value true v <$> get_input g m i
    | None => get_input g m i
    end.
Proof.
  unfold get_input. rewrite push_all_lookup.
  destruct (nodes g !! m) as [nd|]; simpl; [|by destruct last_value].
  apply node_pushes_inputs.
Qed.

Lemma push_all_output (ud : bool) (outs : odict Info) (cons : list Connection)
    (g : Graph) (m o : string) :
  get_output (push_all ud outs cons g) m o = get_output g m o.
Proof.
  unfold get_output. rewrite push_all_lookup.
  destruct (nodes g !! m) as [nd|]; simpl; [|done].
  pose proof (node_pushes_rest ud outs m cons nd) as [Hr _].
  apply (f_equal outputs) in Hr. simpl in Hr. by rewrite Hr.
Qed.

Lemma last_value_skip (ud : bool) (outs : odict Info) (m i : string)
    (cons : list Connection) (acc : option pyobj) :
  Forall (λ c, target c ≠ (m, i)) cons →
  foldl (λ acc c,
           if decide (target c = (m, i)) then
             match odict_get outs (outputName c) with
             | Some out => Some (current ud out)
             | None => acc
             end
           else acc) acc cons = acc.
Proof.
  induction 1 as [|c cons Hc _ IH]; simpl; [done|]. by rewrite decide_False.
Qed.

(** The connection after which nothing else ends in the same input
    decides what that input holds. *)
Lemma last_value_last (ud : bool) (outs : odict Info) (l1 l2 : list Connection)
    (c : Connection) (out : Info) :
  odict_get outs (outputName c) = Some out →
  Forall (λ c', target c' ≠ target c) l2 →
  last_value ud outs (inputNode c) (inputName c) (l1 ++ c :: l2) = Some (current ud out).
Proof.
  intros Eo Hl2. unfold last_value. rewrite foldl_app. simpl.
  rewrite decide_True by done. rewrite Eo. by apply last_value_skip.
Qed.

(** ** The default [notify] *)

(** C5: [Node.notify] succeeds whenever every connection that leaves the
    node names one of its outputs and ends in an existing input, whatever
    the downstream inputs hold. Afterwards every input of another node
    holds the value carried by the last connection that ends in it (the
    explicit value of the output if its set flag is true, its default
    otherwise), marked as set, and is unchanged when no connection ends
    in it; every input of the notifying node is reset; outputs and
    connections are untouched. *)
Theorem Node_notify_pushes_and_resets (g : Graph) (self : string) (me : Node) :
  nodes g !! self = Some me →
  outputs_exist (outputs me) (getConnectionsFrom g self) →
  targets_exist g (getConnectionsFrom g self) →
  ∃ g', Node_notify self g = (Ok (), g')
        ∧ connections g' = connections g
        ∧ (∀ (l1 : list Connection) c l2 out,
             getConnectionsFrom g self = (l1 ++ c :: l2)%list →
             Forall (λ c', target c' ≠ target c) l2 →
             inputNode c ≠ self →
             odict_get (outputs me) (outputName c) = Some out →
             ∃ p, get_input g (inputNode c) (inputName c) = Some p
                  ∧ get_input g' (inputNode c) (inputName c)
                    = Some (with_value true
                              (if valueSet out then value out else default out) p))
        ∧ (∀ m i, m ≠ self →
             get_input g' m i
             = match last_value true (outputs me) m i (getConnectionsFrom g self) with
               | Some v => with_value true v <$> get_input g m i
               | None => get_input g m i
               end)
        ∧ (∀ i, get_input g' self i = reset <$> get_input g self i)
        ∧ (∀ m o, get_output g' m o = get_output g m o).
Proof.
  intros Eme Hout Hex. unfold Node_notify. se_step.
  rewrite (propagate_spec self true true (outputs me)); [|by eauto|done|done|done].
  set (cons := getConnectionsFrom g self) in *.
  set (g1 := push_all true (outputs me) cons g).
  assert (nodes g1 !! self = Some (node_pushes true (outputs me) self cons me)) as E1.
  { unfold g1. by rewrite push_all_lookup, Eme. }
  rewrite (on_node_ok _ _ _ _ _ _ E1 (se_modify_unfold _ _)).
  assert (∀ m i, m ≠ self →
            get_input (with_nodes (<[self := with_inputs
                 (prod_map id reset <$> inputs (node_pushes true (outputs me) self cons me))
                 (node_pushes true (outputs me) self cons me)]> (nodes g1)) g1) m i
            = match last_value true (outputs me) m i cons with
              | Some v => with_value true v <$> get_input g m i
              | None => get_input g m i
              end) as Hother.
  { intros m i Hm. unfold get_input at 1. simpl. rewrite lookup_insert_ne by done.
    apply (push_all_input true (outputs me) cons g m i). }
  eexists. split; [reflexivity|]. split; [done|]. split; [|split; [exact Hother|split]].
  - intros l1 c l2 out Hsplit Hl2 Hc Eo.
    assert (is_Some (get_input g (inputNode c) (inputName c))) as [p Ep].
    { unfold targets_exist in Hex. rewrite Forall_forall in Hex. apply Hex.
      rewrite Hsplit. apply elem_of_app. right. left. }
    exists p. split; [done|]. rewrite Hother by done. rewrite Hsplit.
    rewrite (last_value_last _ _ _ _ _ _ Eo Hl2), Ep. unfold current. simpl.
    by destruct (valueSet out).
  - intros i. unfold get_input. simpl. rewrite lookup_insert_eq, Eme. simpl.
    rewrite odict_get_fmap, node_pushes_inputs.
    destruct (last_value _ _ _ _ _); [|done]. by destruct (odict_get (inputs me) i).
  - intros m o. unfold get_output at 1. simpl.
    destruct (decide (self = m)) as [<-|Hm].
    + rewrite lookup_insert_eq. simpl.
      pose proof (node_pushes_rest true (outputs me) self cons me) as [Hr _].
      apply (f_equal outputs) in Hr. simpl in Hr. rewrite Hr.
      unfold get_output. by rewrite Eme.
    + rewrite lookup_insert_ne by done.
      apply (push_all_output true (outputs me) cons g m o).
Qed.

(** ** Nodes inside the graph *)

Lemma node_ext (a b : Node) :
  with_inputs [] a = with_inputs [] b → inputs a = inputs b → a = b.
Proof. destruct a, b. simpl. intros [= -> -> -> -> -> -> -> ->] ->. done. Qed.

Lemma odict_ext {V} (d1 d2 : odict V) :
  odict_keys d1 = odict_keys d2 → NoDup (odict_keys d1) →
  (∀ k, odict_get d1 k = odict_get d2 k) → d1 = d2.
Proof.
  revert d2. induction d1 as [|[k v] d1 IH]; intros [|[k2 v2] d2] Hk Hnd Hget;
    try discriminate; [done|].
  simpl in Hk. injection Hk as -> Hk. apply NoDup_cons in Hnd as [Hnotin Hnd].
  pose proof (Hget k2) as Hhd. simpl in Hhd. rewrite String.eqb_refl in Hhd.
  injection Hhd as ->. f_equal. apply IH; [done|done|].
  intros k. pose proof (Hget k) as Hk'. simpl in Hk'.
  destruct (String.eqb_spec k2 k) as [->|Hne]; [|done].
  assert (∀ d : odict V, k ∉ odict_keys d → odict_get d k = None) as Hnone.
  { clear. induction d as [|[k' v'] d IH]; simpl; [done|]. intros Hn.
    apply not_elem_of_cons in Hn as [Hne Hn].
    destruct (String.eqb_spec k' k); [congruence|by apply IH]. }
  rewrite !Hnone; [done| |done]. by rewrite <- Hk.
Qed.

(** On a node whose keys are distinct, the stores of a propagation are a
    map over its inputs. *)
Lemma node_pushes_map (ud : bool) (outs : odict Info) (m : string)
    (cons : list Connection) (nd : Node) :
  NoDup (odict_keys (inputs nd)) →
  node_pushes ud outs m cons nd
  = with_inputs ((λ kp : string * Info,
                    (kp.1, match last_value ud outs m kp.1 cons with
                           | Some v => with_value true v kp.2
                           | None => kp.2
                           end)) <$> inputs nd) nd.
Proof.
  intros Hnd. pose proof (node_pushes_rest ud outs m cons nd) as [Hrest Hkeys].
  apply node_ext; [done|]. simpl.
  assert (∀ d : odict Info,
            odict_keys ((λ kp : string * Info,
                           (kp.1, match last_value ud outs m kp.1 cons with
                                  | Some v => with_value true v kp.2
                                  | None => kp.2
                                  end)) <$> d) = odict_keys d) as Hk.
  { intros d. unfold odict_keys. rewrite <- list_fmap_compose.
    apply list_fmap_ext. by intros ? []. }
  apply odict_ext; [by rewrite Hk|by rewrite Hkeys|].
  intros k. rewrite node_pushes_inputs. generalize (inputs nd). intros d.
  induction d as [|[k' p'] d IH]; simpl; [by destruct last_value|].
  destruct (String.eqb_spec k' k) as [->|Hne]; [by destruct last_value|done].
Qed.

Lemma on_node_insert {A} (g : Graph) (ns : gmap string Node) (m : string) (nd nd' : Node)
    (mm : SE Node A) (r : result A) :
  mm nd = (r, nd') →
  on_node m mm (with_nodes (<[m := nd]> ns) g) = (r, with_nodes (<[m := nd']> ns) g).
Proof.
  intros E. unfold on_node. simpl. rewrite lookup_insert_eq, E.
  unfold with_nodes. simpl. by rewrite insert_insert_eq.
Qed.

Lemma get_node_insert (g : Graph) (ns : gmap string Node) (m : string) (nd : Node) :
  get_node m (with_nodes (<[m := nd]> ns) g) = (Ok nd, with_nodes (<[m := nd]> ns) g).
Proof. unfold get_node. simpl. by rewrite lookup_insert_eq. Qed.

(** Replacing a node by one with the same inputs leaves every input of
    the graph as it was. *)
Lemma get_input_same_inputs (g : Graph) (self : string) (me me' : Node) (m i : string) :
  nodes g !! self = Some me → inputs me' = inputs me →
  get_input (with_nodes (<[self := me']> (nodes g)) g) m i = get_input g m i.
Proof.
  intros E Hin. unfold get_input. simpl. destruct (decide (self = m)) as [<-|Hm].
  - rewrite lookup_insert_eq, E. simpl. by rewrite Hin.
  - by rewrite lookup_insert_ne.
Qed.

Lemma targets_exist_ext (g g' : Graph) (cons : list Connection) :
  (∀ m i, get_input g' m i = get_input g m i) → targets_exist g cons → targets_exist g' cons.
Proof.
  intros Hext Hf. unfold targets_exist. eapply Forall_impl; [exact Hf|].
  intros c. simpl. by rewrite Hext.
Qed.

Lemma targets_unset_ext (g g' : Graph) (cons : list Connection) :
  (∀ m i, get_input g' m i = get_input g m i) → targets_unset g cons → targets_unset g' cons.
Proof.
  intros Hext [Hnd Hu]. split; [done|]. eapply Forall_impl; [exact Hu|].
  intros c. simpl. by rewrite Hext.
Qed.

Lemma targets_unset_exist (g : Graph) (cons : list Connection) :
  targets_unset g cons → targets_exist g cons.
Proof.
  intros [_ Hu]. eapply Forall_impl; [exact Hu|]. intros c. simpl.
  by destruct (get_input g (inputNode c) (inputName c)).
Qed.

Lemma connections_of_output (g : Graph) (self o : string) (c : Connection) :
  c ∈ getConnectionsOfOutput g self o → outputNode c = self ∧ outputName c = o.
Proof. unfold getConnectionsOfOutput. rewrite list_elem_of_filter. by intros [? _]. Qed.

Lemma outputs_exist_of_output (g : Graph) (self o : string) (outs : odict Info) (out : Info) :
  odict_get outs o = Some out → outputs_exist outs (getConnectionsOfOutput g self o).
Proof.
  intros E. apply Forall_forall. intros c Hc.
  apply connections_of_output in Hc as [_ ->]. eauto.
Qed.

(** Along the connections of one output, every input they end in receives
    that output's value, and no other input receives anything. *)
Lemma last_value_one_output (ud : bool) (outs : odict Info) (o : string) (out : Info)
    (m i : string) (cons : list Connection) :
  odict_get outs o = Some out → Forall (λ c, outputName c = o) cons →
  last_value ud outs m i cons
  = if decide ((m, i) ∈ target <$> cons) then Some (current ud out) else None.
Proof.
  intros E. induction cons as [|c cons IH] using rev_ind; intros Ho; [done|].
  apply Forall_app in Ho as [Ho Hc]. rewrite Forall_singleton in Hc.
  specialize (IH Ho). unfold last_value. rewrite foldl_app. simpl. fold (last_value ud outs m i cons).
  rewrite IH, Hc, E, fmap_app. simpl.
  destruct (decide (target c = (m, i))) as [Ht|Ht].
  - rewrite decide_True; [done|]. apply elem_of_app. right. rewrite Ht. left.
  - destruct (decide ((m, i) ∈ target <$> cons)) as [Hin|Hin].
    + rewrite decide_True; [done|]. apply elem_of_app. by left.
    + rewrite decide_False; [done|]. rewrite elem_of_app. intros [?|Hin']; [done|].
      apply list_elem_of_singleton in Hin'. congruence.
Qed.

(** The loop of a control-flow node, run right after [run] replaced the
    node [me] by [me_r]: the graph it leaves. *)
Lemma propagate_at (g : Graph) (self o : string) (ov : bool) (me me_r : Node) (out : Info) :
  nodes g !! self = Some me → inputs me_r = inputs me →
  odict_get (outputs me_r) o = Some out →
  targets_exist g (getConnectionsOfOutput g self o) →
  (ov = false → targets_unset g (getConnectionsOfOutput g self o)) →
  let g_r := with_nodes (<[self := me_r]> (nodes g)) g in
  let cons := getConnectionsOfOutput g self o in
  propagate self false ov (getConnectionsOfOutput g_r self o) g_r
  = (Ok (), with_nodes (<[self := node_pushes false (outputs me_r) self cons me_r]>
                          (nodes (push_all false (outputs me_r) cons g))) g).
Proof.
  intros Eme Hin Eo Hex Hun g_r cons.
  change (getConnectionsOfOutput g_r self o) with cons.
  assert (∀ m i, get_input g_r m i = get_input g m i) as Hext.
  { intros m i. by apply (get_input_same_inputs g self me me_r). }
  rewrite (propagate_spec self false ov (outputs me_r)).
  - f_equal. unfold push_all, with_nodes, g_r. simpl. f_equal.
    apply map_eq. intros k. rewrite map_lookup_imap.
    destruct (decide (self = k)) as [<-|Hk].
    + by rewrite !lookup_insert_eq.
    + rewrite !lookup_insert_ne by done. by rewrite map_lookup_imap.
  - exists me_r. split; [|done]. unfold g_r. simpl. apply lookup_insert_eq.
  - by apply (outputs_exist_of_output g self o _ out).
  - by apply (targets_exist_ext g).
  - intros Hov. by apply (targets_unset_ext g), Hun.
Qed.

(** The inputs of other nodes after a cycle: those the connections of the
    output end in hold its value, the others are as before. *)
Lemma after_cycle_input (g g1 : Graph) (self o : string) (outs : odict Info)
    (me1 : Node) (out : Info) (m i : string) :
  after_cycle g self o outs me1 g1 → odict_get outs o = Some out → m ≠ self →
  get_input g1 m i
  = if decide ((m, i) ∈ target <$> getConnectionsOfOutput g self o)
    then with_value true (value out) <$> get_input g m i
    else get_input g m i.
Proof.
  intros (_ & _ & Hoth) Eo Hm. unfold get_input. rewrite (Hoth m Hm).
  destruct (nodes g !! m) as [nd|]; simpl; [|by case_decide].
  rewrite node_pushes_inputs.
  rewrite (last_value_one_output false outs o out); [by case_decide|done|].
  apply Forall_forall. intros c Hc. by apply connections_of_output in Hc as [_ ?].
Qed.


(** ** Control-flow nodes *)

(** Destructs the ports of a node of a known class: the inputs with
    their names, types and list flags, the outputs with their keys. *)
Ltac inputs_inv Hin :=
  lazymatch type of Hin with
  | _ <$> ?l = [] => apply fmap_nil_inv in Hin; subst l
  | _ <$> ?l = _ :: _ =>
      let k := fresh "k" in
      let p := fresh "p" in
      let l' := fresh "ps" in
      let Hk := fresh "Hk" in
      let Hn := fresh "Hname" in
      let Ht := fresh "Htype" in
      let Hl := fresh "Hlist" in
      destruct l as [|[k p] l']; [discriminate Hin|];
      rewrite fmap_cons in Hin; unfold port_shape at 1 in Hin;
      cbn [fst snd] in Hin; injection Hin as Hk Hn Ht Hl Hin;
      subst k; inputs_inv Hin
  end.

Ltac outputs_inv Hout :=
  lazymatch type of Hout with
  | _ <$> ?l = [] => apply fmap_nil_inv in Hout; subst l
  | _ <$> ?l = _ :: _ =>
      let k := fresh "k" in
      let o := fresh "o" in
      let l' := fresh "os" in
      let Hk := fresh "Hk" in
      destruct l as [|[k o] l']; [discriminate Hout|];
      rewrite fmap_cons in Hout; cbn [fst snd] in Hout; injection Hout as Hk Hout;
      subst k; outputs_inv Hout
  end.

Ltac class_ports H :=
  let Hin := fresh "Hin" in
  let Hout := fresh "Hout" in
  destruct H as [Hin Hout];
  cbn [inputs outputs] in Hin, Hout;
  match type of Hin with
  | ?lhs = ?rhs => let r := eval vm_compute in rhs in change (lhs = r) in Hin
  end;
  match type of Hout with
  | ?lhs = ?rhs => let r := eval vm_compute in rhs in change (lhs = r) in Hout
  end;
  unfold odict_keys in Hout;
  inputs_inv Hin; outputs_inv Hout.

Section ControlNodes.
Context `{PyExt}.

Lemma read_ok_available (p : Info) (v : pyobj) :
  InputInfo_call p false = Ok v → isAvailable p = true.
Proof.
  unfold InputInfo_call, isAvailable. destruct (valueSet p); [done|].
  by destruct (not_None (default p) && negb (connected p)).
Qed.

Lemma read_attr_input (nd : Node) (k : string) (p : Info) (v : pyobj) :
  odict_get (inputs nd) k = Some p → InputInfo_call p false = Ok v →
  read_attr k nd = (Ok v, nd).
Proof.
  intros E Hv. unfold read_attr, Node_getattr. se_step. rewrite E, Hv. by se_step.
Qed.

Lemma getattr_output (nd : Node) (k : string) (o : Info) :
  odict_get (inputs nd) k = None → odict_get (outputs nd) k = Some o →
  Node_getattr k nd = (Ok (AttrOutput k), nd).
Proof. intros E1 E2. unfold Node_getattr. se_step. by rewrite E1, E2. Qed.

Lemma call_attr_output (nd : Node) (k : string) (v : pyobj) (o : Info) :
  odict_get (outputs nd) k = Some o →
  call_attr (AttrOutput k) v nd
  = (Ok (), with_outputs (odict_set (outputs nd) k (with_value true v o)) nd).
Proof. intros E. unfold call_attr, odict_item. se_step. rewrite E. by se_step. Qed.

Lemma reset_input_ok (nd : Node) (k : string) (p : Info) :
  odict_get (inputs nd) k = Some p →
  reset_input k nd = (Ok (), with_inputs (odict_set (inputs nd) k (reset p)) nd).
Proof. intros E. unfold reset_input, odict_item. se_step. rewrite E. by se_step. Qed.

Lemma try_IndexError_unfold {S A} (mm h : SE S A) (s : S) :
  try_IndexError mm h s = match mm s with
                          | (Raise IndexError, s') => h s'
                          | r => r
                          end.
Proof. reflexivity. Qed.

Lemma se_lift_unfold {S A} (r : result A) (s : S) : se_lift r s = (r, s).
Proof. reflexivity. Qed.

Lemma as_int_ok {S} (z : Z) (s : S) : as_int (VInt z) s = (Ok z, s).
Proof. reflexivity. Qed.

(** Symbolic execution of a method on a node whose ports are known. *)
Ltac se_go :=
  repeat (first
    [ rewrite se_bind_unfold
    | rewrite se_ret_unfold
    | rewrite se_get_unfold
    | rewrite se_modify_unfold
    | rewrite try_IndexError_unfold
    | rewrite se_lift_unfold
    | rewrite as_int_ok
    | match goal with
      | Hr : py_getitem _ _ = _ |- _ => rewrite Hr
      end
    | erewrite read_attr_input by first [reflexivity | eassumption]
    | erewrite getattr_output by reflexivity
    | erewrite call_attr_output by reflexivity
    | erewrite reset_input_ok by reflexivity
    | match goal with
      | Hr : InputInfo_call _ _ = _ |- _ => rewrite Hr
      | Hr : py_truthy _ = _ |- _ => rewrite Hr
      end ];
    cbn [fresh counter done inputs outputs className ID
         with_fresh with_counter with_done with_inputs with_outputs]).


Lemma odict_item_ok {S V} (d : odict V) (k : string) (v : V) (s : S) :
  odict_get d k = Some v → odict_item d k s = (Ok v, s).
Proof. intros E. unfold odict_item. by rewrite E. Qed.

(** Symbolic execution of a [notify] on a graph whose notifying node is
    known. *)
Ltac ge_go :=
  repeat (first
    [ rewrite se_bind_unfold
    | rewrite se_ret_unfold
    | rewrite se_get_unfold
    | rewrite se_modify_unfold
    | rewrite get_node_insert
    | erewrite odict_item_ok by reflexivity
    | erewrite on_node_insert by (se_go; reflexivity)
    | match goal with
      | Hr : py_truthy _ = _ |- _ => rewrite Hr
      end ];
    cbn [fresh counter done inputs outputs className ID
         with_fresh with_counter with_done with_inputs with_outputs]).




(** *** [ForEach] *)

Lemma ForEach_cycle_element (g : Graph) (self : string) (me : Node) (start x : pyobj)
    (oL : Info) :
  nodes g !! self = Some me →
  instance_of ForEach_class me → done me = false →
  read_input me "Start" = Ok start → py_getitem start (counter me) = Ok x →
  odict_get (outputs me) "ListElement" = Some oL →
  targets_exist g (getConnectionsOfOutput g self "ListElement") →
  let outs := odict_set (outputs me) "ListElement" (with_value true x oL) in
  ∃ g1, cycle ForEach_run ForEach_notify self g = (Ok (), g1)
        ∧ after_cycle g self "ListElement" outs
            (node_reset "Control"
               (node_pushes false outs self (getConnectionsOfOutput g self "ListElement")
                  (with_counter (counter me + 1)
                     (with_fresh false (with_outputs outs me))))) g1.
Proof.
  intros Eme Hinst Hdone HS Hget HoL Hex outs.
  destruct me as [cn id ins os fr cnt dn ipins opins].
  simpl in Hdone. subst dn. class_ports Hinst. unfold read_input in *.
  simpl in HS, HoL, Hget. injection HoL as ->. subst outs.
  cbn [odict_set String.eqb Ascii.eqb Bool.eqb outputs].
  unfold cycle. rewrite se_bind_unfold.
  erewrite (on_node_ok _ _ _ _ _ _ Eme); [|unfold ForEach_run; se_go; reflexivity].
  cbv beta iota. cbn [odict_set String.eqb Ascii.eqb Bool.eqb].
  unfold ForEach_notify. ge_go. cbn [negb].
  ge_go.
  erewrite (propagate_at g self "ListElement" true _ _ _ Eme);
    [|reflexivity|reflexivity|done|done].
  rewrite !node_pushes_map by (apply (bool_decide_unpack _); by vm_compute).
  cbn [inputs outputs with_outputs with_counter with_fresh fmap list_fmap fst snd]. ge_go.
  eexists. split; [reflexivity|]. split; [done|]. split.
  - simpl. by rewrite lookup_insert_eq.
  - intros m Hm. simpl. rewrite lookup_insert_ne by done. apply push_all_lookup.
Qed.

Lemma ForEach_cycle_final (g : Graph) (self : string) (me : Node) (start : pyobj)
    (oF : Info) :
  nodes g !! self = Some me →
  instance_of ForEach_class me → done me = false →
  read_input me "Start" = Ok start → py_getitem start (counter me) = Raise IndexError →
  odict_get (outputs me) "Final" = Some oF →
  targets_unset g (getConnectionsOfOutput g self "Final") →
  let outs := odict_set (outputs me) "Final" (with_value true start oF) in
  ∃ g1, cycle ForEach_run ForEach_notify self g = (Ok (), g1)
        ∧ after_cycle g self "Final" outs
            (with_done false
               (with_counter 0
                  (with_fresh true
                     (with_inputs (prod_map id reset <$> inputs me)
                        (with_outputs outs me))))) g1.
Proof.
  intros Eme Hinst Hdone HS Hget HoF Hun outs.
  destruct me as [cn id ins os fr cnt dn ipins opins].
  simpl in Hdone. subst dn. class_ports Hinst. unfold read_input in *.
  simpl in HS, HoF, Hget. injection HoF as ->. subst outs.
  cbn [odict_set String.eqb Ascii.eqb Bool.eqb outputs].
  unfold cycle. rewrite se_bind_unfold.
  erewrite (on_node_ok _ _ _ _ _ _ Eme); [|unfold ForEach_run; se_go; reflexivity].
  cbv beta iota. cbn [odict_set String.eqb Ascii.eqb Bool.eqb].
  unfold ForEach_notify. ge_go. cbn [negb].
  ge_go.
  erewrite (propagate_at g self "Final" false _ _ _ Eme);
    [|reflexivity|reflexivity|by apply targets_unset_exist|done].
  rewrite !node_pushes_map by (apply (bool_decide_unpack _); by vm_compute).
  cbn [inputs outputs with_outputs with_counter with_fresh with_done
       fmap list_fmap fst snd]. ge_go.
  eexists. split; [reflexivity|]. split; [done|]. split.
  - simpl. rewrite lookup_insert_eq. f_equal. unfold reset_but_Iterations.
    repeat destruct (last_value _ _ _ _ _); simpl; by rewrite Hname, Hname0.
  - intros m Hm. simpl. rewrite lookup_insert_ne by done. apply push_all_lookup.
Qed.

Lemma ForEach_check_fresh (me : Node) (start : pyobj) :
  instance_of ForEach_class me → fresh me = true → read_input me "Start" = Ok start →
  ForEach_check me = Ok (VBool true).
Proof.
  intros Hinst Hfresh HS. destruct me as [cn id ins os fr cnt dn ipins opins].
  simpl in Hfresh. subst fr. class_ports Hinst. unfold read_input in *. simpl in HS.
  unfold ForEach_check, fresh_check. simpl. rewrite Hname, Hname0. simpl.
  by rewrite (read_ok_available _ _ HS).
Qed.

Lemma py_getitem_list (l : list pyobj) (k : nat) :
  py_getitem (VList l) (Z.of_nat k)
  = match l !! k with Some x => Ok x | None => Raise IndexError end.
Proof.
  unfold py_getitem.
  assert ((Z.of_nat k <? 0) = false) as -> by (apply Z.ltb_ge; lia).
  assert ((0 <=? Z.of_nat k) = true) as -> by (apply Z.leb_le; lia).
  rewrite Nat2Z.id. simpl.
  destruct (l !! k) as [x|] eqn:E.
  - apply lookup_lt_Some in E.
    assert ((Z.of_nat k <? Z.of_nat (length l)) = true) as -> by (apply Z.ltb_lt; lia).
    done.
  - by destruct (Z.of_nat k <? Z.of_nat (length l)).
Qed.

Lemma ForEach_step (g : Graph) (self : string) (me : Node) (l : list pyobj) (k : nat)
    (x : pyobj) :
  nodes g !! self = Some me → ForEach_at me l k → l !! k = Some x →
  feeds_others g self "ListElement" →
  ∃ g1 me1, emits ForEach_run ForEach_notify g self "ListElement" x g1
            ∧ nodes g1 !! self = Some me1
            ∧ ∀ c, ForEach_at (node_store "Control" c me1) l (S k)
                   ∧ ForEach_check (node_store "Control" c me1) = Ok (VBool true).
Proof.
  intros Eme (Hinst & Hdone & Hcnt & HS) Hx [Hex Hself].
  assert (py_getitem (VList l) (counter me) = Ok x) as Hget.
  { by rewrite Hcnt, py_getitem_list, Hx. }
  assert (∃ oL, odict_get (outputs me) "ListElement" = Some oL) as [oL HoL].
  { destruct me as [? ? ? os ? ? ? ? ?]. destruct Hinst as [_ Hout]. simpl in *.
    change (odict_keys os = ["Final"; "ListElement"]) in Hout.
    unfold odict_keys in Hout. outputs_inv Hout. simpl. eauto. }
  destruct (ForEach_cycle_element g self me _ x oL Eme Hinst Hdone HS Hget HoL Hex)
    as (g1 & Hcyc & Hafter).
  pose proof Hafter as (Hcons & Eme1 & _).
  eexists g1, _. split; [|split; [exact Eme1|]].
  - split; [exact Hcyc|]. split; [done|]. unfold get_output. rewrite Eme1, Eme. simpl.
    pose proof (node_pushes_rest false
                  (odict_set (outputs me) "ListElement" (with_value true x oL)) self
                  (getConnectionsOfOutput g self "ListElement")
                  (with_counter (counter me + 1) (with_fresh false
                     (with_outputs (odict_set (outputs me) "ListElement"
                                      (with_value true x oL)) me)))) as [Hr _].
    apply (f_equal outputs) in Hr. simpl in Hr.
    assert (∀ nd, outputs (node_reset "Control" nd) = outputs nd) as Hreset.
    { intros nd. unfold node_reset. by destruct (odict_get (inputs nd) "Control"). }
    rewrite Hreset, Hr. split; [|split].
    + by rewrite odict_get_set_eq, HoL.
    + intros o' Ho'. by rewrite odict_get_set_ne.
    + intros m i Hm.
      by rewrite (after_cycle_input g g1 self "ListElement" _ _ (with_value true x oL) m i
                    Hafter (odict_get_set_eq _ _ _) Hm).
  - intros c. clear Hcyc Hafter Eme1 Hex Hget.
    assert (last_value false (odict_set (outputs me) "ListElement" (with_value true x oL))
              self "Start" (getConnectionsOfOutput g self "ListElement") = None) as Hlv.
    { rewrite (last_value_one_output false _ "ListElement" (with_value true x oL));
        [by rewrite decide_False|apply odict_get_set_eq|].
      apply Forall_forall. intros c' Hc'. by apply connections_of_output in Hc' as [_ ?]. }
    destruct me as [cn id ins os fr cnt dn ipins opins].
    simpl in Hdone, Hcnt. subst dn cnt. pose proof Hinst as Hinst'.
    class_ports Hinst. unfold read_input in *. simpl in HS, HoL. injection HoL as ->.
    rewrite node_pushes_map by (apply (bool_decide_unpack _); by vm_compute).
    cbn [inputs outputs with_outputs with_counter with_fresh fmap list_fmap fst snd
         odict_set String.eqb Ascii.eqb Bool.eqb] in *.
    rewrite Hlv. unfold node_reset, node_store. simpl. split.
    + split; [|split; [done|split; [simpl; lia|]]].
      * split; [|done]. simpl. unfold port_shape. simpl.
        rewrite Hname, Htype, Hlist.
        destruct (last_value _ _ _ "Control" _); simpl;
          by rewrite Hname0, Htype0, Hlist0.
      * unfold read_input. simpl. exact HS.
    + unfold ForEach_check. simpl. done.
Qed.

Lemma ForEach_finish (g : Graph) (self : string) (me : Node) (l : list pyobj) :
  nodes g !! self = Some me → ForEach_at me l (length l) →
  targets_unset g (getConnectionsOfOutput g self "Final") →
  ∃ g1 me1, emits ForEach_run ForEach_notify g self "Final" (VList l) g1
            ∧ nodes g1 !! self = Some me1
            ∧ fresh me1 = true ∧ counter me1 = 0 ∧ done me1 = false
            ∧ ∀ i, odict_get (inputs me1) i = reset <$> odict_get (inputs me) i.
Proof.
  intros Eme (Hinst & Hdone & Hcnt & HS) Hun.
  assert (py_getitem (VList l) (counter me) = Raise IndexError) as Hget.
  { rewrite Hcnt, py_getitem_list. by rewrite lookup_ge_None_2. }
  assert (∃ oF, odict_get (outputs me) "Final" = Some oF) as [oF HoF].
  { destruct me as [? ? ? os ? ? ? ? ?]. destruct Hinst as [_ Hout]. simpl in *.
    change (odict_keys os = ["Final"; "ListElement"]) in Hout.
    unfold odict_keys in Hout. outputs_inv Hout. simpl. eauto. }
  destruct (ForEach_cycle_final g self me _ oF Eme Hinst Hdone HS Hget HoF Hun)
    as (g1 & Hcyc & Hafter).
  pose proof Hafter as (Hcons & Eme1 & _).
  eexists g1, _. split; [|split; [exact Eme1|]].
  - split; [exact Hcyc|]. split; [done|]. unfold get_output. rewrite Eme1, Eme. simpl.
    split; [|split].
    + by rewrite odict_get_set_eq, HoF.
    + intros o' Ho'. by rewrite odict_get_set_ne.
    + intros m i Hm.
      by rewrite (after_cycle_input g g1 self "Final" _ _ (with_value true (VList l) oF) m i
                    Hafter (odict_get_set_eq _ _ _) Hm).
  - split; [done|]. split; [done|]. split; [done|]. intros i. apply odict_get_fmap.
Qed.

(** C7 (as the code has it), under the two conditions named at the
    end: a fresh [ForEach] node (counter 0, not done) whose [Start] holds
    the list 1, 2, 3 is ready; its first cycle emits 1 on [ListElement];
    after each refill of [Control] it is ready again and the next cycle
    emits 2, then 3, then the whole list on [Final]; the notify of that
    last cycle leaves the node fresh, not done, with counter 0 and its
    inputs reset. Each cycle is stated for any later graph in which
    [Control] of the node was set; the connections of [ListElement] must
    end in existing inputs other than the node's own [Start], those of
    [Final] in distinct inputs that hold no value. *)
Theorem ForEach_three_elements (g0 : Graph) (self : string) (me0 : Node) :
  let l := [VInt 1; VInt 2; VInt 3] in
  let emits_on := emits ForEach_run ForEach_notify in
  nodes g0 !! self = Some me0 →
  instance_of ForEach_class me0 →
  fresh me0 = true → counter me0 = 0 → done me0 = false →
  read_input me0 "Start" = Ok (VList l) →
  feeds_others g0 self "ListElement" →
  ready ForEach_check g0 self
  ∧ ∃ g1, emits_on g0 self "ListElement" (VInt 1) g1
    ∧ ∀ c1 g1', refilled g1 self c1 g1' → feeds_others g1' self "ListElement" →
      ready ForEach_check g1' self
      ∧ ∃ g2, emits_on g1' self "ListElement" (VInt 2) g2
        ∧ ∀ c2 g2', refilled g2 self c2 g2' → feeds_others g2' self "ListElement" →
          ready ForEach_check g2' self
          ∧ ∃ g3, emits_on g2' self "ListElement" (VInt 3) g3
            ∧ ∀ c3 g3', refilled g3 self c3 g3' →
                targets_unset g3' (getConnectionsOfOutput g3' self "Final") →
              ready ForEach_check g3' self
              ∧ ∃ g4 me4, emits_on g3' self "Final" (VList l) g4
                ∧ nodes g4 !! self = Some me4
                ∧ fresh me4 = true ∧ counter me4 = 0 ∧ done me4 = false
                ∧ ∀ i p, odict_get (inputs me4) i = Some p → reset p = p.
Proof.
  intros l emits_on Eme0 Hinst Hfresh Hcnt Hdone HS Hfeed0.
  split. { unfold ready. rewrite Eme0. simpl. f_equal. by eapply ForEach_check_fresh. }
  destruct (ForEach_step g0 self me0 l 0 (VInt 1) Eme0) as (g1 & me1 & Hem1 & Eme1 & Hnext1);
    [done|done|done|].
  exists g1. split; [exact Hem1|]. intros c1 g1' Hre1 Hfeed1.
  unfold refilled in Hre1. rewrite Eme1 in Hre1. simpl in Hre1.
  destruct (Hnext1 c1) as [Hat1 Hchk1].
  split. { unfold ready. by rewrite Hre1; simpl; rewrite Hchk1. }
  destruct (ForEach_step g1' self _ l 1 (VInt 2) Hre1 Hat1) as (g2 & me2 & Hem2 & Eme2 & Hnext2);
    [done|done|].
  exists g2. split; [exact Hem2|]. intros c2 g2' Hre2 Hfeed2.
  unfold refilled in Hre2. rewrite Eme2 in Hre2. simpl in Hre2.
  destruct (Hnext2 c2) as [Hat2 Hchk2].
  split. { unfold ready. by rewrite Hre2; simpl; rewrite Hchk2. }
  destruct (ForEach_step g2' self _ l 2 (VInt 3) Hre2 Hat2) as (g3 & me3 & Hem3 & Eme3 & Hnext3);
    [done|done|].
  exists g3. split; [exact Hem3|]. intros c3 g3' Hre3 Hun3.
  unfold refilled in Hre3. rewrite Eme3 in Hre3. simpl in Hre3.
  destruct (Hnext3 c3) as [Hat3 Hchk3].
  split. { unfold ready. by rewrite Hre3; simpl; rewrite Hchk3. }
  destruct (ForEach_finish g3' self _ l Hre3 Hat3 Hun3)
    as (g4 & me4 & Hem4 & Eme4 & Hf4 & Hc4 & Hd4 & Hin4).
  exists g4, me4. repeat (split; [done|]). intros i p Hp. rewrite Hin4 in Hp.
  destruct (odict_get _ i) as [q|]; [|done]. simpl in Hp. by injection Hp as <-.
Qed.

(** *** [Loop] *)

(** C1, on the code: the [Loop] node of [loop_graph], refilled with [C1],
    [C2], [C3] after its three [LoopBody] emissions. It is ready before
    each of the four cycles. The first three cycles store [S0], [C1] and
    [C2] into the body. In the fourth cycle [run] decrements the counter
    to 0 and writes [C3] to [LoopBody], and [notify], finding the counter
    at 0, stores instead the value of [Final] into the node after the
    loop; [Final] was never written, so that what arrives is [None] and
    not [C3], and the body still holds [C2]. The node ends fresh with
    counter 0. *)
Theorem Loop_three_iterations_trace (S0 C1 C2 C3 : pyobj) :
  let step := cycle Loop_run Loop_notify "loop" in
  let refill c := on_node "loop" (Node_setInput "Control" c true) in
  let g0 := loop_graph S0 in
  let g1 := (step g0).2 in
  let g1' := (refill C1 g1).2 in
  let g2 := (step g1').2 in
  let g2' := (refill C2 g2).2 in
  let g3 := (step g2').2 in
  let g3' := (refill C3 g3).2 in
  let g4 := (step g3').2 in
  (ready Loop_check g0 "loop" ∧ (step g0).1 = Ok ()
   ∧ port_state (get_input g1 "body" "Object") = Some (true, S0)
   ∧ port_state (get_input g1 "after" "Object") = Some (false, VNone))
  ∧ ((refill C1 g1).1 = Ok () ∧ ready Loop_check g1' "loop" ∧ (step g1').1 = Ok ()
     ∧ port_state (get_input g2 "body" "Object") = Some (true, C1)
     ∧ port_state (get_input g2 "after" "Object") = Some (false, VNone))
  ∧ ((refill C2 g2).1 = Ok () ∧ ready Loop_check g2' "loop" ∧ (step g2').1 = Ok ()
     ∧ port_state (get_input g3 "body" "Object") = Some (true, C2)
     ∧ port_state (get_input g3 "after" "Object") = Some (false, VNone))
  ∧ ((refill C3 g3).1 = Ok () ∧ ready Loop_check g3' "loop" ∧ (step g3').1 = Ok ()
     ∧ port_state (get_output g4 "loop" "LoopBody") = Some (true, C3)
     ∧ port_state (get_input g4 "body" "Object") = Some (true, C2)
     ∧ port_state (get_output g4 "loop" "Final") = Some (false, VNone)
     ∧ port_state (get_input g4 "after" "Object") = Some (true, VNone))
  ∧ (fresh <$> nodes g4 !! "loop" = Some true
     ∧ counter <$> nodes g4 !! "loop" = Some 0).
Proof.
  repeat split; vm_compute; reflexivity.
Qed.

End ControlNodes.

(** ** Declared ports and their defaults *)

Lemma odict_set_fresh {V} (d : odict V) (k : string) (v : V) :
  k ∉ odict_keys d → odict_set d k v = (d ++ [(k, v)])%list.
Proof.
  unfold odict_keys. induction d as [|[k' v'] d IH]; simpl; [done|].
  intros Hn. apply not_elem_of_cons in Hn as [Hne Hn].
  destruct (String.eqb_spec k' k); [congruence|]. by rewrite IH.
Qed.

Lemma odict_set_Forall {V} (P : string * V → Prop) (d : odict V) (k : string) (v : V) :
  Forall P d → P (k, v) → Forall P (odict_set d k v).
Proof.
  intros Hd Hkv. induction Hd as [|[k' v'] d Hx Hd IH]; simpl; [by repeat constructor|].
  destruct (String.eqb_spec k' k) as [->|Hne]; by constructor.
Qed.

Lemma odict_keys_set_cases {V} (d : odict V) (k : string) (v : V) :
  odict_keys (odict_set d k v)
  = if decide (k ∈ odict_keys d) then odict_keys d else (odict_keys d ++ [k])%list.
Proof.
  unfold odict_keys. induction d as [|[k' v'] d IH].
  - simpl. done.
  - cbn [odict_set]. destruct (String.eqb_spec k' k) as [->|Hne].
    + rewrite !fmap_cons. cbn [fst].
      destruct (decide (k ∈ k :: d.*1)) as [Hin|Hin]; [done|].
      exfalso. apply Hin. left.
    + rewrite !fmap_cons. cbn [fst]. rewrite IH.
      destruct (decide (k ∈ d.*1)) as [Hin|Hin];
        destruct (decide (k ∈ k' :: d.*1)) as [Hin'|Hin'].
      * done.
      * exfalso. apply Hin'. by right.
      * apply elem_of_cons in Hin' as [?|?]; congruence.
      * done.
Qed.

Lemma well_keyed_set (d : odict Info) (p : Info) :
  well_keyed d → well_keyed (odict_set d (name p) p).
Proof.
  intros [Hn Hd]. split; [by apply odict_set_Forall|].
  rewrite odict_keys_set_cases. case_decide; [done|].
  apply NoDup_app. split; [done|]. split; [|apply NoDup_singleton].
  intros k Hk Hk'. apply list_elem_of_singleton in Hk'. by subst k.
Qed.

Lemma MetaNode_new_inputs (n : string) (base : option NodeClass)
    (ins outs : list PortDecl) (tags : list string) :
  cls_inputs (MetaNode_new n base ins outs tags)
  = foldl declare_input (match base with Some b => cls_inputs b | None => [] end) ins.
Proof.
  unfold MetaNode_new.
  set (start := match base with Some b => _ | None => _ end).
  assert (∀ c ts, cls_inputs (foldl _addTag c ts) = cls_inputs c) as Htags.
  { intros c ts. revert c. induction ts as [|t ts IH]; intros c; [done|]. simpl. by rewrite IH. }
  assert (∀ c os, cls_inputs (foldl _addOutput c os) = cls_inputs c) as Houts.
  { intros c os. revert c. induction os as [|o os IH]; intros c; [done|]. simpl. by rewrite IH. }
  rewrite Htags, Houts.
  assert (cls_inputs start = match base with Some b => cls_inputs b | None => [] end) as <-.
  { unfold start. by destruct base. }
  generalize start. induction ins as [|d ins IH]; intros c; [done|]. simpl. by rewrite IH.
Qed.

Lemma declared_well_keyed (d : odict Info) (ins : list PortDecl) :
  well_keyed d → well_keyed (foldl declare_input d ins).
Proof.
  revert d. induction ins as [|decl ins IH]; intros d Hd; [done|]. simpl. apply IH.
  apply (well_keyed_set d (Info_of_decl decl) Hd).
Qed.

(** The port found under a name is the one of the last declaration of
    that name, and the inherited one when the body declares none. *)
Lemma declared_lookup (d : odict Info) (ins : list PortDecl) (nm : string) :
  odict_get (foldl declare_input d ins) nm
  = match last (filter (λ x, d_name x = nm) ins) with
    | Some decl => Some (Info_of_decl decl)
    | None => odict_get d nm
    end.
Proof.
  induction ins as [|decl ins IH] using rev_ind; [done|].
  rewrite foldl_app, filter_app. simpl. unfold declare_input at 1.
  rewrite filter_cons, filter_nil. destruct (decide (d_name decl = nm)) as [<-|Hne].
  - by rewrite last_snoc, odict_get_set_eq.
  - rewrite app_nil_r, odict_get_set_ne by done. apply IH.
Qed.

Lemma class_of_well_keyed (d : ClassDef) : well_keyed (cls_inputs (class_of d)).
Proof.
  revert d. fix IH 1. intros [n [b|] ins outs tags]; simpl; rewrite MetaNode_new_inputs;
    apply declared_well_keyed.
  - apply (IH b).
  - split; [constructor|]. constructor.
Qed.

(** Storing, under its name, something built from each port of a
    well-keyed dictionary is a map over the dictionary. *)
Lemma named_stores_map {W} (f : Info → W) (ports : odict Info) :
  well_keyed ports →
  foldl (λ acc p, odict_set acc (name p) (f p)) [] (odict_values ports)
  = prod_map id f <$> ports.
Proof.
  intros [Hn Hd]. unfold odict_values.
  change (prod_map id f <$> ports) with ([] ++ (prod_map id f <$> ports))%list.
  assert (∀ k, k ∈ odict_keys (@nil (string * W)) → k ∉ odict_keys ports) as Hdisj.
  { intros k Hk. by apply elem_of_nil in Hk. }
  revert Hdisj. generalize (@nil (string * W)).
  induction ports as [|[k p] ports IH]; intros acc Hdisj; simpl.
  - by rewrite app_nil_r.
  - apply Forall_cons in Hn as [Hk Hn]. simpl in Hk. subst k.
    unfold odict_keys in Hd. simpl in Hd. apply NoDup_cons in Hd as [Hnotin Hd].
    rewrite odict_set_fresh.
    + rewrite (IH Hn Hd).
      * by rewrite <- app_assoc.
      * intros k Hk Hk'. unfold odict_keys in Hk. rewrite fmap_app in Hk.
        apply elem_of_app in Hk as [Hk|Hk].
        -- apply (Hdisj k Hk). unfold odict_keys. simpl. by right.
        -- simpl in Hk. apply list_elem_of_singleton in Hk. subst k. done.
    + intros Hin. apply (Hdisj _ Hin). unfold odict_keys. simpl. left.
Qed.

(** On a well-keyed dictionary, the loop of [Node.__init__] copies every
    port under its key, in order, with the owner and the pin identifier
    filled in, and builds the pin of every port under the same key. *)
Lemma instantiate_ports_map (nodeID tag : string) (ports : odict Info) :
  well_keyed ports →
  instantiate_ports nodeID tag ports
  = (prod_map id (instance_port nodeID tag) <$> ports,
     prod_map id (instance_pin nodeID tag) <$> ports).
Proof.
  intros Hwk. unfold instantiate_ports.
  rewrite <- (named_stores_map (instance_port nodeID tag) ports Hwk).
  rewrite <- (named_stores_map (instance_pin nodeID tag) ports Hwk).
  generalize (@nil (string * Info)) (@nil (string * Pin)) (odict_values ports).
  intros a1 a2 vals. revert a1 a2.
  induction vals as [|p vals IH]; intros a1 a2; [done|]. cbn [foldl]. apply IH.
Qed.

Lemma class_of_lookup (d : ClassDef) (nm : string) :
  odict_get (cls_inputs (class_of d)) nm = Info_of_decl <$> declared_input d nm.
Proof.
  revert d. fix IH 1. intros [n b ins outs tags]. simpl.
  rewrite MetaNode_new_inputs, declared_lookup.
  destruct (last (filter (λ x, d_name x = nm) ins)); [done|].
  destruct b as [b|]; [apply (IH b)|done].
Qed.

Section Defaults.
Context `{PyExt}.

(** C10: an input that goes back to a declaration without default, in the
    body of its class or of a base, is found in every instance of the
    class with the empty string as its default, no value and the
    connected flag off. On such a port, and as long as it stays
    unconnected without a value, [isAvailable] is true and a read does
    not raise [InputNotAvailable]: it returns the empty string on an
    [object] port and otherwise calls the port type on the empty string,
    which raises [ValueError] for [int] and for [float], in either
    raising mode. *)
Theorem undeclared_default_is_empty_string (d : ClassDef) (nodeID nm : string)
    (ty : pyType) (hints : option (list string)) (sel : option (list pyobj))
    (isl : bool) :
  declared_input d nm = Some (addInput nm ty hints None sel isl) →
  ∃ n p, Node_init (class_of d) nodeID = Ok n
         ∧ odict_get (inputs n) nm = Some p
         ∧ default p = VStr "" ∧ valueSet p = false ∧ connected p = false
         ∧ varType p = ty
         ∧ ∀ q, default q = default p → varType q = ty →
                valueSet q = false → connected q = false →
                isAvailable q = true
                ∧ ∀ noException,
                    InputInfo_call q noException
                    = (if decide (ty = TObject) then Ok (VStr "")
                       else py_call ty (VStr ""))
                    ∧ (ty = TInt ∨ ty = TFloat →
                       InputInfo_call q noException = Raise ValueError).
Proof.
  intros Hdecl.
  pose proof (class_of_well_keyed d) as Hwk.
  pose proof (class_of_lookup d nm) as Hget. rewrite Hdecl in Hget. simpl in Hget.
  unfold Node_init. rewrite (instantiate_ports_map nodeID ":I" _ Hwk).
  destruct (instantiate_ports nodeID ":O" _) as [outs outPins].
  destruct (cls_inputs (class_of d)) as [|kp ports] eqn:Eports; [done|].
  rewrite fmap_cons. eexists _, _. split; [reflexivity|].
  cbn [inputs]. rewrite <- fmap_cons, odict_get_fmap, Hget. simpl.
  split; [reflexivity|]. repeat (split; [reflexivity|]).
  intros q Hdq Htq Hvq Hcq. simpl in Hdq.
  unfold isAvailable, InputInfo_call. rewrite Hvq, Hcq, Hdq, Htq. simpl.
  split; [done|]. intros noException. split.
  - destruct (decide (ty = TObject)) as [->|Hne]; [done|].
    by rewrite bool_decide_eq_false_2.
  - intros [-> | ->]; reflexivity.
Qed.

End Defaults.

(** ** The theorems at concrete inputs *)

(** A bool port whose default is set from the literal true. *)
Lemma setDefault_bool_literal_on_true :
  let p := Info_init "Switch" TBool None (VStr "") None None false in
  varType p = TBool
  ∧ ∃ p', @setDefault trivial_ext p (VStr "true") = (Ok (), p')
          ∧ default p' = VBool true
          ∧ @InputInfo_call trivial_ext p' false = Ok (VBool true).
Proof.
  split; [reflexivity|].
  destruct (@setDefault_bool_literal trivial_ext
              (Info_init "Switch" TBool None (VStr "") None None false) "true" eq_refl)
    as (p' & Hset & Hdef & _ & Hvs & Hc & Hread).
  exists p'. split; [exact Hset|]. split; [exact Hdef|].
  apply (Hread false); [by rewrite Hvs|by rewrite Hc].
Defined.

(** Writing twice to the [Object] input of a [DebugPrint] node. *)
Lemma InputInfo_set_twice_on_Object :
  let p := with_value true (VInt 1) (Info_init "Object" TObject None (VStr "") None None false) in
  valueSet p = true
  ∧ InputInfo_set p (VStr "2") false = (Raise InputAlreadySet, p)
  ∧ (InputInfo_set p (VStr "2") true).2 = with_value true (VStr "2") p.
Proof.
  split; [reflexivity|].
  destruct (InputInfo_set_twice
              (with_value true (VInt 1)
                 (Info_init "Object" TObject None (VStr "") None None false))
              (VStr "2") eq_refl) as (Hno & p' & Hyes & _ & _ & Hp').
  split; [exact Hno|]. rewrite Hyes. exact Hp'.
Defined.

(** [a] notifies [b], whose stale input is replaced by 5; the input of
    [a] is reset. *)
Lemma Node_notify_on_notify_graph :
  ∃ g', Node_notify "a" notify_graph = (Ok (), g')
        ∧ port_state (get_input notify_graph "b" "Object") = Some (true, VStr "stale")
        ∧ port_state (get_input g' "b" "Object") = Some (true, VInt 5)
        ∧ port_state (get_input g' "a" "Value") = Some (false, VNone).
Proof.
  destruct (Node_notify_pushes_and_resets notify_graph "a"
              (call_attr (AttrOutput "Integer") (VInt 5)
                 (given "Value" (VInt 5) (constructed (Node_init CreateInt_class "a")))).2)
    as (g' & Hrun & _ & Hlast & _ & Hself & _).
  - reflexivity.
  - repeat constructor. vm_compute. eauto.
  - repeat constructor. vm_compute. eauto.
  - exists g'. split; [exact Hrun|]. split; [reflexivity|]. split.
    + destruct (Hlast [] (mkConnection "a" "Integer" "b" "Object") []
                  (with_value true (VInt 5)
                     (instance_port "a" ":O"
                        (Info_of_decl (addOutput "Integer" TInt None None None false)))))
        as (p & Hp & Hp'); [reflexivity|constructor|done|reflexivity|].
      simpl in Hp'. unfold port_state. rewrite Hp'. reflexivity.
    + unfold port_state. rewrite Hself. reflexivity.
Defined.


(** The for-each node of [foreach_graph], refilled with [None] between
    its four cycles. *)
Lemma ForEach_three_elements_on_foreach_graph :
  let emits_on := emits (@ForEach_run trivial_ext) ForEach_notify in
  let step := cycle (@ForEach_run trivial_ext) ForEach_notify "each" in
  let refill g := (on_node "each" (Node_setInput "Control" VNone true) g).2 in
  let l := [VInt 1; VInt 2; VInt 3] in
  let g1 := (step foreach_graph).2 in
  let g2 := (step (refill g1)).2 in
  let g3 := (step (refill g2)).2 in
  let g4 := (step (refill g3)).2 in
  feeds_others foreach_graph "each" "ListElement"
  ∧ emits_on foreach_graph "each" "ListElement" (VInt 1) g1
  ∧ emits_on (refill g1) "each" "ListElement" (VInt 2) g2
  ∧ emits_on (refill g2) "each" "ListElement" (VInt 3) g3
  ∧ emits_on (refill g3) "each" "Final" (VList l) g4
  ∧ port_state (get_input g3 "body" "Object") = Some (true, VInt 3)
  ∧ port_state (get_input g4 "after" "Object") = Some (true, VList l)
  ∧ (λ n, (fresh n, counter n, done n)) <$> nodes g4 !! "each" = Some (true, 0, false).
Proof.
  intros emits_on step refill l g1 g2 g3 g4.
  assert (∀ g, connections g = connections foreach_graph →
               (∃ n, nodes g !! "body" = Some n
                     ∧ is_Some (odict_get (inputs n) "Object")) →
               feeds_others g "each" "ListElement") as Hfeeds.
  { intros g Hc (n & Hn & Hno). unfold feeds_others, targets_exist, getConnectionsOfOutput.
    rewrite Hc. split.
    - repeat constructor. unfold get_input. simpl. by rewrite Hn.
    - apply (bool_decide_unpack _). by vm_compute. }
  assert (feeds_others foreach_graph "each" "ListElement") as Hfeed0.
  { apply Hfeeds; [done|]. vm_compute. eauto. }
  split; [exact Hfeed0|].
  destruct (@ForEach_three_elements trivial_ext foreach_graph "each"
              (given "Start" (VList [VInt 1; VInt 2; VInt 3])
                 (constructed (ForEach_init "each"))))
    as (_ & g1x & Hem1 & Hnext1);
    [reflexivity|by split|reflexivity|reflexivity|reflexivity|reflexivity|exact Hfeed0|].
  assert (g1x = g1) as -> by (destruct Hem1 as [E _]; unfold g1, step; by rewrite E).
  split; [exact Hem1|].
  destruct (Hnext1 VNone (refill g1)) as (_ & g2x & Hem2 & Hnext2).
  { unfold refilled. vm_compute. reflexivity. }
  { apply Hfeeds; vm_compute; eauto. }
  assert (g2x = g2) as -> by (destruct Hem2 as [E _]; unfold g2, step; by rewrite E).
  split; [exact Hem2|].
  destruct (Hnext2 VNone (refill g2)) as (_ & g3x & Hem3 & Hnext3).
  { unfold refilled. vm_compute. reflexivity. }
  { apply Hfeeds; vm_compute; eauto. }
  assert (g3x = g3) as -> by (destruct Hem3 as [E _]; unfold g3, step; by rewrite E).
  split; [exact Hem3|].
  destruct (Hnext3 VNone (refill g3)) as (_ & g4x & me4 & Hem4 & _).
  { unfold refilled. vm_compute. reflexivity. }
  { split; [apply (bool_decide_unpack _); by vm_compute|]. repeat constructor. }
  assert (g4x = g4) as -> by (destruct Hem4 as [E _]; unfold g4, step; by rewrite E).
  split; [exact Hem4|].
  repeat split; vm_compute; reflexivity.
Defined.

(** The [Value] input of a [CreateInt] node: the node reports ready, and
    reading the input raises [ValueError]. *)
Lemma undeclared_default_on_CreateInt :
  declared_input CreateInt_def "Value" = Some (addInput "Value" TInt None None None false)
  ∧ ∃ n p, Node_init CreateInt_class "n" = Ok n
           ∧ odict_get (inputs n) "Value" = Some p
           ∧ default p = VStr ""
           ∧ Node_check n = true
           ∧ @InputInfo_call trivial_ext p false = Raise ValueError
           ∧ @InputInfo_call trivial_ext p true = Raise ValueError.
Proof.
  split; [reflexivity|].
  destruct (@undeclared_default_is_empty_string trivial_ext CreateInt_def "n" "Value" TInt
              None None false)
    as (n & p & Hinit & Hget & Hdef & Hvs & Hc & Hty & Hq); [reflexivity|].
  exists n, p. split; [exact Hinit|]. split; [exact Hget|]. split; [exact Hdef|].
  destruct (Hq p eq_refl Hty Hvs Hc) as [Hav Hread].
  split.
  - vm_compute in Hinit. injection Hinit as <-. reflexivity.
  - split; apply Hread; by left.
Defined.

(** * Further properties of the code *)

(** ** Class statements: what a class inherits *)

Lemma MetaNode_new_outputs (n : string) (base : option NodeClass)
    (ins outs : list PortDecl) (tags : list string) :
  cls_outputs (MetaNode_new n base ins outs tags)
  = foldl declare_input (match base with Some b => cls_outputs b | None => [] end) outs.
Proof.
  unfold MetaNode_new.
  set (start := match base with Some b => _ | None => _ end).
  assert (∀ c ts, cls_outputs (foldl _addTag c ts) = cls_outputs c) as Htags.
  { intros c ts. revert c. induction ts as [|t ts IH]; intros c; [done|]. simpl. by rewrite IH. }
  assert (∀ c ds, cls_outputs (foldl _addInput c ds) = cls_outputs c) as Hins.
  { intros c ds. revert c. induction ds as [|i ds IH]; intros c; [done|]. simpl. by rewrite IH. }
  rewrite Htags.
  assert (cls_outputs (foldl _addInput start ins)
          = match base with Some b => cls_outputs b | None => [] end) as <-.
  { rewrite Hins. unfold start. by destruct base. }
  generalize (foldl _addInput start ins).
  induction outs as [|d outs IH]; intros c; [done|]. simpl. by rewrite IH.
Qed.

Lemma MetaNode_new_tags (n : string) (base : option NodeClass)
    (ins outs : list PortDecl) (tags : list string) :
  cls_tags (MetaNode_new n base ins outs tags)
  = (match base with Some b => cls_tags b | None => [] end ++ tags)%list.
Proof.
  unfold MetaNode_new.
  set (start := match base with Some b => _ | None => _ end).
  assert (∀ c ds, cls_tags (foldl _addInput c ds) = cls_tags c) as Hins.
  { intros c ds. revert c. induction ds as [|i ds IH]; intros c; [done|]. simpl. by rewrite IH. }
  assert (∀ c os, cls_tags (foldl _addOutput c os) = cls_tags c) as Houts.
  { intros c os. revert c. induction os as [|o os IH]; intros c; [done|]. simpl. by rewrite IH. }
  assert (∀ c ts, cls_tags (foldl _addTag c ts) = (cls_tags c ++ ts)%list) as Htags.
  { intros c ts. revert c. induction ts as [|t ts IH]; intros c; simpl.
    - by rewrite app_nil_r.
    - rewrite IH. simpl. by rewrite <- app_assoc. }
  rewrite Htags, Houts, Hins. unfold start. by destruct base.
Qed.

Lemma MetaNode_new_name (n : string) (base : option NodeClass)
    (ins outs : list PortDecl) (tags : list string) :
  cls_name (MetaNode_new n base ins outs tags) = n.
Proof.
  unfold MetaNode_new.
  set (start := match base with Some b => _ | None => _ end).
  assert (cls_name start = n) as Hstart by (unfold start; by destruct base).
  assert (∀ c ds, cls_name (foldl _addInput c ds) = cls_name c) as Hins.
  { intros c ds. revert c. induction ds as [|i ds IH]; intros c; [done|]. simpl. by rewrite IH. }
  assert (∀ c os, cls_name (foldl _addOutput c os) = cls_name c) as Houts.
  { intros c os. revert c. induction os as [|o os IH]; intros c; [done|]. simpl. by rewrite IH. }
  assert (∀ c ts, cls_name (foldl _addTag c ts) = cls_name c) as Htags.
  { intros c ts. revert c. induction ts as [|t ts IH]; intros c; [done|]. simpl. by rewrite IH. }
  by rewrite Htags, Houts, Hins.
Qed.

(** Declarations keep the keys that are there, in place, and add new keys
    at the end. *)
Lemma declared_keys_prefix (d : odict Info) (ins : list PortDecl) :
  odict_keys d `prefix_of` odict_keys (foldl declare_input d ins).
Proof.
  revert d. induction ins as [|decl ins IH]; intros d; [done|]. simpl.
  etrans; [|apply IH]. unfold declare_input. rewrite odict_keys_set_cases.
  case_decide; [done|]. by apply prefix_app_r.
Qed.

(** X1: a derived class has the name of its statement, the tags of its
    base followed by its own, and the ports of its base under the same
    keys in the same order, followed by the keys it adds; an input or
    output the body does not declare again is the port of the base, and
    an input or output it declares is the port built from the last
    declaration of that name in the body. *)
Theorem derived_class_inherits (n : string) (b : ClassDef)
    (ins outs : list PortDecl) (tags : list string) :
  let c := class_of (class_def n (Some b) ins outs tags) in
  cls_name c = n
  ∧ cls_tags c = (cls_tags (class_of b) ++ tags)%list
  ∧ odict_keys (cls_inputs (class_of b)) `prefix_of` odict_keys (cls_inputs c)
  ∧ odict_keys (cls_outputs (class_of b)) `prefix_of` odict_keys (cls_outputs c)
  ∧ (∀ nm, Forall (λ x, d_name x ≠ nm) ins →
           odict_get (cls_inputs c) nm = odict_get (cls_inputs (class_of b)) nm)
  ∧ (∀ nm, Forall (λ x, d_name x ≠ nm) outs →
           odict_get (cls_outputs c) nm = odict_get (cls_outputs (class_of b)) nm)
  ∧ (∀ decl, last (filter (λ x, d_name x = d_name decl) ins) = Some decl →
             odict_get (cls_inputs c) (d_name decl) = Some (Info_of_decl decl))
  ∧ (∀ decl, last (filter (λ x, d_name x = d_name decl) outs) = Some decl →
             odict_get (cls_outputs c) (d_name decl) = Some (Info_of_decl decl)).
Proof.
  simpl. rewrite MetaNode_new_name, MetaNode_new_tags, MetaNode_new_inputs,
    MetaNode_new_outputs.
  assert (∀ nm (l : list PortDecl), Forall (λ x, d_name x ≠ nm) l →
            last (filter (λ x, d_name x = nm) l) = None) as Hnone.
  { intros nm l Hl. apply last_None. induction Hl as [|x l Hx _ IH]; [done|].
    by rewrite filter_cons, decide_False. }
  repeat split.
  - apply declared_keys_prefix.
  - apply declared_keys_prefix.
  - intros nm Hnm. by rewrite declared_lookup, (Hnone nm ins Hnm).
  - intros nm Hnm. by rewrite declared_lookup, (Hnone nm outs Hnm).
  - intros decl Hlast. by rewrite declared_lookup, Hlast.
  - intros decl Hlast. by rewrite declared_lookup, Hlast.
Qed.

(** ** Instances: what [Node.__init__] builds *)

Lemma class_of_outputs_well_keyed (d : ClassDef) : well_keyed (cls_outputs (class_of d)).
Proof.
  revert d. fix IH 1. intros [n [b|] ins outs tags]; simpl; rewrite MetaNode_new_outputs;
    apply declared_well_keyed.
  - apply (IH b).
  - split; [constructor|]. constructor.
Qed.

(** Every port of a class is as its declaration built it: without a
    value, unconnected and without an owner. *)
Lemma declared_Forall (P : Info → Prop) (d : odict Info) (ins : list PortDecl) :
  (∀ decl, P (Info_of_decl decl)) →
  Forall (λ kp, P kp.2) d → Forall (λ kp, P kp.2) (foldl declare_input d ins).
Proof.
  intros HP. revert d. induction ins as [|decl ins IH]; intros d Hd; [done|]. simpl.
  apply IH. unfold declare_input. apply odict_set_Forall; [done|]. apply HP.
Qed.

Lemma class_of_inputs_Forall (P : Info → Prop) (d : ClassDef) :
  (∀ decl, P (Info_of_decl decl)) → Forall (λ kp, P kp.2) (cls_inputs (class_of d)).
Proof.
  intros HP. revert d. fix IH 1. intros [n [b|] ins outs tags]; simpl;
    rewrite MetaNode_new_inputs; apply declared_Forall.
  - exact HP.
  - apply (IH b).
  - exact HP.
  - constructor.
Qed.

Lemma well_keyed_name (d : odict Info) (k : string) (p : Info) :
  well_keyed d → odict_get d k = Some p → name p = k.
Proof.
  intros [Hn _]. induction Hn as [|[k' p'] d Hk _ IH]; [done|]. simpl in *.
  destruct (String.eqb_spec k' k) as [->|_]; [by intros [= <-]|done].
Qed.

(** X2: creating an instance of a class fails with [AttributeError]
    exactly when the class has no input at all, its own or inherited;
    otherwise the instance carries the class name and the given ID, its
    flags and counter are cleared, and its ports are those of the class,
    key by key and in the same order, each a copy with the node as its
    owner and the identifier of its pin as its [ID], and nothing else
    changed; under the same keys the node holds one pin per port, made
    of that identifier, the port's name and the node. The identifier is
    the one [getInputID] (for an output, [getOutputID]) computes, and
    [getInputPin], [getOutputPin] find the pin. *)
Theorem Node_init_copies_class_ports (d : ClassDef) (nodeID : string) :
  let cls := class_of d in
  let port tag p :=
    with_pinID (Some (nodeID +:+ tag +:+ name p)) (with_owner (Some nodeID) p) in
  let pin tag p := mkPin (nodeID +:+ tag +:+ name p) (name p) nodeID in
  Node_init cls nodeID
  = match cls_inputs cls with
    | [] => Raise AttributeError
    | _ => Ok (mkNode (cls_name cls) nodeID
                      (prod_map id (port ":I") <$> cls_inputs cls)
                      (prod_map id (port ":O") <$> cls_outputs cls)
                      false 0 false
                      (prod_map id (pin ":I") <$> cls_inputs cls)
                      (prod_map id (pin ":O") <$> cls_outputs cls))
    end
  ∧ ∀ n, Node_init cls nodeID = Ok n →
      (∀ k p, odict_get (inputs n) k = Some p →
              pinID p = Some (getInputID n k)
              ∧ getInputPin n k = Ok (mkPin (getInputID n k) k nodeID))
      ∧ (∀ k p, odict_get (outputs n) k = Some p →
                pinID p = Some (getOutputID n k)
                ∧ getOutputPin n k = Ok (mkPin (getOutputID n k) k nodeID)).
Proof.
  intros cls port pin.
  pose proof (class_of_well_keyed d) as Hwi.
  pose proof (class_of_outputs_well_keyed d) as Hwo. fold cls in Hwi, Hwo.
  assert (Node_init cls nodeID
          = match cls_inputs cls with
            | [] => Raise AttributeError
            | _ => Ok (mkNode (cls_name cls) nodeID
                              (prod_map id (port ":I") <$> cls_inputs cls)
                              (prod_map id (port ":O") <$> cls_outputs cls)
                              false 0 false
                              (prod_map id (pin ":I") <$> cls_inputs cls)
                              (prod_map id (pin ":O") <$> cls_outputs cls))
            end) as Heq.
  { unfold Node_init.
    rewrite (instantiate_ports_map nodeID ":I" _ Hwi).
    rewrite (instantiate_ports_map nodeID ":O" _ Hwo).
    by destruct (cls_inputs cls). }
  split; [exact Heq|]. intros n Hn. rewrite Heq in Hn.
  destruct (cls_inputs cls) as [|kp ports] eqn:Ei; [done|]. rewrite <- Ei in Hn.
  injection Hn as <-. unfold getInputID, getOutputID, getInputPin, getOutputPin.
  cbn [ID inputs outputs inputPins outputPins]. rewrite <- Ei in Hwi. clear Ei.
  split; intros k p; rewrite !odict_get_fmap; intros Hp.
  - destruct (odict_get (cls_inputs cls) k) as [q|] eqn:Eq; [|done].
    injection Hp as <-. simpl. unfold pin.
    by rewrite (well_keyed_name _ _ _ Hwi Eq).
  - destruct (odict_get (cls_outputs cls) k) as [q|] eqn:Eq; [|done].
    injection Hp as <-. simpl. unfold pin.
    by rewrite (well_keyed_name _ _ _ Hwo Eq).
Qed.

(** X3: a node that has just been created is ready to run exactly when
    none of its inputs has [None] as its default; since a declaration
    without default gets the empty string, a class whose declarations
    give no [None] default yields instances that are ready at once. *)
Theorem Node_check_of_new_instance (d : ClassDef) (nodeID : string) (n : Node) :
  Node_init (class_of d) nodeID = Ok n →
  Node_check n = forallb (λ p, not_None (default p)) (odict_values (cls_inputs (class_of d)))
  ∧ (Node_check n = true ↔
     ∀ k p, odict_get (inputs n) k = Some p → default p ≠ VNone).
Proof.
  intros Hinit.
  pose proof (class_of_well_keyed d) as Hwk.
  unfold Node_init in Hinit. rewrite (instantiate_ports_map nodeID ":I" _ Hwk) in Hinit.
  destruct (instantiate_ports nodeID ":O" _) as [outs outPins].
  assert (inputs n = prod_map id (instance_port nodeID ":I") <$> cls_inputs (class_of d))
    as Hin.
  { destruct (cls_inputs (class_of d)); [done|]. by injection Hinit as <-. }
  clear Hinit.
  pose proof (class_of_inputs_Forall (λ p, valueSet p = false ∧ connected p = false) d
                (λ _, conj eq_refl eq_refl)) as Hfresh.
  assert (Node_check n
          = forallb (λ p, not_None (default p)) (odict_values (cls_inputs (class_of d)))) as Hc.
  { unfold Node_check. rewrite Hin. clear Hin Hwk.
    induction Hfresh as [|[k p] ports [Hv Hcn] _ IH]; [done|].
    simpl in *. rewrite <- IH. f_equal.
    unfold isAvailable. simpl. rewrite Hv, Hcn. by destruct (not_None (default p)). }
  split; [done|]. rewrite Hc. rewrite Hin. clear Hc Hin Hfresh.
  destruct Hwk as [_ Hnd]. rewrite forallb_forall. split.
  - intros Hall k p Hget. rewrite odict_get_fmap in Hget.
    destruct (odict_get (cls_inputs (class_of d)) k) as [q|] eqn:Hq; [|done].
    injection Hget as <-. simpl.
    assert (q ∈ odict_values (cls_inputs (class_of d))) as Hel.
    { clear Hnd Hall. revert Hq. induction (cls_inputs (class_of d)) as [|[k' p'] l IH];
        [done|]. simpl. destruct (String.eqb k' k).
      - intros [= ->]. left.
      - intros Hq. right. by apply IH. }
    apply list_elem_of_In in Hel. specialize (Hall q Hel).
    intros Hnone. rewrite Hnone in Hall. done.
  - intros Hall q Hel. apply list_elem_of_In in Hel.
    assert (∃ k, odict_get (cls_inputs (class_of d)) k = Some q) as [k Hk].
    { clear Hall. revert Hnd Hel. induction (cls_inputs (class_of d)) as [|[k' p'] l IH];
        intros Hnd Hel.
      - by apply elem_of_nil in Hel.
      - unfold odict_values in Hel. simpl in Hel. unfold odict_keys in Hnd. simpl in Hnd.
        apply NoDup_cons in Hnd as [Hk' Hnd].
        apply elem_of_cons in Hel as [->|Hel].
        + exists k'. simpl. by rewrite String.eqb_refl.
        + destruct (IH Hnd Hel) as [k Hk]. exists k. simpl.
          destruct (String.eqb k' k) eqn:E; [|done].
          apply String.eqb_eq in E. subst k'. exfalso. apply Hk'.
          clear -Hk. induction l as [|[k2 p2] l IH]; [done|]. simpl in *.
          destruct (String.eqb k2 k) eqn:E.
          * apply String.eqb_eq in E. subst. left.
          * right. by apply IH. }
    specialize (Hall k (instance_port nodeID ":I" q)). rewrite odict_get_fmap, Hk in Hall.
    specialize (Hall eq_refl). simpl in Hall. by destruct (default q).
Qed.

(** ** Ports: defaults, availability and stored values *)

Section PortFacts.
Context `{PyExt}.

Lemma with_default_twice (a b : pyobj) (p : Info) :
  with_default a (with_default b p) = with_default a p.
Proof. by destruct p. Qed.

Lemma with_default_same (p : Info) : with_default (default p) p = p.
Proof. by destruct p. Qed.

Local Ltac sd_fin :=
  simpl; rewrite ?with_default_twice, ?with_default_same;
  repeat split; try done; try (intros [?|?]; done); try (intros [? ?]; done);
  try (intros; congruence).

(** X4: [setDefault] touches nothing but the default. On an [object]
    port and on a port of a [Type] subclass the value is stored as
    given. On the other ports the type is called on the value: what it
    returns becomes the default (on a bool port the default is then set
    again, from the value itself); a [ValueError] of the call never
    reaches the caller, the default is then the empty string; every
    other exception of the call reaches the caller ([None] given to an
    int port raises [TypeError]) and leaves the port as it was. On a
    bool port a value that is not a string is stored as given, whatever
    [bool] made of it. *)
Theorem setDefault_frame (p : Info) (v : pyobj) :
  let converting := varType p ≠ TObject ∧ issubclass_Type (varType p) = false in
  (setDefault p v).2 = with_default (default (setDefault p v).2) p
  ∧ (setDefault p v).1 ≠ Raise ValueError
  ∧ ((setDefault p v).1 ≠ Ok () → (setDefault p v).2 = p)
  ∧ (varType p = TObject ∨ issubclass_Type (varType p) = true →
     setDefault p v = (Ok (), with_default v p))
  ∧ (varType p = TInt ∨ varType p = TFloat →
     py_call (varType p) v = Raise ValueError →
     setDefault p v = (Ok (), with_default (VStr "") p))
  ∧ (varType p = TBool → (∀ s, v ≠ VStr s) →
     setDefault p v = (Ok (), with_default v p))
  ∧ (converting → ∀ e, py_call (varType p) v = Raise e → e ≠ ValueError →
     setDefault p v = (Raise e, p))
  ∧ (converting → varType p ≠ TBool → ∀ d, py_call (varType p) v = Ok d →
     setDefault p v = (Ok (), with_default d p))
  ∧ (varType p = TInt → setDefault p VNone = (Raise TypeError, p)).
Proof.
  intros converting. subst converting. unfold setDefault.
  destruct (varType p) as [| | | | |n] eqn:Et; simpl.
  - sd_fin.
  - unfold py_bool.
    assert ((∀ s, v ≠ VStr s) ∨ ∃ s, v = VStr s) as [Hs|[s ->]].
    { destruct v; eauto. }
    + destruct v as [| | | |s|]; try (by destruct (Hs s)); sd_fin.
    + simpl. destruct (String.eqb (upper s) "TRUE"); sd_fin;
        intros _ Hs; by destruct (Hs s).
  - destruct (py_int v) as [d|e] eqn:Ei; simpl; [sd_fin|]. destruct e; sd_fin.
  - destruct (py_float v) as [d|e] eqn:Ei; simpl; [sd_fin|]. destruct e; sd_fin.
  - sd_fin.
  - sd_fin.
Qed.

Lemma int_of_str_cases (s : string) :
  (∃ z, int_of_str s = Ok z) ∨ int_of_str s = Raise ValueError.
Proof. unfold int_of_str. repeat case_match; simpl; eauto. Qed.

Lemma py_call_not_unavailable (t : pyType) (v : pyobj) :
  issubclass_Type t = false → py_call t v ≠ Raise InputNotAvailable.
Proof.
  destruct t; simpl; try done; intros _.
  - destruct v as [|b|z|f|s|l]; simpl; try done.
    + unfold int_of_float. by destruct (Prim2SF f).
    + by destruct (int_of_str_cases s) as [[z ->]| ->].
  - destruct v as [|b|z|f|s|l]; simpl; try done.
    + unfold float_of_int. by destruct (binary_normalize prec emax z 0 false).
    + destruct (strip s); [done|]. by destruct (float_of_literal _).
Qed.

Lemma result_map_not_unavailable {A B} (f : A → result B) (xs : list A) :
  (∀ x, f x ≠ Raise InputNotAvailable) → result_map f xs ≠ Raise InputNotAvailable.
Proof.
  intros Hf. induction xs as [|x xs IH]; simpl; [done|].
  specialize (Hf x). destruct (f x) as [y|e]; simpl; [|congruence].
  destruct (result_map f xs) as [ys|e]; simpl; [done|congruence].
Qed.

(** X5: on a port whose type is not a [Type] subclass, [isAvailable]
    answers false exactly when a read raises [InputNotAvailable], and in
    that case the read that may not raise returns [None]; whatever else a
    read raises comes from the conversion of an available value. *)
Theorem isAvailable_false_iff_read_raises (p : Info) :
  isinstance_MetaType (varType p) = false →
  (isAvailable p = false ↔ InputInfo_call p false = Raise InputNotAvailable)
  ∧ (isAvailable p = false → InputInfo_call p true = Ok VNone).
Proof.
  intros Ht.
  assert (issubclass_Type (varType p) = false) as Ht' by (by destruct (varType p)).
  unfold isAvailable, InputInfo_call. rewrite Ht.
  destruct (valueSet p).
  - split; [|done]. split; [done|]. intros Hr. exfalso.
    destruct (bool_decide (varType p = TObject)); simpl in Hr; [done|].
    destruct (isList p).
    + destruct (py_iter (value p)) as [xs|e] eqn:Ei; simpl in Hr.
      * pose proof (result_map_not_unavailable (py_call (varType p)) xs
                      (λ x, py_call_not_unavailable _ x Ht')) as Hm.
        destruct (result_map (py_call (varType p)) xs); simpl in Hr; [done|congruence].
      * destruct (value p); simpl in Ei; congruence.
    + by apply (py_call_not_unavailable _ _ Ht') in Hr.
  - destruct (not_None (default p) && negb (connected p)).
    + split; [|done]. split; [done|]. intros Hr. exfalso.
      destruct (bool_decide (varType p = TObject)); simpl in Hr; [done|].
      by apply (py_call_not_unavailable _ _ Ht') in Hr.
    + done.
Qed.

Lemma py_call_of_type (t : pyType) (v : pyobj) :
  t ≠ TObject → value_of_type t v = true → py_call t v = Ok v.
Proof. destruct t, v; simpl; done. Qed.

(** X6: a value stored in an input that is free, or stored with
    override, is what every later read returns when it already has the
    type of the port, element by element on a list port; the default and
    the connected flag no longer matter, and the input is available. *)
Theorem set_then_read (p : Info) (v : pyobj) (override : bool) :
  valueSet p = false ∨ override = true →
  fits p v = true →
  ∃ p', InputInfo_set p v override = (Ok (), p')
        ∧ isAvailable p' = true
        ∧ ∀ d c noException,
            InputInfo_call (with_connected c (with_default d p')) noException = Ok v.
Proof.
  intros Hfree Hfit. exists (with_value true v p).
  split; [|split; [done|]].
  - unfold InputInfo_set. destruct Hfree as [-> | ->]; [done|by rewrite andb_false_r].
  - intros d c ne. unfold InputInfo_call, fits in *. simpl.
    destruct (varType p) as [| | | | |n] eqn:Et; simpl in *; try done;
      destruct (isList p); simpl in *;
      try (destruct v; simpl in *; done);
      destruct v as [| | | | |l]; try done; simpl;
      match goal with
      | |- context [result_map ?f l] => assert (result_map f l = Ok l) as ->; [|done]
      end;
      (induction l as [|x l IH]; [done|]; simpl in *; try done;
       apply andb_true_iff in Hfit as [Hx Hl];
       rewrite (IH Hl); by destruct x).
Qed.

End PortFacts.

(** ** Nodes: storing, notifying, waiting *)

(** X7: [setInput] on a name that is no input of the node raises
    [KeyError]; on an input that holds a value it raises
    [InputAlreadySet] unless told to override; in both cases the node is
    as before. Otherwise the named input holds the value with its set
    flag on, in the place it had, and every other input, the outputs and
    the state of the node are untouched. *)
Theorem Node_setInput_cases (nd : Node) (k : string) (v : pyobj) (override : bool) :
  match odict_get (inputs nd) k with
  | None => Node_setInput k v override nd = (Raise KeyError, nd)
  | Some p =>
      if valueSet p && negb override
      then Node_setInput k v override nd = (Raise InputAlreadySet, nd)
      else ∃ nd', Node_setInput k v override nd = (Ok (), nd')
                  ∧ odict_get (inputs nd') k = Some (with_value true v p)
                  ∧ (∀ k', k' ≠ k → odict_get (inputs nd') k' = odict_get (inputs nd) k')
                  ∧ odict_keys (inputs nd') = odict_keys (inputs nd)
                  ∧ with_inputs [] nd' = with_inputs [] nd
  end.
Proof.
  unfold Node_setInput. rewrite se_bind_unfold, se_get_unfold, se_bind_unfold.
  unfold odict_item. destruct (odict_get (inputs nd) k) as [p|] eqn:E; [|done].
  rewrite se_ret_unfold. unfold InputInfo_set.
  destruct (valueSet p && negb override); [done|].
  rewrite se_modify_unfold. eexists. split; [reflexivity|]. simpl.
  split; [apply odict_get_set_eq|]. split; [|split; [|done]].
  - intros k' Hk'. by apply odict_get_set_ne.
  - apply odict_keys_set. eauto.
Qed.

(** The graph [Node.notify] leaves. *)
Lemma Node_notify_ok (g : Graph) (self : string) (me : Node) :
  nodes g !! self = Some me →
  outputs_exist (outputs me) (getConnectionsFrom g self) →
  targets_exist g (getConnectionsFrom g self) →
  let cons := getConnectionsFrom g self in
  let me1 := node_pushes true (outputs me) self cons me in
  Node_notify self g
  = (Ok (), with_nodes (<[self := with_inputs (prod_map id reset <$> inputs me1) me1]>
                          (nodes (push_all true (outputs me) cons g))) g).
Proof.
  intros Eme Hout Hex cons me1. unfold Node_notify. se_step.
  rewrite (propagate_spec self true true (outputs me)); [|by eauto|done|done|done].
  fold cons.
  assert (nodes (push_all true (outputs me) cons g) !! self = Some me1) as E1.
  { by rewrite push_all_lookup, Eme. }
  by rewrite (on_node_ok _ _ _ _ _ _ E1 (se_modify_unfold _ _)).
Qed.

(** X8: after [Node.notify] the notifying node is not ready: none of its
    inputs is available, not even one that was unconnected with a
    default, because the reset clears the default as well; [check]
    answers false as soon as the node has an input. Storing a value into
    every input makes it ready again. *)
Theorem Node_notify_leaves_node_unready (g : Graph) (self : string) (me : Node) :
  nodes g !! self = Some me →
  outputs_exist (outputs me) (getConnectionsFrom g self) →
  targets_exist g (getConnectionsFrom g self) →
  ∃ g' me', Node_notify self g = (Ok (), g')
            ∧ nodes g' !! self = Some me'
            ∧ odict_keys (inputs me') = odict_keys (inputs me)
            ∧ Forall (λ p, isAvailable p = false ∧ default p = VNone)
                     (odict_values (inputs me'))
            ∧ (inputs me ≠ [] → Node_check me' = false)
            ∧ ∀ f : Info → pyobj,
                Node_check (with_inputs
                              (prod_map id (λ p, with_value true (f p) p) <$> inputs me') me')
                = true.
Proof.
  intros Eme Hout Hex. rewrite (Node_notify_ok g self me Eme Hout Hex).
  set (me1 := node_pushes true (outputs me) self (getConnectionsFrom g self) me).
  pose proof (node_pushes_rest true (outputs me) self (getConnectionsFrom g self) me)
    as [_ Hkeys]. fold me1 in Hkeys.
  eexists _, _. split; [reflexivity|]. split; [apply lookup_insert_eq|].
  cbn [inputs with_inputs]. split; [|split; [|split]].
  - rewrite <- Hkeys. unfold odict_keys. rewrite <- list_fmap_compose.
    apply list_fmap_ext. by intros ? [].
  - unfold odict_values. rewrite <- list_fmap_compose. apply Forall_fmap.
    apply Forall_forall. by intros [k p] _.
  - intros Hne. unfold Node_check. simpl.
    destruct (inputs me1) as [|[k p] ps] eqn:E1; [|done].
    destruct (inputs me); [done|discriminate].
  - intros f. unfold Node_check. simpl. unfold odict_values.
    rewrite <- !list_fmap_compose. apply forallb_forall. intros q Hq.
    apply list_elem_of_In, list_elem_of_fmap in Hq as ([k p] & -> & _). done.
Qed.

(** X9: the [notify] of [WaitAll] does what [Node.notify] does, on every
    graph and whether it succeeds or raises: the inputs were reset by the
    inherited method already, and the second reset changes nothing. *)
Theorem WaitAll_notify_is_Node_notify (g : Graph) (self : string) :
  WaitAll_notify self g = Node_notify self g.
Proof.
  unfold WaitAll_notify. rewrite se_bind_unfold.
  unfold Node_notify. rewrite !se_bind_unfold, se_get_unfold. cbv beta iota.
  rewrite !se_bind_unfold.
  destruct (propagate self true true (getConnectionsFrom g self) g) as [[[]|e] g1]; [|done].
  unfold on_node, se_modify. destruct (nodes g1 !! self) as [me|] eqn:E; [|done].
  cbn [nodes with_nodes]. rewrite lookup_insert_eq.
  unfold with_nodes. cbn [nodes connections inputs with_inputs]. rewrite insert_insert_eq.
  do 3 f_equal. unfold with_inputs. cbn. f_equal.
  rewrite <- list_fmap_compose. apply list_fmap_ext. by intros ? [].
Qed.

(** ** Running the methods of a node whose ports are known *)

Ltac se_run :=
  repeat (first
    [ rewrite se_bind_unfold
    | rewrite se_ret_unfold
    | rewrite se_get_unfold
    | rewrite se_modify_unfold
    | rewrite try_IndexError_unfold
    | rewrite se_lift_unfold
    | rewrite as_int_ok
    | match goal with
      | Hr : py_getitem _ _ = _ |- _ => rewrite Hr
      end
    | erewrite read_attr_input by first [reflexivity | eassumption]
    | erewrite getattr_output by reflexivity
    | erewrite call_attr_output by reflexivity
    | erewrite reset_input_ok by reflexivity
    | match goal with
      | Hr : InputInfo_call _ _ = _ |- _ => rewrite Hr
      | Hr : py_truthy _ = _ |- _ => rewrite Hr
      end ];
    cbn [fresh counter done inputs outputs className ID
         with_fresh with_counter with_done with_inputs with_outputs]).

Ltac ge_run :=
  repeat (first
    [ rewrite se_bind_unfold
    | rewrite se_ret_unfold
    | rewrite se_get_unfold
    | rewrite se_modify_unfold
    | rewrite get_node_insert
    | erewrite odict_item_ok by reflexivity
    | erewrite on_node_insert by (se_run; reflexivity)
    | match goal with
      | Hr : py_truthy _ = _ |- _ => rewrite Hr
      end ];
    cbn [fresh counter done inputs outputs className ID
         with_fresh with_counter with_done with_inputs with_outputs]).

Section Waiting.
Context `{PyExt}.

(** X10: a [WaitAny] node reports ready exactly when one of its two
    inputs holds a value that was stored (a default does not count), and
    otherwise answers [None]; its [run] writes to [out] the stored value
    of each such input in turn, unconverted, so that [out] ends with the
    value of input 2 when that is set and with that of input 1 otherwise,
    and is left alone when neither is; the inputs are not touched. *)
Theorem WaitAny_forwards_set_inputs (me : Node) (p1 p2 o : Info) :
  instance_of WaitAny_class me →
  odict_get (inputs me) "1" = Some p1 → odict_get (inputs me) "2" = Some p2 →
  odict_get (outputs me) "out" = Some o →
  WaitAny_check me = (if valueSet p1 || valueSet p2 then VBool true else VNone)
  ∧ WaitAny_run me
    = (Ok (), with_outputs
                [("out", if valueSet p2 then with_value true (value p2) o
                         else if valueSet p1 then with_value true (value p1) o
                         else o)] me).
Proof.
  intros Hinst H1 H2 Ho. destruct me as [cn id ins outs fr cnt dn ipins opins].
  class_ports Hinst. simpl in H1, H2, Ho.
  injection H1 as ->. injection H2 as ->. injection Ho as ->.
  split; [unfold WaitAny_check; simpl; by rewrite orb_false_r|].
  unfold WaitAny_run, Node_run. se_run. cbn [odict_values fmap list_fmap snd se_for].
  destruct (valueSet p1), (valueSet p2); se_run;
    cbn [odict_set String.eqb Ascii.eqb Bool.eqb]; se_run;
    cbn [odict_set String.eqb Ascii.eqb Bool.eqb]; reflexivity.
Qed.

End Waiting.

(** ** The nodes that hand one input on *)

Section Forwarding.
Context `{PyExt}.

Lemma forwarder_run (run : SE Node unit) (i o : string) (me : Node) (p out : Info) :
  (run, i, o) ∈ forwarders →
  odict_get (inputs me) i = Some p →
  odict_get (inputs me) o = None → odict_get (outputs me) o = Some out →
  match InputInfo_call p false with
  | Ok v => run me = (Ok (), with_outputs (odict_set (outputs me) o (with_value true v out)) me)
  | Raise KeyError => True
  | Raise e => run me = (Raise e, me)
  end.
Proof.
  intros Hrun Hp Hno Ho. unfold forwarders in Hrun.
  assert (∀ e, InputInfo_call p false = Raise e → e ≠ KeyError →
               read_attr i me = (Raise e, me)) as Hraise.
  { intros e He Hne. unfold read_attr, Node_getattr. se_step. rewrite Hp, He.
    by destruct e. }
  assert (Node_getattr o me = (Ok (AttrOutput o), me)) as Hget.
  { by apply (getattr_output me o out). }
  assert (∀ v, call_attr (AttrOutput o) v me
               = (Ok (), with_outputs (odict_set (outputs me) o (with_value true v out)) me))
    as Hcall.
  { intros v. by apply call_attr_output. }
  destruct (InputInfo_call p false) as [v|e] eqn:Hread.
  - pose proof (read_attr_input me i p v Hp Hread) as Hr.
    repeat (apply elem_of_cons in Hrun as [[= -> -> ->]|Hrun]);
      [..|by apply elem_of_nil in Hrun];
      unfold CreateBool_run, CreateInt_run, CreateString_run, Test_run, DebugPrint_run,
        forward, Node_run;
      repeat first [rewrite se_bind_unfold | rewrite se_ret_unfold | rewrite Hget
                   | rewrite Hr | rewrite Hcall]; reflexivity.
  - assert (e = KeyError ∨ e ≠ KeyError) as [->|Hne] by (destruct e; eauto; by right).
    { done. }
    specialize (Hraise e eq_refl Hne).
    assert (run me = (Raise e, me)) as ->; [|by destruct e].
    repeat (apply elem_of_cons in Hrun as [[= -> -> ->]|Hrun]);
      [..|by apply elem_of_nil in Hrun];
      unfold CreateBool_run, CreateInt_run, CreateString_run, Test_run, DebugPrint_run,
        forward, Node_run;
      repeat first [rewrite se_bind_unfold | rewrite se_ret_unfold | rewrite Hget
                   | rewrite Hraise]; reflexivity.
Qed.

Lemma with_nodes_same (g : Graph) (m : string) (nd : Node) :
  nodes g !! m = Some nd → with_nodes (<[m := nd]> (nodes g)) g = g.
Proof. intros E. destruct g as [ns cs]. unfold with_nodes. simpl in *. by rewrite insert_id. Qed.

(** X11: one cycle of [CreateBool], [CreateInt], [CreateString], [Test]
    or [DebugPrint] whose input reads as [v]: [v] is written to the
    output and stored, with override, into every input a connection from
    the node ends in; the other inputs of other nodes are as before, the
    node's own inputs are reset. If the read raises instead (a missing
    value, or a text that does not convert), the cycle raises the same
    exception and the graph is as before: nothing was handed on and
    nothing reset. *)
Theorem forwarder_cycle (run : SE Node unit) (i o : string) (g : Graph) (self : string)
    (me : Node) (p out : Info) :
  (run, i, o) ∈ forwarders →
  nodes g !! self = Some me →
  odict_get (inputs me) i = Some p →
  odict_get (inputs me) o = None → odict_get (outputs me) o = Some out →
  Forall (λ c, outputName c = o) (getConnectionsFrom g self) →
  targets_exist g (getConnectionsFrom g self) →
  (∀ v, InputInfo_call p false = Ok v →
     ∃ g1, cycle run Node_notify self g = (Ok (), g1)
           ∧ connections g1 = connections g
           ∧ get_output g1 self o = Some (with_value true v out)
           ∧ (∀ o', o' ≠ o → get_output g1 self o' = get_output g self o')
           ∧ (∀ k, get_input g1 self k = reset <$> get_input g self k)
           ∧ ∀ m k, m ≠ self →
               get_input g1 m k
               = if decide ((m, k) ∈ target <$> getConnectionsFrom g self)
                 then with_value true v <$> get_input g m k
                 else get_input g m k)
  ∧ (∀ e, InputInfo_call p false = Raise e → e ≠ KeyError →
          cycle run Node_notify self g = (Raise e, g)).
Proof.
  intros Hrun Eme Hp Hno Ho Hcons Hex.
  pose proof (forwarder_run run i o me p out Hrun Hp Hno Ho) as Hr.
  split.
  - intros v Hv. rewrite Hv in Hr.
    unfold cycle. rewrite se_bind_unfold, (on_node_ok _ _ _ _ _ _ Eme Hr). cbv beta iota.
    set (outs := odict_set (outputs me) o (with_value true v out)).
    set (me_r := with_outputs outs me).
    set (g_r := with_nodes (<[self := me_r]> (nodes g)) g).
    set (cons := getConnectionsFrom g self).
    assert (∀ m k, get_input g_r m k = get_input g m k) as Hext.
    { intros m k. by apply (get_input_same_inputs g self me me_r). }
    assert (nodes g_r !! self = Some me_r) as Er by apply lookup_insert_eq.
    assert (odict_get outs o = Some (with_value true v out)) as Eo
      by apply odict_get_set_eq.
    rewrite (Node_notify_ok g_r self me_r Er); cycle 1.
    { eapply Forall_impl; [exact Hcons|]. intros c ->. simpl. rewrite Eo. eauto. }
    { by apply (targets_exist_ext g). }
    change (getConnectionsFrom g_r self) with cons. cbn [outputs me_r with_outputs].
    eexists. split; [reflexivity|]. split; [done|].
    assert (∀ nd, outputs (node_pushes true outs self cons nd) = outputs nd) as Hsame.
    { intros nd. pose proof (node_pushes_rest true outs self cons nd) as [Hs _].
      by apply (f_equal outputs) in Hs. }
    split; [|split; [|split]].
    + unfold get_output. simpl. rewrite lookup_insert_eq. simpl.
      by rewrite Hsame.
    + intros o' Ho'. unfold get_output. simpl. rewrite lookup_insert_eq, Eme. simpl.
      rewrite Hsame. simpl. unfold outs. by rewrite odict_get_set_ne.
    + intros k. unfold get_input. simpl. rewrite lookup_insert_eq, Eme. simpl.
      rewrite odict_get_fmap, node_pushes_inputs. simpl.
      destruct (last_value _ _ _ _ _); [|done]. by destruct (odict_get (inputs me) k).
    + intros m k Hm. transitivity (get_input (push_all true outs cons g_r) m k).
      { unfold get_input. cbn [nodes with_nodes]. by rewrite lookup_insert_ne. }
      rewrite push_all_input, Hext.
      rewrite (last_value_one_output true outs o (with_value true v out)); [|done|done].
      by case_decide.
  - intros e He Hne. rewrite He in Hr.
    assert (run me = (Raise e, me)) as Hr' by (by destruct e).
    unfold cycle. rewrite se_bind_unfold, (on_node_ok _ _ _ _ _ _ Eme Hr'). cbv beta iota.
    by rewrite with_nodes_same.
Qed.

End Forwarding.

(** ** What the stores and resets keep of a node *)

Lemma node_pushes_outputs (ud : bool) (outs : odict Info) (m : string)
    (cons : list Connection) (nd : Node) :
  outputs (node_pushes ud outs m cons nd) = outputs nd
  ∧ fresh (node_pushes ud outs m cons nd) = fresh nd
  ∧ counter (node_pushes ud outs m cons nd) = counter nd
  ∧ done (node_pushes ud outs m cons nd) = done nd.
Proof.
  pose proof (node_pushes_rest ud outs m cons nd) as [Hr _].
  repeat split.
  - by apply (f_equal outputs) in Hr.
  - by apply (f_equal fresh) in Hr.
  - by apply (f_equal counter) in Hr.
  - by apply (f_equal done) in Hr.
Qed.

Lemma node_reset_rest (k : string) (nd : Node) :
  with_inputs [] (node_reset k nd) = with_inputs [] nd.
Proof. unfold node_reset. by destruct (odict_get (inputs nd) k). Qed.

Lemma node_reset_inputs (k k' : string) (nd : Node) :
  odict_get (inputs (node_reset k nd)) k'
  = if decide (k = k') then reset <$> odict_get (inputs nd) k'
    else odict_get (inputs nd) k'.
Proof.
  unfold node_reset. destruct (odict_get (inputs nd) k) as [p|] eqn:E; simpl.
  - rewrite odict_get_set. case_decide; [subst; by rewrite E|done].
  - case_decide; [subst; by rewrite E|done].
Qed.

(** Replacing a port by one of the same name, type and list flag leaves
    the shape of the dictionary as it was. *)
Lemma shape_set (d : odict Info) (k : string) (p q : Info) :
  odict_get d k = Some p → port_shape (k, q) = port_shape (k, p) →
  port_shape <$> odict_set d k q = port_shape <$> d.
Proof.
  intros E Hs. revert E. induction d as [|[k0 p0] d IH]; intros E; [done|].
  cbn [odict_get odict_set] in *.
  destruct (String.eqb_spec k0 k) as [->|Hne].
  - injection E as ->. rewrite !fmap_cons. by rewrite Hs.
  - rewrite !fmap_cons. f_equal. by apply IH.
Qed.

Lemma node_store_shape (i : string) (v : pyobj) (nd : Node) :
  port_shape <$> inputs (node_store i v nd) = port_shape <$> inputs nd.
Proof.
  unfold node_store. destruct (odict_get (inputs nd) i) as [p|] eqn:E; [|done].
  simpl. by apply (shape_set _ _ p).
Qed.

Lemma node_reset_shape (k : string) (nd : Node) :
  port_shape <$> inputs (node_reset k nd) = port_shape <$> inputs nd.
Proof.
  unfold node_reset. destruct (odict_get (inputs nd) k) as [p|] eqn:E; [|done].
  simpl. by apply (shape_set _ _ p).
Qed.

Lemma node_pushes_shape (ud : bool) (outs : odict Info) (m : string)
    (cons : list Connection) (nd : Node) :
  port_shape <$> inputs (node_pushes ud outs m cons nd) = port_shape <$> inputs nd.
Proof.
  induction cons as [|c cons IH] using rev_ind; [done|].
  rewrite node_pushes_snoc. simpl. case_decide; [|done].
  destruct (odict_get outs (outputName c)); [|done]. by rewrite node_store_shape.
Qed.

Lemma reset_but_Iterations_shape (nd : Node) :
  port_shape <$> inputs (reset_but_Iterations nd) = port_shape <$> inputs nd.
Proof.
  unfold reset_but_Iterations. simpl. rewrite <- list_fmap_compose.
  apply list_fmap_ext. intros _ [k p] _. unfold port_shape. simpl.
  by destruct (String.eqb (name p) "Iterations").
Qed.

(** A cycle that leaves the graph described by [after_cycle], with the
    value [x] written to the output the connections leave, emits [x]. *)
Lemma emits_of_after_cycle (run : SE Node unit) (notify : string → SE Graph unit)
    (g g1 : Graph) (self o : string) (x : pyobj) (me me1 : Node) (out : Info) :
  cycle run notify self g = (Ok (), g1) →
  nodes g !! self = Some me → odict_get (outputs me) o = Some out →
  after_cycle g self o (odict_set (outputs me) o (with_value true x out)) me1 g1 →
  outputs me1 = odict_set (outputs me) o (with_value true x out) →
  emits run notify g self o x g1.
Proof.
  intros Hcyc Eme Eo Hafter Houts.
  pose proof Hafter as (Hcons & Eme1 & _).
  split; [done|]. split; [done|]. unfold get_output. rewrite Eme1, Eme. simpl.
  rewrite Houts. split; [|split].
  - by rewrite odict_get_set_eq, Eo.
  - intros o' Ho'. by rewrite odict_get_set_ne.
  - intros m i Hm.
    by rewrite (after_cycle_input g g1 self o _ _ (with_value true x out) m i
                  Hafter (odict_get_set_eq _ _ _) Hm).
Qed.

(** ** [Loop] on any graph *)

Section LoopCycles.
Context `{PyExt}.

Lemma Loop_outputs (me : Node) :
  instance_of Loop_class me →
  ∃ oF oL, outputs me = [("Final", oF); ("LoopBody", oL)].
Proof.
  intros [_ Hout]. destruct me as [? ? ? os ? ? ? ? ?]. simpl in *.
  change (odict_keys os = ["Final"; "LoopBody"]) in Hout.
  unfold odict_keys in Hout. outputs_inv Hout. eauto.
Qed.

Lemma Loop_cycle_first (g : Graph) (self : string) (me : Node) (S : pyobj) (n : Z)
    (oL : Info) :
  nodes g !! self = Some me →
  instance_of Loop_class me → fresh me = true →
  read_input me "Start" = Ok S → read_input me "Iterations" = Ok (VInt n) → 0 < n →
  odict_get (outputs me) "LoopBody" = Some oL →
  targets_exist g (getConnectionsOfOutput g self "LoopBody") →
  let outs := odict_set (outputs me) "LoopBody" (with_value true S oL) in
  ∃ g1, cycle Loop_run Loop_notify self g = (Ok (), g1)
        ∧ after_cycle g self "LoopBody" outs
            (node_reset "Control"
               (node_pushes false outs self (getConnectionsOfOutput g self "LoopBody")
                  (with_fresh false (with_counter n (with_outputs outs me))))) g1.
Proof.
  intros Eme Hinst Hfresh HS HI Hn HoL Hex outs.
  assert ((0 <? n) = true) as Hpos by (apply Z.ltb_lt; lia).
  destruct me as [cn id ins os fr cnt dn ipins opins].
  simpl in Hfresh. subst fr. class_ports Hinst. unfold read_input in *.
  simpl in HS, HI, HoL. injection HoL as ->. subst outs.
  cbn [odict_set String.eqb Ascii.eqb Bool.eqb outputs].
  unfold cycle. rewrite se_bind_unfold.
  erewrite (on_node_ok _ _ _ _ _ _ Eme); [|unfold Loop_run; se_run; reflexivity].
  cbv beta iota. cbn [odict_set String.eqb Ascii.eqb Bool.eqb].
  unfold Loop_notify. ge_run. rewrite Hpos. ge_run.
  erewrite (propagate_at g self "LoopBody" true _ _ _ Eme);
    [|reflexivity|reflexivity|done|done].
  rewrite !node_pushes_map by (apply (bool_decide_unpack _); by vm_compute).
  cbn [inputs outputs with_outputs with_counter with_fresh fmap list_fmap fst snd]. ge_run.
  eexists. split; [reflexivity|]. split; [done|]. split.
  - simpl. by rewrite lookup_insert_eq.
  - intros m Hm. simpl. rewrite lookup_insert_ne by done. apply push_all_lookup.
Qed.

Lemma Loop_cycle_next (g : Graph) (self : string) (me : Node) (c : pyobj) (oL : Info) :
  nodes g !! self = Some me →
  instance_of Loop_class me → fresh me = false → 1 < counter me →
  read_input me "Control" = Ok c →
  odict_get (outputs me) "LoopBody" = Some oL →
  targets_exist g (getConnectionsOfOutput g self "LoopBody") →
  let outs := odict_set (outputs me) "LoopBody" (with_value true c oL) in
  ∃ g1, cycle Loop_run Loop_notify self g = (Ok (), g1)
        ∧ after_cycle g self "LoopBody" outs
            (node_reset "Control"
               (node_pushes false outs self (getConnectionsOfOutput g self "LoopBody")
                  (with_counter (counter me - 1) (with_outputs outs me)))) g1.
Proof.
  intros Eme Hinst Hfresh Hk HC HoL Hex outs.
  assert ((counter me =? 0) = false) as Hz by (apply Z.eqb_neq; lia).
  assert ((0 <? counter me - 1) = true) as Hpos by (apply Z.ltb_lt; lia).
  destruct me as [cn id ins os fr cnt dn ipins opins].
  simpl in Hfresh, Hk, Hz, Hpos. subst fr. class_ports Hinst. unfold read_input in *.
  simpl in HC, HoL. injection HoL as ->. subst outs.
  cbn [odict_set String.eqb Ascii.eqb Bool.eqb outputs counter].
  unfold cycle. rewrite se_bind_unfold.
  erewrite (on_node_ok _ _ _ _ _ _ Eme);
    [|unfold Loop_run; se_run; rewrite Hz; se_run; reflexivity].
  cbv beta iota. cbn [odict_set String.eqb Ascii.eqb Bool.eqb].
  unfold Loop_notify. ge_run. rewrite Hpos. ge_run.
  erewrite (propagate_at g self "LoopBody" true _ _ _ Eme);
    [|reflexivity|reflexivity|done|done].
  rewrite !node_pushes_map by (apply (bool_decide_unpack _); by vm_compute).
  cbn [inputs outputs with_outputs with_counter with_fresh fmap list_fmap fst snd]. ge_run.
  eexists. split; [reflexivity|]. split; [done|]. split.
  - simpl. by rewrite lookup_insert_eq.
  - intros m Hm. simpl. rewrite lookup_insert_ne by done. apply push_all_lookup.
Qed.

Lemma Loop_cycle_last (g : Graph) (self : string) (me : Node) (c : pyobj) (oL : Info) :
  nodes g !! self = Some me →
  instance_of Loop_class me → fresh me = false → counter me = 1 →
  read_input me "Control" = Ok c →
  odict_get (outputs me) "LoopBody" = Some oL →
  targets_unset g (getConnectionsOfOutput g self "Final") →
  let outs := odict_set (outputs me) "LoopBody" (with_value true c oL) in
  ∃ g1, cycle Loop_run Loop_notify self g = (Ok (), g1)
        ∧ after_cycle g self "Final" outs
            (with_fresh true
               (reset_but_Iterations
                  (node_pushes false outs self (getConnectionsOfOutput g self "Final")
                     (with_counter 0 (with_outputs outs me))))) g1.
Proof.
  intros Eme Hinst Hfresh Hk HC HoL Hun outs.
  destruct me as [cn id ins os fr cnt dn ipins opins].
  simpl in Hfresh, Hk. subst fr cnt. class_ports Hinst. unfold read_input in *.
  simpl in HC, HoL. injection HoL as ->. subst outs.
  cbn [odict_set String.eqb Ascii.eqb Bool.eqb outputs counter].
  unfold cycle. rewrite se_bind_unfold.
  erewrite (on_node_ok _ _ _ _ _ _ Eme);
    [|unfold Loop_run; se_run; cbn [Z.eqb]; se_run; reflexivity].
  cbv beta iota. cbn [odict_set String.eqb Ascii.eqb Bool.eqb].
  unfold Loop_notify. ge_run. change (0 <? 1 - 1) with false. cbv iota. ge_run.
  erewrite (propagate_at g self "Final" false _ _ _ Eme);
    [|reflexivity|reflexivity|by apply targets_unset_exist|done].
  rewrite !node_pushes_map by (apply (bool_decide_unpack _); by vm_compute).
  cbn [inputs outputs with_outputs with_counter with_fresh fmap list_fmap fst snd]. ge_run.
  eexists. split; [reflexivity|]. split; [done|]. split.
  - simpl. by rewrite lookup_insert_eq.
  - intros m Hm. simpl. rewrite lookup_insert_ne by done. apply push_all_lookup.
Qed.

Lemma Loop_cycle_zero (g : Graph) (self : string) (me : Node) (S : pyobj) (n : Z)
    (oL : Info) :
  nodes g !! self = Some me →
  instance_of Loop_class me → fresh me = true →
  read_input me "Start" = Ok S → read_input me "Iterations" = Ok (VInt n) → n ≤ 0 →
  odict_get (outputs me) "LoopBody" = Some oL →
  targets_unset g (getConnectionsOfOutput g self "Final") →
  let outs := odict_set (outputs me) "LoopBody" (with_value true S oL) in
  ∃ g1, cycle Loop_run Loop_notify self g = (Ok (), g1)
        ∧ after_cycle g self "Final" outs
            (with_fresh true
               (reset_but_Iterations
                  (node_pushes false outs self (getConnectionsOfOutput g self "Final")
                     (with_counter n (with_outputs outs me))))) g1.
Proof.
  intros Eme Hinst Hfresh HS HI Hn HoL Hun outs.
  assert ((0 <? n) = false) as Hpos by (apply Z.ltb_ge; lia).
  destruct me as [cn id ins os fr cnt dn ipins opins].
  simpl in Hfresh. subst fr. class_ports Hinst. unfold read_input in *.
  simpl in HS, HI, HoL. injection HoL as ->. subst outs.
  cbn [odict_set String.eqb Ascii.eqb Bool.eqb outputs].
  unfold cycle. rewrite se_bind_unfold.
  erewrite (on_node_ok _ _ _ _ _ _ Eme); [|unfold Loop_run; se_run; reflexivity].
  cbv beta iota. cbn [odict_set String.eqb Ascii.eqb Bool.eqb].
  unfold Loop_notify. ge_run. rewrite Hpos. ge_run.
  erewrite (propagate_at g self "Final" false _ _ _ Eme);
    [|reflexivity|reflexivity|by apply targets_unset_exist|done].
  rewrite !node_pushes_map by (apply (bool_decide_unpack _); by vm_compute).
  cbn [inputs outputs with_outputs with_counter with_fresh fmap list_fmap fst snd]. ge_run.
  eexists. split; [reflexivity|]. split; [done|]. split.
  - simpl. by rewrite lookup_insert_eq.
  - intros m Hm. simpl. rewrite lookup_insert_ne by done. apply push_all_lookup.
Qed.

Lemma Loop_check_ports (me : Node) :
  instance_of Loop_class me →
  ∃ pS pC pI,
    odict_get (inputs me) "Start" = Some pS
    ∧ odict_get (inputs me) "Control" = Some pC
    ∧ odict_get (inputs me) "Iterations" = Some pI
    ∧ varType pC = TObject
    ∧ Loop_check me
      = (if fresh me then Ok (VBool (isAvailable pS && isAvailable pI))
         else if 0 <? counter me
              then Ok (if isAvailable pC then VBool true else VNone)
              else Ok VNone).
Proof.
  intros Hinst. destruct me as [cn id ins os fr cnt dn ipins opins]. class_ports Hinst.
  exists p, p0, p1. repeat (split; [done|]).
  unfold Loop_check, fresh_check. simpl. rewrite Hname, Hname0, Hname1. simpl.
  by rewrite andb_true_r.
Qed.

Lemma node_reset_fields (k : string) (nd : Node) :
  outputs (node_reset k nd) = outputs nd
  ∧ fresh (node_reset k nd) = fresh nd
  ∧ counter (node_reset k nd) = counter nd
  ∧ done (node_reset k nd) = done nd.
Proof.
  pose proof (node_reset_rest k nd) as Hr. repeat split.
  - by apply (f_equal outputs) in Hr.
  - by apply (f_equal fresh) in Hr.
  - by apply (f_equal counter) in Hr.
  - by apply (f_equal done) in Hr.
Qed.

(** A [Loop] node that waits for [Control], with [k] emissions on
    [LoopBody] still to come after the next one. *)
Lemma Loop_pending (me me1 : Node) (outs : odict Info) (m : string)
    (cons : list Connection) (k : Z) (me' : Node) :
  instance_of Loop_class me →
  me1 = node_reset "Control" (node_pushes false outs m cons me') →
  inputs me' = inputs me → odict_keys (outputs me') = odict_keys (outputs me) →
  fresh me' = false → counter me' = k → 0 < k →
  instance_of Loop_class me1 ∧ fresh me1 = false ∧ counter me1 = k
  ∧ Loop_check me1 = Ok VNone
  ∧ ∀ c override,
      Node_setInput "Control" c override me1 = (Ok (), node_store "Control" c me1)
      ∧ instance_of Loop_class (node_store "Control" c me1)
      ∧ fresh (node_store "Control" c me1) = false
      ∧ counter (node_store "Control" c me1) = k
      ∧ Loop_check (node_store "Control" c me1) = Ok (VBool true)
      ∧ read_input (node_store "Control" c me1) "Control" = Ok c.
Proof.
  intros [Hin Hout] -> Hin' Hout' Hfr Hk Hpos.
  set (mp := node_pushes false outs m cons me').
  destruct (node_reset_fields "Control" mp) as (Ho & Hf & Hc & _).
  destruct (node_pushes_outputs false outs m cons me') as (Ho' & Hf' & Hc' & _).
  fold mp in Ho', Hf', Hc'.
  assert (instance_of Loop_class (node_reset "Control" mp)) as Hinst1.
  { split.
    - rewrite node_reset_shape. unfold mp. by rewrite node_pushes_shape, Hin'.
    - by rewrite Ho, Ho', Hout'. }
  assert (fresh (node_reset "Control" mp) = false) as Hfr1 by congruence.
  assert (counter (node_reset "Control" mp) = k) as Hk1 by congruence.
  assert ((0 <? k) = true) as Hpos' by (apply Z.ltb_lt; lia).
  destruct (Loop_check_ports _ Hinst1) as (pS & pC & pI & _ & EC & _ & HtC & Hchk).
  rewrite Hfr1, Hk1, Hpos' in Hchk.
  rewrite node_reset_inputs, decide_True in EC by done.
  destruct (odict_get (inputs mp) "Control") as [q|] eqn:Eq; [|done].
  injection EC as <-. simpl in Hchk, HtC.
  assert (odict_get (inputs (node_reset "Control" mp)) "Control" = Some (reset q)) as EC.
  { rewrite node_reset_inputs, decide_True by done. by rewrite Eq. }
  repeat (split; [done|]). intros c ov.
  assert (instance_of Loop_class (node_store "Control" c (node_reset "Control" mp)))
    as Hinst2.
  { destruct Hinst1 as [Hi1 Ho1]. split.
    - by rewrite node_store_shape.
    - pose proof (node_store_rest "Control" c (node_reset "Control" mp)) as [Hr _].
      apply (f_equal outputs) in Hr. simpl in Hr. by rewrite Hr. }
  pose proof (node_store_rest "Control" c (node_reset "Control" mp)) as [Hr _].
  assert (fresh (node_store "Control" c (node_reset "Control" mp)) = false) as Hfr2.
  { apply (f_equal fresh) in Hr. simpl in Hr. congruence. }
  assert (counter (node_store "Control" c (node_reset "Control" mp)) = k) as Hk2.
  { apply (f_equal counter) in Hr. simpl in Hr. congruence. }
  assert (odict_get (inputs (node_store "Control" c (node_reset "Control" mp))) "Control"
          = Some (with_value true c (reset q))) as EC2.
  { rewrite node_store_inputs, decide_True by done. by rewrite EC. }
  split; [by apply (Node_setInput_ok _ _ _ _ (reset q)); [|right]|].
  repeat (split; [done|]). split.
  - destruct (Loop_check_ports _ Hinst2) as (pS' & pC' & pI' & _ & EC' & _ & _ & Hchk').
    rewrite Hfr2, Hk2, Hpos' in Hchk'. rewrite EC2 in EC'. injection EC' as <-.
    exact Hchk'.
  - unfold read_input. rewrite EC2. unfold InputInfo_call. simpl.
    by rewrite HtC.
Qed.

(** X12: a fresh [Loop] node whose [Iterations] reads as a positive [n]
    and whose [Start] reads as [S] is ready; its cycle emits [S] on
    [LoopBody], with override, and leaves it pending with its counter at
    [n], its output [Final] untouched and [Control] reset: it is not
    ready ([check] gives [None]) until [Control] is stored, and ready
    then. *)
Theorem Loop_first_cycle (g : Graph) (self : string) (me : Node) (S : pyobj) (n : Z) :
  nodes g !! self = Some me →
  instance_of Loop_class me → fresh me = true →
  read_input me "Start" = Ok S → read_input me "Iterations" = Ok (VInt n) → 0 < n →
  targets_exist g (getConnectionsOfOutput g self "LoopBody") →
  ready Loop_check g self
  ∧ ∃ g1 me1,
      emits Loop_run Loop_notify g self "LoopBody" S g1
      ∧ nodes g1 !! self = Some me1
      ∧ instance_of Loop_class me1 ∧ fresh me1 = false ∧ counter me1 = n
      ∧ Loop_check me1 = Ok VNone
      ∧ ∀ c override,
          Node_setInput "Control" c override me1 = (Ok (), node_store "Control" c me1)
          ∧ Loop_check (node_store "Control" c me1) = Ok (VBool true).
Proof.
  intros Eme Hinst Hfresh HS HI Hn Hex.
  destruct (Loop_outputs me Hinst) as (oF & oL & Houts).
  assert (odict_get (outputs me) "LoopBody" = Some oL) as HoL by (by rewrite Houts).
  split.
  { unfold ready. rewrite Eme. simpl. f_equal.
    destruct (Loop_check_ports me Hinst) as (pS & pC & pI & ES & _ & EI & _ & ->).
    rewrite Hfresh. unfold read_input in HS, HI. rewrite ES in HS. rewrite EI in HI.
    by rewrite (read_ok_available _ _ HS), (read_ok_available _ _ HI). }
  destruct (Loop_cycle_first g self me S n oL Eme Hinst Hfresh HS HI Hn HoL Hex)
    as (g1 & Hcyc & Hafter).
  pose proof Hafter as (_ & Eme1 & _).
  set (outs := odict_set (outputs me) "LoopBody" (with_value true S oL)) in *.
  destruct (Loop_pending me _ outs self (getConnectionsOfOutput g self "LoopBody") n
              (with_fresh false (with_counter n (with_outputs outs me)))
              Hinst eq_refl)
    as (Hinst1 & Hfr1 & Hk1 & Hchk1 & Hnext); try done.
  { simpl. unfold outs. apply odict_keys_set. eauto. }
  eexists g1, _. split; [|split; [exact Eme1|]].
  - apply (emits_of_after_cycle _ _ g g1 self "LoopBody" S me _ oL Hcyc Eme HoL Hafter).
    destruct (node_reset_fields "Control"
                (node_pushes false outs self (getConnectionsOfOutput g self "LoopBody")
                   (with_fresh false (with_counter n (with_outputs outs me)))))
      as [-> _].
    by destruct (node_pushes_outputs false outs self
                   (getConnectionsOfOutput g self "LoopBody")
                   (with_fresh false (with_counter n (with_outputs outs me)))) as [-> _].
  - repeat (split; [done|]). intros c ov. destruct (Hnext c ov) as (? & _ & _ & _ & ? & _).
    done.
Qed.

(** X13: a pending [Loop] node whose counter is above 1 and whose
    [Control] reads as [c] emits [c] on [LoopBody] and counts down by
    one; it stays pending, [Final] untouched, [Control] reset. *)
Theorem Loop_next_cycle (g : Graph) (self : string) (me : Node) (c : pyobj) :
  nodes g !! self = Some me →
  instance_of Loop_class me → fresh me = false → 1 < counter me →
  read_input me "Control" = Ok c →
  targets_exist g (getConnectionsOfOutput g self "LoopBody") →
  ready Loop_check g self
  ∧ ∃ g1 me1,
      emits Loop_run Loop_notify g self "LoopBody" c g1
      ∧ nodes g1 !! self = Some me1
      ∧ instance_of Loop_class me1 ∧ fresh me1 = false ∧ counter me1 = counter me - 1
      ∧ Loop_check me1 = Ok VNone
      ∧ ∀ c' override,
          Node_setInput "Control" c' override me1 = (Ok (), node_store "Control" c' me1)
          ∧ Loop_check (node_store "Control" c' me1) = Ok (VBool true).
Proof.
  intros Eme Hinst Hfresh Hk HC Hex.
  destruct (Loop_outputs me Hinst) as (oF & oL & Houts).
  assert (odict_get (outputs me) "LoopBody" = Some oL) as HoL by (by rewrite Houts).
  split.
  { unfold ready. rewrite Eme. simpl. f_equal.
    destruct (Loop_check_ports me Hinst) as (pS & pC & pI & _ & EC & _ & _ & ->).
    rewrite Hfresh. assert ((0 <? counter me) = true) as -> by (apply Z.ltb_lt; lia).
    unfold read_input in HC. rewrite EC in HC.
    by rewrite (read_ok_available _ _ HC). }
  destruct (Loop_cycle_next g self me c oL Eme Hinst Hfresh Hk HC HoL Hex)
    as (g1 & Hcyc & Hafter).
  pose proof Hafter as (_ & Eme1 & _).
  set (outs := odict_set (outputs me) "LoopBody" (with_value true c oL)) in *.
  destruct (Loop_pending me _ outs self (getConnectionsOfOutput g self "LoopBody")
              (counter me - 1)
              (with_counter (counter me - 1) (with_outputs outs me))
              Hinst eq_refl)
    as (Hinst1 & Hfr1 & Hk1 & Hchk1 & Hnext); try done.
  { simpl. unfold outs. apply odict_keys_set. eauto. }
  { lia. }
  eexists g1, _. split; [|split; [exact Eme1|]].
  - apply (emits_of_after_cycle _ _ g g1 self "LoopBody" c me _ oL Hcyc Eme HoL Hafter).
    destruct (node_reset_fields "Control"
                (node_pushes false outs self (getConnectionsOfOutput g self "LoopBody")
                   (with_counter (counter me - 1) (with_outputs outs me))))
      as [-> _].
    by destruct (node_pushes_outputs false outs self
                   (getConnectionsOfOutput g self "LoopBody")
                   (with_counter (counter me - 1) (with_outputs outs me))) as [-> _].
  - repeat (split; [done|]). intros c' ov.
    destruct (Hnext c' ov) as (? & _ & _ & _ & ? & _). done.
Qed.

Lemma Loop_port_names (me : Node) (k : string) (p : Info) :
  instance_of Loop_class me → odict_get (inputs me) k = Some p → name p = k.
Proof.
  intros Hinst E. destruct me as [cn id ins os fr cnt dn ipins opins]. class_ports Hinst.
  cbn [inputs odict_get] in E.
  destruct (String.eqb_spec "Start" k) as [<-|_]; [by injection E as <-|].
  destruct (String.eqb_spec "Control" k) as [<-|_]; [by injection E as <-|].
  destruct (String.eqb_spec "Iterations" k) as [<-|_]; [by injection E as <-|].
  done.
Qed.

(** A [Loop] node after the [notify] that follows its last run. *)
Lemma Loop_finished (g : Graph) (self : string) (me me1 me' : Node) (outs : odict Info)
    (oF : Info) :
  let cons := getConnectionsOfOutput g self "Final" in
  instance_of Loop_class me → odict_get outs "Final" = Some oF →
  me1 = with_fresh true (reset_but_Iterations (node_pushes false outs self cons me')) →
  inputs me' = inputs me → odict_keys (outputs me') = odict_keys (outputs me) →
  instance_of Loop_class me1 ∧ fresh me1 = true ∧ counter me1 = counter me'
  ∧ outputs me1 = outputs me'
  ∧ odict_get (inputs me1) "Start" = reset <$> odict_get (inputs me) "Start"
  ∧ odict_get (inputs me1) "Control" = reset <$> odict_get (inputs me) "Control"
  ∧ ((self, "Iterations") ∉ target <$> cons →
     odict_get (inputs me1) "Iterations" = odict_get (inputs me) "Iterations")
  ∧ Loop_check me1 = Ok (VBool false).
Proof.
  intros cons Hinst EF -> Hin' Hout'.
  set (mp := node_pushes false outs self cons me').
  destruct (node_pushes_outputs false outs self cons me') as (Ho & Hf & Hc & _).
  fold mp in Ho, Hf, Hc.
  assert (instance_of Loop_class mp) as Hinstp.
  { destruct Hinst as [Hi Hou]. split.
    - unfold mp. by rewrite node_pushes_shape, Hin'.
    - by rewrite Ho, Hout'. }
  assert (instance_of Loop_class (with_fresh true (reset_but_Iterations mp))) as Hinst1.
  { destruct Hinstp as [Hi Hou]. split; [|done].
    cbn [inputs with_fresh]. by rewrite reset_but_Iterations_shape. }
  assert (∀ k, odict_get (inputs (with_fresh true (reset_but_Iterations mp))) k
               = (λ p, if String.eqb (name p) "Iterations" then p else reset p)
                   <$> odict_get (inputs mp) k) as Hget.
  { intros k. cbn [inputs with_fresh reset_but_Iterations with_inputs].
    apply odict_get_fmap. }
  assert (∀ k, k ≠ "Iterations" →
               odict_get (inputs (with_fresh true (reset_but_Iterations mp))) k
               = reset <$> odict_get (inputs me) k) as Hreset.
  { intros k Hk. rewrite Hget. unfold mp. rewrite node_pushes_inputs, Hin'.
    destruct (odict_get (inputs me) k) as [p|] eqn:E; [|by destruct last_value].
    pose proof (Loop_port_names me k p Hinst E) as Hn.
    destruct (last_value _ _ _ _ _); simpl; rewrite Hn;
      by destruct (String.eqb_spec k "Iterations"). }
  split; [done|]. split; [done|]. split; [done|]. split; [done|].
  split; [by apply Hreset|]. split; [by apply Hreset|]. split.
  - intros Hnot. rewrite Hget. unfold mp. rewrite node_pushes_inputs, Hin'.
    assert (last_value false outs self "Iterations" cons = None) as ->.
    { rewrite (last_value_one_output false outs "Final" oF); [by rewrite decide_False|done|].
      apply Forall_forall. intros c Hc'. by apply connections_of_output in Hc' as [_ ?]. }
    destruct (odict_get (inputs me) "Iterations") as [p|] eqn:E; [|done].
    simpl. by rewrite (Loop_port_names me _ p Hinst E).
  - destruct (Loop_check_ports _ Hinst1) as (pS & pC & pI & ES & _ & _ & _ & ->).
    cbn [fresh with_fresh]. rewrite Hreset in ES by done.
    destruct (odict_get (inputs me) "Start"); [|done]. by injection ES as <-.
Qed.

(** X14: the last cycle of a [Loop], for any graph in which the
    connections of [Final] end in distinct inputs that hold no value (the
    stores along [Final] do not override). A pending node whose
    counter is 1 and whose [Control] reads as [c] is ready; its [run]
    writes [c] to [LoopBody], but the [notify] that follows finds the
    counter at 0 and delivers along the connections of [Final] instead,
    without override: the inputs they end in receive what [Final] holds
    (its [value] attribute, whether ever written or not), and no input a
    connection of [LoopBody] ends in receives [c]. The output [Final]
    itself is not written. The node ends fresh with counter 0, [Start]
    and [Control] reset and [Iterations] kept, and is not ready. *)
Theorem Loop_last_cycle (g : Graph) (self : string) (me : Node) (c : pyobj) (oF : Info) :
  nodes g !! self = Some me →
  instance_of Loop_class me → fresh me = false → counter me = 1 →
  read_input me "Control" = Ok c →
  odict_get (outputs me) "Final" = Some oF →
  targets_unset g (getConnectionsOfOutput g self "Final") →
  ready Loop_check g self
  ∧ ∃ g1 me1,
      cycle Loop_run Loop_notify self g = (Ok (), g1)
      ∧ connections g1 = connections g
      ∧ nodes g1 !! self = Some me1
      ∧ odict_get (outputs me1) "LoopBody"
        = with_value true c <$> odict_get (outputs me) "LoopBody"
      ∧ odict_get (outputs me1) "Final" = Some oF
      ∧ (∀ m i, m ≠ self →
           get_input g1 m i
           = if decide ((m, i) ∈ target <$> getConnectionsOfOutput g self "Final")
             then with_value true (value oF) <$> get_input g m i
             else get_input g m i)
      ∧ instance_of Loop_class me1 ∧ fresh me1 = true ∧ counter me1 = 0
      ∧ odict_get (inputs me1) "Start" = reset <$> odict_get (inputs me) "Start"
      ∧ odict_get (inputs me1) "Control" = reset <$> odict_get (inputs me) "Control"
      ∧ ((self, "Iterations") ∉ target <$> getConnectionsOfOutput g self "Final" →
         odict_get (inputs me1) "Iterations" = odict_get (inputs me) "Iterations")
      ∧ Loop_check me1 = Ok (VBool false).
Proof.
  intros Eme Hinst Hfresh Hk HC HoF Hun.
  destruct (Loop_outputs me Hinst) as (oF' & oL & Houts).
  assert (odict_get (outputs me) "LoopBody" = Some oL) as HoL by (by rewrite Houts).
  split.
  { unfold ready. rewrite Eme. simpl. f_equal.
    destruct (Loop_check_ports me Hinst) as (pS & pC & pI & _ & EC & _ & _ & ->).
    rewrite Hfresh, Hk. simpl. unfold read_input in HC. rewrite EC in HC.
    by rewrite (read_ok_available _ _ HC). }
  destruct (Loop_cycle_last g self me c oL Eme Hinst Hfresh Hk HC HoL Hun)
    as (g1 & Hcyc & Hafter).
  pose proof Hafter as (Hcons & Eme1 & _).
  set (outs := odict_set (outputs me) "LoopBody" (with_value true c oL)) in *.
  assert (odict_get outs "Final" = Some oF) as EF.
  { unfold outs. by rewrite odict_get_set_ne. }
  destruct (Loop_finished g self me _ (with_counter 0 (with_outputs outs me)) outs oF
              Hinst EF eq_refl)
    as (Hinst1 & Hfr1 & Hk1 & Ho1 & HS1 & HC1 & HI1 & Hchk1); try done.
  { simpl. unfold outs. apply odict_keys_set. eauto. }
  eexists g1, _. split; [exact Hcyc|]. split; [done|]. split; [exact Eme1|].
  rewrite Ho1. cbn [outputs with_counter with_outputs].
  split; [unfold outs; by rewrite odict_get_set_eq, HoL|].
  split; [done|]. split.
  { intros m i Hm.
    by rewrite (after_cycle_input g g1 self "Final" _ _ oF m i Hafter EF Hm). }
  done.
Qed.

(** X15: a fresh [Loop] whose [Iterations] reads as zero or less is
    ready like any other; provided the connections of [Final] end in
    distinct inputs that hold no value (the stores along [Final] do not
    override), its cycle writes [Start] to [LoopBody] all the
    same, but delivers nothing along [LoopBody]: the connections of
    [Final] receive what [Final] holds, which [run] did not write. The
    node ends fresh, its counter at the number read, [Start] and
    [Control] reset, and is not ready. *)
Theorem Loop_zero_iterations (g : Graph) (self : string) (me : Node) (S : pyobj) (n : Z)
    (oF : Info) :
  nodes g !! self = Some me →
  instance_of Loop_class me → fresh me = true →
  read_input me "Start" = Ok S → read_input me "Iterations" = Ok (VInt n) → n ≤ 0 →
  odict_get (outputs me) "Final" = Some oF →
  targets_unset g (getConnectionsOfOutput g self "Final") →
  ready Loop_check g self
  ∧ ∃ g1 me1,
      cycle Loop_run Loop_notify self g = (Ok (), g1)
      ∧ connections g1 = connections g
      ∧ nodes g1 !! self = Some me1
      ∧ odict_get (outputs me1) "LoopBody"
        = with_value true S <$> odict_get (outputs me) "LoopBody"
      ∧ odict_get (outputs me1) "Final" = Some oF
      ∧ (∀ m i, m ≠ self →
           get_input g1 m i
           = if decide ((m, i) ∈ target <$> getConnectionsOfOutput g self "Final")
             then with_value true (value oF) <$> get_input g m i
             else get_input g m i)
      ∧ instance_of Loop_class me1 ∧ fresh me1 = true ∧ counter me1 = n
      ∧ odict_get (inputs me1) "Start" = reset <$> odict_get (inputs me) "Start"
      ∧ odict_get (inputs me1) "Control" = reset <$> odict_get (inputs me) "Control"
      ∧ ((self, "Iterations") ∉ target <$> getConnectionsOfOutput g self "Final" →
         odict_get (inputs me1) "Iterations" = odict_get (inputs me) "Iterations")
      ∧ Loop_check me1 = Ok (VBool false).
Proof.
  intros Eme Hinst Hfresh HS HI Hn HoF Hun.
  destruct (Loop_outputs me Hinst) as (oF' & oL & Houts).
  assert (odict_get (outputs me) "LoopBody" = Some oL) as HoL by (by rewrite Houts).
  split.
  { unfold ready. rewrite Eme. simpl. f_equal.
    destruct (Loop_check_ports me Hinst) as (pS & pC & pI & ES & _ & EI & _ & ->).
    rewrite Hfresh. unfold read_input in HS, HI. rewrite ES in HS. rewrite EI in HI.
    by rewrite (read_ok_available _ _ HS), (read_ok_available _ _ HI). }
  destruct (Loop_cycle_zero g self me S n oL Eme Hinst Hfresh HS HI Hn HoL Hun)
    as (g1 & Hcyc & Hafter).
  pose proof Hafter as (Hcons & Eme1 & _).
  set (outs := odict_set (outputs me) "LoopBody" (with_value true S oL)) in *.
  assert (odict_get outs "Final" = Some oF) as EF.
  { unfold outs. by rewrite odict_get_set_ne. }
  destruct (Loop_finished g self me _ (with_counter n (with_outputs outs me)) outs oF
              Hinst EF eq_refl)
    as (Hinst1 & Hfr1 & Hk1 & Ho1 & HS1 & HC1 & HI1 & Hchk1); try done.
  { simpl. unfold outs. apply odict_keys_set. eauto. }
  eexists g1, _. split; [exact Hcyc|]. split; [done|]. split; [exact Eme1|].
  rewrite Ho1. cbn [outputs with_counter with_outputs].
  split; [unfold outs; by rewrite odict_get_set_eq, HoL|].
  split; [done|]. split.
  { intros m i Hm.
    by rewrite (after_cycle_input g g1 self "Final" _ _ oF m i Hafter EF Hm). }
  done.
Qed.

Lemma Loop_port_types (me : Node) (pS pC : Info) :
  instance_of Loop_class me →
  odict_get (inputs me) "Start" = Some pS → odict_get (inputs me) "Control" = Some pC →
  varType pS = TObject ∧ varType pC = TObject.
Proof.
  intros Hinst ES EC. destruct me as [cn id ins os fr cnt dn ipins opins]. class_ports Hinst.
  simpl in ES, EC. injection ES as <-. injection EC as <-. done.
Qed.

Lemma read_object_available (p : Info) :
  varType p = TObject → isAvailable p = true → ∃ v, InputInfo_call p false = Ok v.
Proof.
  intros Ht Ha. unfold isAvailable in Ha. unfold InputInfo_call. rewrite Ht. simpl.
  destruct (valueSet p); [eauto|].
  destruct (not_None (default p) && negb (connected p)); [eauto|done].
Qed.

(** X16: a [Loop] never writes its output [Final]. A node that is fresh
    or has its counter above 0 and that reports ready completes its
    cycle (given that [Iterations] converts when it is read, that the
    connections of [LoopBody] end in existing inputs and those of
    [Final] in distinct inputs without a value); afterwards it is again
    fresh or has its counter above 0, so that the branch of [run] that
    writes [Final] is never taken, and [Final] holds what it held. *)
Theorem Loop_never_writes_Final (g : Graph) (self : string) (me : Node) (n : Z) :
  nodes g !! self = Some me →
  instance_of Loop_class me →
  fresh me = true ∨ 0 < counter me →
  Loop_check me = Ok (VBool true) →
  (fresh me = true → read_input me "Iterations" = Ok (VInt n)) →
  targets_exist g (getConnectionsOfOutput g self "LoopBody") →
  targets_unset g (getConnectionsOfOutput g self "Final") →
  ∃ g1 me1,
    cycle Loop_run Loop_notify self g = (Ok (), g1)
    ∧ nodes g1 !! self = Some me1
    ∧ instance_of Loop_class me1
    ∧ (fresh me1 = true ∨ 0 < counter me1)
    ∧ odict_get (outputs me1) "Final" = odict_get (outputs me) "Final".
Proof.
  intros Eme Hinst Hinv Hchk HI Hex Hun.
  destruct (Loop_outputs me Hinst) as (oF & oL & Houts).
  assert (odict_get (outputs me) "LoopBody" = Some oL) as HoL by (by rewrite Houts).
  assert (odict_get (outputs me) "Final" = Some oF) as HoF by (by rewrite Houts).
  destruct (Loop_check_ports me Hinst) as (pS & pC & pI & ES & EC & EI & _ & Hc).
  destruct (Loop_port_types me pS pC Hinst ES EC) as [HtS HtC].
  rewrite Hc in Hchk. clear Hc.
  assert (∀ v, odict_get (odict_set (outputs me) "LoopBody" (with_value true v oL)) "Final"
               = Some oF) as EF.
  { intros v. by rewrite odict_get_set_ne. }
  assert (∀ v, odict_keys (odict_set (outputs me) "LoopBody" (with_value true v oL))
               = odict_keys (outputs me)) as Hkeys.
  { intros v. apply odict_keys_set. eauto. }
  destruct (fresh me) eqn:Hfresh.
  - injection Hchk as Hav. apply andb_true_iff in Hav as [HaS HaI].
    destruct (read_object_available pS HtS HaS) as [S HS].
    assert (read_input me "Start" = Ok S) as HS' by (unfold read_input; by rewrite ES).
    specialize (HI eq_refl).
    destruct (Z_lt_le_dec 0 n) as [Hn|Hn].
    + destruct (Loop_cycle_first g self me S n oL Eme Hinst Hfresh HS' HI Hn HoL Hex)
        as (g1 & Hcyc & Hafter).
      pose proof Hafter as (_ & Eme1 & _).
      destruct (Loop_pending me _ (odict_set (outputs me) "LoopBody" (with_value true S oL))
                  self (getConnectionsOfOutput g self "LoopBody") n
                  (with_fresh false (with_counter n
                     (with_outputs (odict_set (outputs me) "LoopBody"
                                      (with_value true S oL)) me)))
                  Hinst eq_refl) as (Hinst1 & Hfr1 & Hk1 & _); try done.
      { simpl. apply Hkeys. }
      eexists g1, _. split; [exact Hcyc|]. split; [exact Eme1|]. split; [done|].
      split; [right; by rewrite Hk1|].
      destruct (node_reset_fields "Control"
                  (node_pushes false (odict_set (outputs me) "LoopBody" (with_value true S oL))
                     self (getConnectionsOfOutput g self "LoopBody")
                     (with_fresh false (with_counter n
                        (with_outputs (odict_set (outputs me) "LoopBody"
                                         (with_value true S oL)) me))))) as [-> _].
      destruct (node_pushes_outputs false
                  (odict_set (outputs me) "LoopBody" (with_value true S oL))
                  self (getConnectionsOfOutput g self "LoopBody")
                  (with_fresh false (with_counter n
                     (with_outputs (odict_set (outputs me) "LoopBody"
                                      (with_value true S oL)) me)))) as [-> _].
      simpl. by rewrite EF.
    + destruct (Loop_cycle_zero g self me S n oL Eme Hinst Hfresh HS' HI Hn HoL Hun)
        as (g1 & Hcyc & Hafter).
      pose proof Hafter as (_ & Eme1 & _).
      destruct (Loop_finished g self me _
                  (with_counter n
                     (with_outputs (odict_set (outputs me) "LoopBody"
                                      (with_value true S oL)) me))
                  (odict_set (outputs me) "LoopBody" (with_value true S oL))
                  oF Hinst (EF S) eq_refl)
        as (Hinst1 & Hfr1 & _ & Ho1 & _); try done.
      { simpl. apply Hkeys. }
      eexists g1, _. split; [exact Hcyc|]. split; [exact Eme1|]. split; [done|].
      split; [by left|]. rewrite Ho1. simpl. by rewrite EF.
  - destruct Hinv as [?|Hpos]; [done|].
    assert ((0 <? counter me) = true) as Hpos' by (apply Z.ltb_lt; lia).
    rewrite Hpos' in Hchk.
    assert (isAvailable pC = true) as HaC by (by destruct (isAvailable pC)).
    destruct (read_object_available pC HtC HaC) as [c HC].
    assert (read_input me "Control" = Ok c) as HC' by (unfold read_input; by rewrite EC).
    destruct (Z_lt_le_dec 1 (counter me)) as [Hk|Hk].
    + destruct (Loop_cycle_next g self me c oL Eme Hinst Hfresh Hk HC' HoL Hex)
        as (g1 & Hcyc & Hafter).
      pose proof Hafter as (_ & Eme1 & _).
      destruct (Loop_pending me _ (odict_set (outputs me) "LoopBody" (with_value true c oL))
                  self (getConnectionsOfOutput g self "LoopBody") (counter me - 1)
                  (with_counter (counter me - 1)
                     (with_outputs (odict_set (outputs me) "LoopBody"
                                      (with_value true c oL)) me))
                  Hinst eq_refl) as (Hinst1 & Hfr1 & Hk1 & _); try done.
      { simpl. apply Hkeys. }
      { lia. }
      eexists g1, _. split; [exact Hcyc|]. split; [exact Eme1|]. split; [done|].
      split; [right; rewrite Hk1; lia|].
      destruct (node_reset_fields "Control"
                  (node_pushes false (odict_set (outputs me) "LoopBody" (with_value true c oL))
                     self (getConnectionsOfOutput g self "LoopBody")
                     (with_counter (counter me - 1)
                        (with_outputs (odict_set (outputs me) "LoopBody"
                                         (with_value true c oL)) me)))) as [-> _].
      destruct (node_pushes_outputs false
                  (odict_set (outputs me) "LoopBody" (with_value true c oL))
                  self (getConnectionsOfOutput g self "LoopBody")
                  (with_counter (counter me - 1)
                     (with_outputs (odict_set (outputs me) "LoopBody"
                                      (with_value true c oL)) me))) as [-> _].
      simpl. by rewrite EF.
    + assert (counter me = 1) as Hk1 by lia.
      destruct (Loop_cycle_last g self me c oL Eme Hinst Hfresh Hk1 HC' HoL Hun)
        as (g1 & Hcyc & Hafter).
      pose proof Hafter as (_ & Eme1 & _).
      destruct (Loop_finished g self me _
                  (with_counter 0
                     (with_outputs (odict_set (outputs me) "LoopBody"
                                      (with_value true c oL)) me))
                  (odict_set (outputs me) "LoopBody" (with_value true c oL))
                  oF Hinst (EF c) eq_refl)
        as (Hinst1 & Hfr1 & _ & Ho1 & _); try done.
      { simpl. apply Hkeys. }
      eexists g1, _. split; [exact Hcyc|]. split; [exact Eme1|]. split; [done|].
      split; [by left|]. rewrite Ho1. simpl. by rewrite EF.
Qed.

(** What the induction over the stored values carries along. *)
Lemma Loop_body_cycles_from (self : string) (cs : list pyobj) (g1 : Graph) (me1 : Node) :
  nodes g1 !! self = Some me1 →
  instance_of Loop_class me1 → fresh me1 = false →
  counter me1 = Z.of_nat (S (length cs)) →
  (∀ c, Loop_check (node_store "Control" c me1) = Ok (VBool true)
        ∧ read_input (node_store "Control" c me1) "Control" = Ok c) →
  Loop_body_cycles self cs g1.
Proof.
  revert g1 me1. induction cs as [|c cs IH]; intros g1 me1 Eme1 Hinst1 Hfr1 Hk1 Hnext.
  - simpl. exists me1. repeat (split; [done|]). rewrite Hk1. done.
  - cbn [Loop_body_cycles]. intros g' Hre Hex.
    unfold refilled in Hre. rewrite Eme1 in Hre. simpl in Hre.
    destruct (Hnext c) as [Hchk HC].
    split. { unfold ready. rewrite Hre. simpl. by rewrite Hchk. }
    set (me' := node_store "Control" c me1) in *.
    pose proof (node_store_rest "Control" c me1) as [Hrest _]. fold me' in Hrest.
    assert (instance_of Loop_class me') as Hinst'.
    { destruct Hinst1 as [Hi Ho]. split.
      - unfold me'. by rewrite node_store_shape.
      - apply (f_equal outputs) in Hrest. simpl in Hrest. by rewrite Hrest. }
    assert (fresh me' = false) as Hfr'.
    { apply (f_equal fresh) in Hrest. simpl in Hrest. congruence. }
    assert (counter me' = Z.of_nat (S (length (c :: cs)))) as Hk'.
    { apply (f_equal counter) in Hrest. simpl in Hrest. congruence. }
    destruct (Loop_outputs me' Hinst') as (oF & oL & Houts).
    assert (odict_get (outputs me') "LoopBody" = Some oL) as HoL by (by rewrite Houts).
    assert (1 < counter me') as Hgt by (rewrite Hk'; simpl length; lia).
    destruct (Loop_cycle_next g' self me' c oL Hre Hinst' Hfr' Hgt HC HoL Hex)
      as (g2 & Hcyc & Hafter).
    pose proof Hafter as (_ & Eme2 & _).
    set (outs := odict_set (outputs me') "LoopBody" (with_value true c oL)) in *.
    destruct (Loop_pending me' _ outs self (getConnectionsOfOutput g' self "LoopBody")
                (counter me' - 1)
                (with_counter (counter me' - 1) (with_outputs outs me'))
                Hinst' eq_refl)
      as (Hinst2 & Hfr2 & Hk2 & _ & Hnext2); try done.
    { simpl. unfold outs. apply odict_keys_set. eauto. }
    { lia. }
    exists g2. split.
    + apply (emits_of_after_cycle _ _ g' g2 self "LoopBody" c me' _ oL Hcyc Hre HoL Hafter).
      destruct (node_reset_fields "Control"
                  (node_pushes false outs self (getConnectionsOfOutput g' self "LoopBody")
                     (with_counter (counter me' - 1) (with_outputs outs me'))))
        as [-> _].
      by destruct (node_pushes_outputs false outs self
                     (getConnectionsOfOutput g' self "LoopBody")
                     (with_counter (counter me' - 1) (with_outputs outs me'))) as [-> _].
    + apply (IH g2 _ Eme2 Hinst2 Hfr2).
      * rewrite Hk2, Hk'. simpl length. lia.
      * intros c'. destruct (Hnext2 c' false) as (_ & _ & _ & _ & ? & ?). done.
Qed.

(** X17: a fresh [Loop] whose [Iterations] reads as n, at least 1, emits
    on [LoopBody] exactly n times: first [Start], then the first n - 1
    values stored into [Control], one per cycle, the node being ready
    each time [Control] has been set. It is then pending with its counter
    at 1, so that the cycle after the next store is the last one, which
    delivers nothing along [LoopBody]. *)
Theorem Loop_emits_n_values (g : Graph) (self : string) (me : Node) (S0 : pyobj)
    (cs : list pyobj) :
  nodes g !! self = Some me →
  instance_of Loop_class me → fresh me = true →
  read_input me "Start" = Ok S0 →
  read_input me "Iterations" = Ok (VInt (Z.of_nat (S (length cs)))) →
  targets_exist g (getConnectionsOfOutput g self "LoopBody") →
  ready Loop_check g self
  ∧ ∃ g1, emits Loop_run Loop_notify g self "LoopBody" S0 g1
          ∧ Loop_body_cycles self cs g1.
Proof.
  intros Eme Hinst Hfresh HS HI Hex.
  destruct (Loop_outputs me Hinst) as (oF & oL & Houts).
  assert (odict_get (outputs me) "LoopBody" = Some oL) as HoL by (by rewrite Houts).
  split.
  { unfold ready. rewrite Eme. simpl. f_equal.
    destruct (Loop_check_ports me Hinst) as (pS & pC & pI & ES & _ & EI & _ & ->).
    rewrite Hfresh. unfold read_input in HS, HI. rewrite ES in HS. rewrite EI in HI.
    by rewrite (read_ok_available _ _ HS), (read_ok_available _ _ HI). }
  assert (0 < Z.of_nat (S (length cs))) as Hn by lia.
  destruct (Loop_cycle_first g self me S0 _ oL Eme Hinst Hfresh HS HI Hn HoL Hex)
    as (g1 & Hcyc & Hafter).
  pose proof Hafter as (_ & Eme1 & _).
  set (outs := odict_set (outputs me) "LoopBody" (with_value true S0 oL)) in *.
  set (n := Z.of_nat (S (length cs))) in *.
  destruct (Loop_pending me _ outs self (getConnectionsOfOutput g self "LoopBody") n
              (with_fresh false (with_counter n (with_outputs outs me)))
              Hinst eq_refl)
    as (Hinst1 & Hfr1 & Hk1 & _ & Hnext); try done.
  { simpl. unfold outs. apply odict_keys_set. eauto. }
  exists g1. split.
  - apply (emits_of_after_cycle _ _ g g1 self "LoopBody" S0 me _ oL Hcyc Eme HoL Hafter).
    destruct (node_reset_fields "Control"
                (node_pushes false outs self (getConnectionsOfOutput g self "LoopBody")
                   (with_fresh false (with_counter n (with_outputs outs me)))))
      as [-> _].
    by destruct (node_pushes_outputs false outs self
                   (getConnectionsOfOutput g self "LoopBody")
                   (with_fresh false (with_counter n (with_outputs outs me)))) as [-> _].
  - apply (Loop_body_cycles_from self cs g1 _ Eme1 Hinst1 Hfr1 Hk1).
    intros c. destruct (Hnext c false) as (_ & _ & _ & _ & ? & ?). done.
Qed.

End LoopCycles.

(** ** [ForEach] on any list *)

Section ForEachCycles.
Context `{PyExt}.

Lemma ForEach_cycles_from (self : string) (l rest : list pyobj) (k : nat) (g : Graph)
    (me : Node) :
  nodes g !! self = Some me → ForEach_at me l k → (k ≤ length l)%nat → drop k l = rest →
  ForEach_cycles self l rest g.
Proof.
  revert k g me. induction rest as [|x rest IH]; intros k g me Eme Hat Hk Hdrop.
  - cbn [ForEach_cycles]. intros Hun.
    assert (k = length l) as ->.
    { apply (f_equal length) in Hdrop. rewrite length_drop in Hdrop. simpl in Hdrop. lia. }
    destruct (ForEach_finish g self me l Eme Hat Hun)
      as (g1 & me1 & Hem & Eme1 & Hf & Hc & Hd & _).
    by exists g1, me1.
  - cbn [ForEach_cycles]. intros Hfeed.
    assert (l !! k = Some x) as Hx.
    { pose proof (lookup_drop l k 0) as Hl. rewrite Hdrop in Hl. simpl in Hl.
      by rewrite Nat.add_0_r in Hl. }
    assert (drop (S k) l = rest) as Hdrop'.
    { rewrite (drop_S l x k Hx) in Hdrop. by injection Hdrop. }
    destruct (ForEach_step g self me l k x Eme Hat Hx Hfeed)
      as (g1 & me1 & Hem & Eme1 & Hnext).
    exists g1. split; [exact Hem|]. intros c g' Hre.
    unfold refilled in Hre. rewrite Eme1 in Hre. simpl in Hre.
    destruct (Hnext c) as [Hat' Hchk]. split.
    + unfold ready. rewrite Hre. simpl. by rewrite Hchk.
    + apply (IH (S k) g' _ Hre Hat'); [|done].
      apply lookup_lt_Some in Hx. lia.
Qed.

(** X18: a fresh [ForEach] node whose [Start] reads as a list is ready
    and emits the elements of the list on [ListElement] in order, one
    per cycle, each cycle after the first following a store into
    [Control]; one more cycle then emits the whole list on [Final] and
    returns the node to its fresh state. For the empty list the first
    cycle is that last one. Each element cycle is stated for a graph in
    which the connections of [ListElement] end in existing inputs other
    than the node's own [Start], the last cycle for a graph in which the
    connections of [Final] end in distinct inputs that hold no value;
    these two conditions are part of [ForEach_cycles]. *)
Theorem ForEach_emits_each_element (g : Graph) (self : string) (me : Node)
    (l : list pyobj) :
  nodes g !! self = Some me →
  instance_of ForEach_class me →
  fresh me = true → counter me = 0 → done me = false →
  read_input me "Start" = Ok (VList l) →
  ready ForEach_check g self ∧ ForEach_cycles self l l g.
Proof.
  intros Eme Hinst Hfresh Hcnt Hdone HS. split.
  - unfold ready. rewrite Eme. simpl. f_equal. by eapply ForEach_check_fresh.
  - apply (ForEach_cycles_from self l l 0 g me Eme); [done|lia|done].
Qed.

(** X19: when [Start] of a [ForEach] node holds something that cannot be
    subscripted (anything but a list or a text), [run] raises
    [TypeError]: only [IndexError] is caught. The node is left no longer
    fresh, with its counter and outputs as they were. *)
Theorem ForEach_run_not_subscriptable (me : Node) (start : pyobj) :
  instance_of ForEach_class me →
  read_input me "Start" = Ok start →
  (∀ l, start ≠ VList l) → (∀ s, start ≠ VStr s) →
  ForEach_run me = (Raise TypeError, with_fresh false me).
Proof.
  intros Hinst HS Hl Hs.
  assert (py_getitem start (counter me) = Raise TypeError) as Hget.
  { destruct start as [| | | |s|l]; try done; [by destruct (Hs s)|by destruct (Hl l)]. }
  destruct me as [cn id ins os fr cnt dn ipins opins]. class_ports Hinst.
  unfold read_input in HS. simpl in HS, Hget.
  unfold ForEach_run. by se_run.
Qed.

End ForEachCycles.

(** ** [SwitchNode]: the other branch *)

Section SwitchFalse.
Context `{PyExt}.

Lemma SwitchNode_cycle_fresh_false (g : Graph) (self : string) (me : Node) (S sw : pyobj)
    (oN : Info) :
  nodes g !! self = Some me →
  instance_of SwitchNode_class me → fresh me = true →
  read_input me "Start" = Ok S → read_input me "Switch" = Ok sw → py_truthy sw = false →
  odict_get (outputs me) "False" = Some oN →
  targets_unset g (getConnectionsOfOutput g self "False") →
  let outs := odict_set (outputs me) "False" (with_value true S oN) in
  SwitchNode_check me = Ok (VBool true)
  ∧ ∃ g1, cycle SwitchNode_run SwitchNode_notify self g = (Ok (), g1)
          ∧ after_cycle g self "False" outs
              (with_fresh false
                 (with_inputs (prod_map id reset <$> inputs me) (with_outputs outs me))) g1.
Proof.
  intros Eme Hinst Hfresh HS Hsw Htr HoN Hun outs.
  destruct me as [cn id ins os fr cnt dn ipins opins].
  simpl in Hfresh. subst fr. class_ports Hinst. unfold read_input in *. simpl in *.
  injection HoN as ->. subst outs. cbn [odict_set String.eqb Ascii.eqb Bool.eqb].
  split.
  { unfold SwitchNode_check, fresh_check. simpl.
    rewrite Hname, Hname0, Hname1. simpl.
    by rewrite (read_ok_available _ _ HS), (read_ok_available _ _ Hsw). }
  unfold cycle. rewrite se_bind_unfold.
  erewrite (on_node_ok _ _ _ _ _ _ Eme); [|unfold SwitchNode_run; se_run; reflexivity].
  cbv beta iota. cbn [odict_set String.eqb Ascii.eqb Bool.eqb].
  unfold SwitchNode_notify. ge_run.
  erewrite (propagate_at g self "False" false _ _ _ Eme);
    [|reflexivity|reflexivity|by apply targets_unset_exist|done].
  rewrite node_pushes_map by (apply (bool_decide_unpack _); by vm_compute).
  cbn [inputs outputs with_outputs fmap list_fmap fst snd]. ge_run.
  eexists. split; [reflexivity|]. split; [done|]. split.
  - simpl. rewrite lookup_insert_eq. f_equal.
    by repeat destruct (last_value _ _ _ _ _).
  - intros m Hm. simpl. rewrite lookup_insert_ne by done. apply push_all_lookup.
Qed.

(** X20: a fresh [SwitchNode] whose [Switch] reads as something false is
    ready, and, provided the connections of [False] end in distinct
    inputs that hold no value, its cycle emits what [Start] reads as on the output
    [False]: the value is written there and stored, without override,
    into the inputs the connections of [False] end in; the outputs
    [True] and [Final] and every other input of another node are as
    before. The node's three inputs are reset and it is left pending. *)
Theorem SwitchNode_false_branch (g : Graph) (self : string) (me : Node) (S sw : pyobj) :
  nodes g !! self = Some me →
  instance_of SwitchNode_class me → fresh me = true →
  read_input me "Start" = Ok S → read_input me "Switch" = Ok sw → py_truthy sw = false →
  targets_unset g (getConnectionsOfOutput g self "False") →
  ready SwitchNode_check g self
  ∧ ∃ g1 me1,
      emits SwitchNode_run SwitchNode_notify g self "False" S g1
      ∧ nodes g1 !! self = Some me1
      ∧ fresh me1 = false
      ∧ (∀ i, odict_get (inputs me1) i = reset <$> odict_get (inputs me) i)
      ∧ SwitchNode_check me1 = Ok VNone.
Proof.
  intros Eme Hinst Hfresh HS Hsw Hfalse Hun.
  assert (∃ oN, odict_get (outputs me) "False" = Some oN) as [oN HoN].
  { destruct me as [? ? ? os ? ? ? ? ?]. destruct Hinst as [_ Hout]. simpl in *.
    change (odict_keys os = ["Final"; "True"; "False"]) in Hout.
    unfold odict_keys in Hout. outputs_inv Hout. simpl. eauto. }
  destruct (SwitchNode_cycle_fresh_false g self me S sw oN Eme Hinst Hfresh HS Hsw Hfalse
              HoN Hun) as (Hchk & g1 & Hcyc & Hafter).
  split. { unfold ready. rewrite Eme. simpl. by rewrite Hchk. }
  pose proof Hafter as (_ & Eme1 & _).
  eexists g1, _. split; [|split; [exact Eme1|]].
  - by apply (emits_of_after_cycle _ _ g g1 self "False" S me _ oN Hcyc Eme HoN Hafter).
  - split; [done|]. split; [intros i; apply odict_get_fmap|].
    destruct me as [cn id ins os fr cnt dn ipins opins]. class_ports Hinst. reflexivity.
Qed.

End SwitchFalse.

(** ** A store without override that meets a value *)

Lemma propagate_app (self : string) (ud ov : bool) (l1 l2 : list Connection) (g : Graph) :
  propagate self ud ov (l1 ++ l2) g
  = match propagate self ud ov l1 g with
    | (Ok _, g') => propagate self ud ov l2 g'
    | (Raise e, g') => (Raise e, g')
    end.
Proof.
  unfold propagate. revert g. induction l1 as [|c l1 IH]; intros g; [done|].
  cbn [app se_for]. rewrite !(se_bind_unfold _ (λ _, se_for _ _)).
  match goal with |- context [match ?x with _ => _ end] => destruct x as [[[]|e] g'] end;
    [apply IH|done].
Qed.

Lemma last_value_is_Some (ud : bool) (outs : odict Info) (m i : string)
    (cons : list Connection) :
  (m, i) ∈ target <$> cons → outputs_exist outs cons →
  is_Some (last_value ud outs m i cons).
Proof.
  unfold outputs_exist.
  induction cons as [|c cons IH] using rev_ind; intros Hin Hout.
  - by apply elem_of_nil in Hin.
  - apply Forall_app in Hout as [Hout Hc]. rewrite Forall_singleton in Hc.
    destruct Hc as [out Eo]. unfold last_value. rewrite foldl_app. simpl.
    fold (last_value ud outs m i cons). rewrite Eo.
    destruct (decide (target c = (m, i))) as [_|Hne]; [eauto|].
    apply IH; [|done]. rewrite fmap_app in Hin. apply elem_of_app in Hin as [?|Hin]; [done|].
    apply list_elem_of_singleton in Hin. congruence.
Qed.

(** The loop without override stops at the first connection that ends in
    an input holding a value, whether it held one before or received one
    from an earlier connection of the same loop. *)
Lemma propagate_meets_value (self : string) (ud : bool) (outs : odict Info)
    (l1 l2 : list Connection) (c : Connection) (g : Graph) :
  (∃ me, nodes g !! self = Some me ∧ outputs me = outs) →
  outputs_exist outs (l1 ++ [c]) →
  targets_unset g l1 →
  target c ∈ target <$> l1
  ∨ valueSet <$> get_input g (inputNode c) (inputName c) = Some true →
  propagate self ud false (l1 ++ c :: l2) g
  = (Raise InputAlreadySet, push_all ud outs l1 g).
Proof.
  intros (me & Eme & Eouts) Hout Hun Hset.
  apply Forall_app in Hout as [Hout1 Hc]. rewrite Forall_singleton in Hc.
  destruct Hc as [out Eo].
  rewrite propagate_app.
  rewrite (propagate_spec self ud false outs l1 g); [|by eauto|done| |done].
  2: { by apply targets_unset_exist. }
  set (g1 := push_all ud outs l1 g).
  assert (∃ p, get_input g1 (inputNode c) (inputName c) = Some p ∧ valueSet p = true)
    as (p & Ep & Hp).
  { unfold g1. rewrite push_all_input. destruct Hset as [Hin|Hval].
    - destruct (last_value_is_Some ud outs _ _ l1 Hin Hout1) as [v ->].
      destruct Hun as [_ Hu]. rewrite Forall_forall in Hu.
      apply list_elem_of_fmap in Hin as (c' & Ht & Hc').
      specialize (Hu c' Hc'). unfold target in Ht. injection Ht as Hn Hi.
      rewrite <- Hn, <- Hi in Hu.
      destruct (get_input g (inputNode c) (inputName c)) as [q|]; [|done].
      by exists (with_value true v q).
    - destruct (get_input g (inputNode c) (inputName c)) as [q|]; [|done].
      simpl in Hval. injection Hval as Hq.
      destruct (last_value ud outs _ _ l1) as [v|]; [by exists (with_value true v q)|].
      by exists q. }
  unfold get_input in Ep.
  destruct (nodes g1 !! inputNode c) as [nd|] eqn:End; [simpl in Ep|done].
  assert (∃ me1, nodes g1 !! self = Some me1 ∧ outputs me1 = outs) as (me1 & Eme1 & Eouts1).
  { exists (node_pushes ud outs self l1 me). split.
    - unfold g1. by rewrite push_all_lookup, Eme.
    - by destruct (node_pushes_outputs ud outs self l1 me) as [-> _]. }
  unfold propagate. cbn [se_for]. rewrite se_bind_unfold.
  rewrite se_bind_unfold, (get_node_ok _ _ _ Eme1).
  rewrite se_bind_unfold. unfold odict_item at 1. rewrite Eouts1, Eo. se_step.
  assert (Node_setInput (inputName c) (current ud out) false nd = (Raise InputAlreadySet, nd))
    as Hstore.
  { unfold Node_setInput, odict_item. rewrite se_bind_unfold, se_get_unfold.
    rewrite se_bind_unfold, Ep, se_ret_unfold. unfold InputInfo_set. by rewrite Hp. }
  rewrite (on_node_ok _ _ _ _ _ _ End Hstore).
  by rewrite (with_nodes_same g1 _ nd End).
Qed.

Section MeetsValue.
Context `{PyExt}.

(** X21: the stores of a [SwitchNode] that hands [Final] on do not
    override. If a connection of [Final] ends in an input that holds a
    value, or in the input an earlier connection of [Final] ends in,
    [notify] raises [InputAlreadySet] there: the inputs of the
    connections before it have received the value, those of the
    connections after it have not, and the node is neither made fresh nor
    is its [Control] reset. *)
Theorem SwitchNode_notify_meets_value (g : Graph) (self : string) (me : Node)
    (l1 l2 : list Connection) (c : Connection) :
  nodes g !! self = Some me → fresh me = false →
  is_Some (odict_get (outputs me) "Final") →
  getConnectionsOfOutput g self "Final" = (l1 ++ c :: l2)%list →
  targets_unset g l1 →
  target c ∈ target <$> l1
  ∨ valueSet <$> get_input g (inputNode c) (inputName c) = Some true →
  SwitchNode_notify self g = (Raise InputAlreadySet, push_all false (outputs me) l1 g).
Proof.
  intros Eme Hfresh [oF HoF] Hcons Hun Hset.
  unfold SwitchNode_notify. rewrite se_bind_unfold, (get_node_ok _ _ _ Eme).
  cbv beta iota. rewrite Hfresh. rewrite !se_bind_unfold.
  unfold odict_item at 1. rewrite HoF, se_ret_unfold. cbv beta iota.
  rewrite se_bind_unfold, se_get_unfold. cbv beta iota. rewrite se_bind_unfold.
  rewrite Hcons.
  rewrite (propagate_meets_value self false (outputs me) l1 l2 c g); try done.
  - by eauto.
  - assert (outputs_exist (outputs me) (getConnectionsOfOutput g self "Final")) as Hall.
    { by apply (outputs_exist_of_output g self "Final" _ oF). }
    rewrite Hcons in Hall. unfold outputs_exist in *.
    apply Forall_app in Hall as [H1 H2]. apply Forall_cons in H2 as [H2 _].
    apply Forall_app. split; [done|]. by apply Forall_singleton.
Qed.

End MeetsValue.

(** ** Readiness of the control-flow nodes *)

(** X22: what the [check] of the three control-flow nodes computes on a
    node with the ports of its class. It never raises. Fresh, the node is
    ready exactly when every input other than [Control] is available,
    and the answer is a boolean. Pending, only [Control] counts (for a
    [Loop], only while its counter is above 0), and the answer is [True]
    or [None], never [False]. *)
Theorem control_checks (me : Node) :
  (instance_of SwitchNode_class me →
   ∃ pS pC pW,
     odict_get (inputs me) "Start" = Some pS ∧ odict_get (inputs me) "Control" = Some pC
     ∧ odict_get (inputs me) "Switch" = Some pW
     ∧ SwitchNode_check me
       = Ok (if fresh me then VBool (isAvailable pS && isAvailable pW)
             else if isAvailable pC then VBool true else VNone))
  ∧ (instance_of Loop_class me →
     ∃ pS pC pI,
       odict_get (inputs me) "Start" = Some pS ∧ odict_get (inputs me) "Control" = Some pC
       ∧ odict_get (inputs me) "Iterations" = Some pI
       ∧ Loop_check me
         = Ok (if fresh me then VBool (isAvailable pS && isAvailable pI)
               else if (0 <? counter me) && isAvailable pC then VBool true else VNone))
  ∧ (instance_of ForEach_class me →
     ∃ pS pC,
       odict_get (inputs me) "Start" = Some pS ∧ odict_get (inputs me) "Control" = Some pC
       ∧ ForEach_check me
         = Ok (if fresh me then VBool (isAvailable pS)
               else if isAvailable pC then VBool true else VNone)).
Proof.
  destruct me as [cn id ins os fr cnt dn ipins opins]. split; [|split]; intros Hinst; class_ports Hinst.
  - exists p, p0, p1. repeat (split; [done|]).
    unfold SwitchNode_check, fresh_check. simpl. rewrite Hname, Hname0, Hname1. simpl.
    rewrite andb_true_r. by destruct fr.
  - exists p, p0, p1. repeat (split; [done|]).
    unfold Loop_check, fresh_check. simpl. rewrite Hname, Hname0, Hname1. simpl.
    rewrite andb_true_r. destruct fr; [done|]. by destruct (0 <? cnt).
  - exists p, p0. repeat (split; [done|]).
    unfold ForEach_check, fresh_check. simpl. rewrite Hname, Hname0. simpl.
    rewrite andb_true_r. by destruct fr.
Qed.

(** ** Pin identifiers *)

Lemma append_inj_r (s t t' : string) : s +:+ t = s +:+ t' → t = t'.
Proof. induction s as [|a s IH]; simpl; [done|]. intros [= ?]. by apply IH. Qed.

(** X23: the pin identifiers of one node tell its ports apart: two
    inputs have the same identifier only if they have the same name,
    likewise two outputs, and no input shares its identifier with an
    output. *)
Theorem pin_IDs_distinct (self : Node) (a b : string) :
  (getInputID self a = getInputID self b → a = b)
  ∧ (getOutputID self a = getOutputID self b → a = b)
  ∧ getInputID self a ≠ getOutputID self b.
Proof.
  unfold getInputID, getOutputID. repeat split.
  - intros Hab. apply append_inj_r in Hab. by apply (append_inj_r ":I").
  - intros Hab. apply append_inj_r in Hab. by apply (append_inj_r ":O").
  - intros Hab. apply append_inj_r in Hab. discriminate Hab.
Qed.

(** ** Catalogue search: prefixes and type names *)

Lemma prefix_trans (a b c : string) :
  String.prefix a b = true → String.prefix b c = true → String.prefix a c = true.
Proof.
  revert b c. induction a as [|x a IH]; intros [|y b] [|z c]; simpl; try done.
  destruct (Ascii.ascii_dec x y) as [->|]; [|done].
  destruct (Ascii.ascii_dec y z) as [->|]; [|done].
  apply IH.
Qed.

Lemma py_or_truthy (a b : pyobj) : py_truthy (py_or a b) = py_truthy a || py_truthy b.
Proof. unfold py_or. by destruct (py_truthy a) eqn:Ea. Qed.

(** X24: the search is closed under shortening the text: a class found
    for a text is found for every prefix of it (the word object apart,
    which every class matches as a whole and not by prefix). *)
Theorem matchHint_prefix_closed (cls : NodeClass) (text text' : string) :
  String.prefix text' text = true →
  (py_truthy (matchClassTag cls text) = true → py_truthy (matchClassTag cls text') = true)
  ∧ (text ≠ "object" →
     (py_truthy (matchInputHint cls text) = true →
      py_truthy (matchInputHint cls text') = true)
     ∧ (py_truthy (matchOutputHint cls text) = true →
        py_truthy (matchOutputHint cls text') = true)
     ∧ (py_truthy (matchHint cls text) = true → py_truthy (matchHint cls text') = true)).
Proof.
  intros Hpre.
  assert (py_truthy (matchClassTag cls text) = true →
          py_truthy (matchClassTag cls text') = true) as Htag.
  { unfold matchClassTag. destruct (existsb _ (cls_tags cls)) eqn:E; [|done]. intros _.
    apply existsb_elem_of in E as (tag & Ht & E).
    assert (existsb (λ tag, startswith (lower tag) text') (cls_tags cls) = true) as ->; [|done].
    apply existsb_elem_of. exists tag. split; [done|]. unfold startswith in *.
    by apply (prefix_trans _ text). }
  split; [exact Htag|]. intros Hobj.
  assert (∀ ports : odict Info,
            py_truthy (if String.eqb text "object" then VBool true
                       else if existsb (λ p : Info,
                                          existsb (λ hint, startswith hint text) (hints p))
                                       (odict_values ports)
                            then VBool true else VNone) = true →
            py_truthy (if String.eqb text' "object" then VBool true
                       else if existsb (λ p : Info,
                                          existsb (λ hint, startswith hint text') (hints p))
                                       (odict_values ports)
                            then VBool true else VNone) = true) as Hports.
  { intros ports. rewrite !hint_match_truthy. intros [?|(p & hint & Hp & Hh & E)]; [done|].
    right. exists p, hint. repeat (split; [done|]). unfold startswith in *.
    by apply (prefix_trans _ text). }
  split; [apply Hports|]. split; [apply Hports|].
  unfold matchHint. rewrite !py_or_truthy, !orb_true_iff.
  intros [[Hi|Ho]|Ht]; [left; left; by apply Hports|left; right; by apply Hports|right; by apply Htag].
Qed.

Lemma odict_get_values {V} (d : odict V) (k : string) (v : V) :
  odict_get d k = Some v → v ∈ odict_values d.
Proof.
  induction d as [|[k' v'] d IH]; [done|]. simpl. destruct (String.eqb k' k).
  - intros [= ->]. left.
  - intros Hv. right. by apply IH.
Qed.

(** X25: a class is found under the name of the type of each input it
    declares or inherits, and under every prefix of that name: the type
    name is the first hint of every port. *)
Theorem matchHint_finds_input_type (d : ClassDef) (nm : string) (decl : PortDecl)
    (text : string) :
  declared_input d nm = Some decl →
  String.prefix text (type_name (d_varType decl)) = true →
  py_truthy (matchInputHint (class_of d) text) = true
  ∧ py_truthy (matchHint (class_of d) text) = true.
Proof.
  intros Hdecl Hpre.
  pose proof (class_of_lookup d nm) as Hget. rewrite Hdecl in Hget. simpl in Hget.
  apply odict_get_values in Hget.
  assert (py_truthy (matchInputHint (class_of d) text) = true) as Hin.
  { unfold matchInputHint. apply hint_match_truthy. right.
    exists (Info_of_decl decl), (type_name (d_varType decl)). split; [done|].
    split; [|done]. unfold Info_of_decl, Info_init. simpl.
    destruct (d_hints decl) as [[|h hs]|]; left. }
  split; [done|]. unfold matchHint. by rewrite !py_or_truthy, Hin.
Qed.

(** ** The further properties at concrete inputs *)

(** A new [WaitAll] node is ready at once: its two inputs were declared
    without default and carry the empty string. *)
Lemma Node_check_of_new_instance_on_WaitAll :
  ∃ n, Node_init (class_of WaitAll_def) "w" = Ok n ∧ Node_check n = true.
Proof.
  exists (constructed (Node_init WaitAll_class "w")).
  destruct (Node_check_of_new_instance WaitAll_def "w"
              (constructed (Node_init WaitAll_class "w")) eq_refl) as [Hc _].
  split; [vm_compute; reflexivity|]. rewrite Hc. reflexivity.
Defined.

(** An int input after a reset. *)
Lemma isAvailable_false_iff_read_raises_on_reset_port :
  let p := reset (Info_init "Value" TInt None (VStr "") None None false) in
  isinstance_MetaType (varType p) = false
  ∧ @InputInfo_call trivial_ext p false = Raise InputNotAvailable
  ∧ @InputInfo_call trivial_ext p true = Ok VNone.
Proof.
  intros p. split; [vm_compute; reflexivity|].
  destruct (@isAvailable_false_iff_read_raises trivial_ext p eq_refl) as [[Hraise _] Hnone].
  split; [by apply Hraise|by apply Hnone].
Defined.

(** The int 7 stored into an int input. *)
Lemma set_then_read_on_int_port :
  let p := Info_init "Value" TInt None (VStr "") None None false in
  fits p (VInt 7) = true
  ∧ @InputInfo_call trivial_ext (InputInfo_set p (VInt 7) false).2 false = Ok (VInt 7).
Proof.
  intros p. split; [vm_compute; reflexivity|].
  destruct (@set_then_read trivial_ext p (VInt 7) false (or_introl eq_refl) eq_refl)
    as (p' & Hset & _ & Hread).
  rewrite Hset. simpl. injection Hset as <-. exact (Hread (VStr "") false false).
Defined.

(** The node [a] of [notify_graph] after its [notify]. *)
Lemma Node_notify_leaves_node_unready_on_notify_graph :
  ∃ g' me', Node_notify "a" notify_graph = (Ok (), g')
            ∧ nodes g' !! "a" = Some me' ∧ Node_check me' = false.
Proof.
  destruct (Node_notify_leaves_node_unready notify_graph "a"
              (call_attr (AttrOutput "Integer") (VInt 5)
                 (given "Value" (VInt 5) (constructed (Node_init CreateInt_class "a")))).2)
    as (g' & me' & Hrun & Eme' & _ & _ & Hchk & _).
  - vm_compute. reflexivity.
  - repeat constructor. vm_compute. eauto.
  - repeat constructor. vm_compute. eauto.
  - exists g', me'. split; [exact Hrun|]. split; [exact Eme'|]. by apply Hchk.
Defined.

(** A [WaitAny] node whose second input was stored. *)
Lemma WaitAny_forwards_set_inputs_on_second :
  let me := given "2" (VInt 2) (constructed (Node_init WaitAny_class "w")) in
  instance_of WaitAny_class me
  ∧ WaitAny_check me = VBool true
  ∧ port_state (odict_get (outputs (@WaitAny_run trivial_ext me).2) "out")
    = Some (true, VInt 2).
Proof.
  intros me.
  assert (instance_of WaitAny_class me) as Hinst by (split; vm_compute; reflexivity).
  split; [exact Hinst|].
  edestruct (@WaitAny_forwards_set_inputs trivial_ext me) as [Hc Hr];
    [exact Hinst|vm_compute; reflexivity..|].
  split; [by rewrite Hc|by rewrite Hr].
Defined.

(** A [CreateInt] node whose input holds the text 5, connected to a
    [DebugPrint] node: the int 5 arrives. *)
Lemma forwarder_cycle_on_CreateInt :
  let g := mkGraph
             (<["a" := given "Value" (VStr "5") (constructed (Node_init CreateInt_class "a"))]>
              (<["b" := constructed (Node_init DebugPrint_class "b")]> ∅))
             [mkConnection "a" "Integer" "b" "Object"] in
  ∃ g1, cycle (@CreateInt_run trivial_ext) Node_notify "a" g = (Ok (), g1)
        ∧ port_state (get_input g1 "b" "Object") = Some (true, VInt 5)
        ∧ port_state (get_input g1 "a" "Value") = Some (false, VNone).
Proof.
  intros g.
  edestruct (@forwarder_cycle trivial_ext (@CreateInt_run trivial_ext) "Value" "Integer" g "a")
    as [Hok _].
  - right. left.
  - vm_compute. reflexivity.
  - vm_compute. reflexivity.
  - vm_compute. reflexivity.
  - vm_compute. reflexivity.
  - repeat constructor.
  - repeat constructor. vm_compute. eauto.
  - destruct (Hok (VInt 5) eq_refl) as (g1 & Hcyc & _).
    exists g1. split; [exact Hcyc|].
    assert (g1 = (cycle (@CreateInt_run trivial_ext) Node_notify "a" g).2) as ->
      by (by rewrite Hcyc).
    split; vm_compute; reflexivity.
Defined.

(** The first cycle of the loop of [loop_graph]. *)
Lemma Loop_first_cycle_on_loop_graph :
  let g := loop_graph (VStr "s") in
  targets_exist g (getConnectionsOfOutput g "loop" "LoopBody")
  ∧ ∃ g1, cycle (@Loop_run trivial_ext) Loop_notify "loop" g = (Ok (), g1)
          ∧ port_state (get_input g1 "body" "Object") = Some (true, VStr "s")
          ∧ (λ n, (fresh n, counter n)) <$> nodes g1 !! "loop" = Some (false, 3).
Proof.
  intros g.
  assert (targets_exist g (getConnectionsOfOutput g "loop" "LoopBody")) as Hex.
  { repeat constructor. vm_compute. eauto. }
  split; [exact Hex|].
  destruct (@Loop_first_cycle trivial_ext g "loop" (node_at g "loop") (VStr "s") 3)
    as (_ & g1 & me1 & [Hcyc _] & _);
    [vm_compute; reflexivity|split; vm_compute; reflexivity|vm_compute; reflexivity..
    |done|exact Hex|].
  exists g1. split; [exact Hcyc|].
  assert (g1 = (cycle (@Loop_run trivial_ext) Loop_notify "loop" g).2) as ->
    by (by rewrite Hcyc).
  split; vm_compute; reflexivity.
Defined.

(** The second cycle of the same loop, after [Control] was set to c1. *)
Lemma Loop_next_cycle_on_loop_graph :
  let step := cycle (@Loop_run trivial_ext) Loop_notify "loop" in
  let g := (on_node "loop" (Node_setInput "Control" (VStr "c1") true)
              (step (loop_graph (VStr "s"))).2).2 in
  (fresh (node_at g "loop") = false ∧ 1 < counter (node_at g "loop"))
  ∧ ∃ g1, step g = (Ok (), g1)
          ∧ port_state (get_input g1 "body" "Object") = Some (true, VStr "c1")
          ∧ (λ n, (fresh n, counter n)) <$> nodes g1 !! "loop" = Some (false, 2).
Proof.
  intros step g. split; [split; [reflexivity|by vm_compute]|].
  destruct (@Loop_next_cycle trivial_ext g "loop" (node_at g "loop") (VStr "c1"))
    as (_ & g1 & me1 & [Hcyc _] & _).
  - vm_compute. reflexivity.
  - split; vm_compute; reflexivity.
  - vm_compute. reflexivity.
  - by vm_compute.
  - vm_compute. reflexivity.
  - repeat constructor. vm_compute. eauto.
  - exists g1. split; [exact Hcyc|].
    assert (g1 = (step g).2) as -> by (unfold step; by rewrite Hcyc).
    split; vm_compute; reflexivity.
Defined.

(** A loop of one iteration: its second cycle is the last one. The body
    keeps the start value, the control value c is not delivered, and the
    node after the loop receives [None]. *)
Lemma Loop_last_cycle_on_one_iteration :
  let step := cycle (@Loop_run trivial_ext) Loop_notify "loop" in
  let g0 := mkGraph
              (<["loop" := given "Iterations" (VInt 1)
                             (given "Start" (VStr "s") (constructed (Loop_init "loop")))]>
               (<["body" := constructed (Node_init DebugPrint_class "body")]>
                (<["after" := constructed (Node_init DebugPrint_class "after")]> ∅)))
              [mkConnection "loop" "LoopBody" "body" "Object";
               mkConnection "loop" "Final" "after" "Object"] in
  let g := (on_node "loop" (Node_setInput "Control" (VStr "c") true) (step g0).2).2 in
  targets_unset g (getConnectionsOfOutput g "loop" "Final")
  ∧ ∃ g1, step g = (Ok (), g1)
          ∧ port_state (get_output g1 "loop" "LoopBody") = Some (true, VStr "c")
          ∧ port_state (get_input g1 "body" "Object") = Some (true, VStr "s")
          ∧ port_state (get_input g1 "after" "Object") = Some (true, VNone)
          ∧ (λ n, (fresh n, counter n)) <$> nodes g1 !! "loop" = Some (true, 0).
Proof.
  intros step g0 g.
  assert (targets_unset g (getConnectionsOfOutput g "loop" "Final")) as Hun.
  { split; [apply (bool_decide_unpack _); by vm_compute|]. repeat constructor. }
  split; [exact Hun|].
  destruct (@Loop_last_cycle trivial_ext g "loop" (node_at g "loop") (VStr "c")
              (instance_port "loop" ":O"
                 (Info_of_decl (addOutput "Final" TObject None None None false))))
    as (_ & g1 & me1 & Hcyc & _).
  - vm_compute. reflexivity.
  - split; vm_compute; reflexivity.
  - vm_compute. reflexivity.
  - vm_compute. reflexivity.
  - vm_compute. reflexivity.
  - vm_compute. reflexivity.
  - exact Hun.
  - exists g1. split; [exact Hcyc|].
    assert (g1 = (step g).2) as -> by (unfold step; by rewrite Hcyc).
    repeat split; vm_compute; reflexivity.
Defined.

(** A loop of zero iterations. *)
Lemma Loop_zero_iterations_on_zero :
  let g := mkGraph
             (<["loop" := given "Iterations" (VInt 0)
                            (given "Start" (VStr "s") (constructed (Loop_init "loop")))]>
              (<["body" := constructed (Node_init DebugPrint_class "body")]>
               (<["after" := constructed (Node_init DebugPrint_class "after")]> ∅)))
             [mkConnection "loop" "LoopBody" "body" "Object";
              mkConnection "loop" "Final" "after" "Object"] in
  targets_unset g (getConnectionsOfOutput g "loop" "Final")
  ∧ ∃ g1, cycle (@Loop_run trivial_ext) Loop_notify "loop" g = (Ok (), g1)
          ∧ port_state (get_output g1 "loop" "LoopBody") = Some (true, VStr "s")
          ∧ port_state (get_input g1 "body" "Object") = Some (false, VNone)
          ∧ port_state (get_input g1 "after" "Object") = Some (true, VNone)
          ∧ (λ n, (fresh n, counter n)) <$> nodes g1 !! "loop" = Some (true, 0).
Proof.
  intros g.
  assert (targets_unset g (getConnectionsOfOutput g "loop" "Final")) as Hun.
  { split; [apply (bool_decide_unpack _); by vm_compute|]. repeat constructor. }
  split; [exact Hun|].
  destruct (@Loop_zero_iterations trivial_ext g "loop" (node_at g "loop") (VStr "s") 0
              (instance_port "loop" ":O"
                 (Info_of_decl (addOutput "Final" TObject None None None false))))
    as (_ & g1 & me1 & Hcyc & _).
  - vm_compute. reflexivity.
  - split; vm_compute; reflexivity.
  - vm_compute. reflexivity.
  - vm_compute. reflexivity.
  - vm_compute. reflexivity.
  - done.
  - vm_compute. reflexivity.
  - exact Hun.
  - exists g1. split; [exact Hcyc|].
    assert (g1 = (cycle (@Loop_run trivial_ext) Loop_notify "loop" g).2) as ->
      by (by rewrite Hcyc).
    repeat split; vm_compute; reflexivity.
Defined.

(** The first cycle of the loop of [loop_graph] keeps [Final] unwritten. *)
Lemma Loop_never_writes_Final_on_loop_graph :
  let g := loop_graph (VStr "s") in
  Loop_check (node_at g "loop") = Ok (VBool true)
  ∧ ∃ g1, cycle (@Loop_run trivial_ext) Loop_notify "loop" g = (Ok (), g1)
          ∧ port_state (get_output g1 "loop" "Final") = Some (false, VNone).
Proof.
  intros g. split; [vm_compute; reflexivity|].
  destruct (@Loop_never_writes_Final trivial_ext g "loop" (node_at g "loop") 3)
    as (g1 & me1 & Hcyc & _).
  - vm_compute. reflexivity.
  - split; vm_compute; reflexivity.
  - by left.
  - vm_compute. reflexivity.
  - vm_compute. reflexivity.
  - repeat constructor. vm_compute. eauto.
  - split; [apply (bool_decide_unpack _); by vm_compute|]. repeat constructor.
  - exists g1. split; [exact Hcyc|].
    assert (g1 = (cycle (@Loop_run trivial_ext) Loop_notify "loop" g).2) as ->
      by (by rewrite Hcyc).
    vm_compute. reflexivity.
Defined.

(** The loop of [loop_graph], three iterations: the start value and two
    control values reach the body. *)
Lemma Loop_emits_n_values_on_loop_graph :
  let g := loop_graph (VStr "s") in
  ∃ g1, emits (@Loop_run trivial_ext) Loop_notify g "loop" "LoopBody" (VStr "s") g1
        ∧ @Loop_body_cycles trivial_ext "loop" [VStr "c1"; VStr "c2"] g1.
Proof.
  intros g.
  destruct (@Loop_emits_n_values trivial_ext g "loop" (node_at g "loop") (VStr "s")
              [VStr "c1"; VStr "c2"]) as (_ & g1 & Hem & Hrest).
  - vm_compute. reflexivity.
  - split; vm_compute; reflexivity.
  - vm_compute. reflexivity.
  - vm_compute. reflexivity.
  - vm_compute. reflexivity.
  - repeat constructor. vm_compute. eauto.
  - by exists g1.
Defined.

(** The node of [foreach_graph] over its list of three. *)
Lemma ForEach_emits_each_element_on_foreach_graph :
  let l := [VInt 1; VInt 2; VInt 3] in
  ready ForEach_check foreach_graph "each"
  ∧ @ForEach_cycles trivial_ext "each" l l foreach_graph.
Proof.
  intros l.
  apply (@ForEach_emits_each_element trivial_ext foreach_graph "each"
           (node_at foreach_graph "each") l); try (vm_compute; reflexivity).
  split; vm_compute; reflexivity.
Defined.

(** A [ForEach] node whose [Start] holds the int 5. *)
Lemma ForEach_run_not_subscriptable_on_int :
  let me := given "Start" (VInt 5) (constructed (ForEach_init "each")) in
  @read_input trivial_ext me "Start" = Ok (VInt 5)
  ∧ @ForEach_run trivial_ext me = (Raise TypeError, with_fresh false me).
Proof.
  intros me. split; [vm_compute; reflexivity|].
  apply (@ForEach_run_not_subscriptable trivial_ext me (VInt 5)); try done.
Defined.

(** The switch of a graph like [switch_graph], with [Switch] false. *)
Lemma SwitchNode_false_branch_on_switch :
  let g := mkGraph
             (<["switch" := given "Switch" (VBool false)
                              (given "Start" (VStr "s") (constructed (SwitchNode_init "switch")))]>
              (<["yes" := constructed (Node_init DebugPrint_class "yes")]>
               (<["no" := constructed (Node_init DebugPrint_class "no")]> ∅)))
             [mkConnection "switch" "True" "yes" "Object";
              mkConnection "switch" "False" "no" "Object"] in
  targets_unset g (getConnectionsOfOutput g "switch" "False")
  ∧ ∃ g1, cycle (@SwitchNode_run trivial_ext) (@SwitchNode_notify trivial_ext) "switch" g
          = (Ok (), g1)
          ∧ port_state (get_input g1 "no" "Object") = Some (true, VStr "s")
          ∧ port_state (get_input g1 "yes" "Object") = Some (false, VNone)
          ∧ fresh <$> nodes g1 !! "switch" = Some false.
Proof.
  intros g.
  assert (targets_unset g (getConnectionsOfOutput g "switch" "False")) as Hun.
  { split; [apply (bool_decide_unpack _); by vm_compute|]. repeat constructor. }
  split; [exact Hun|].
  destruct (@SwitchNode_false_branch trivial_ext g "switch" (node_at g "switch")
              (VStr "s") (VBool false))
    as (_ & g1 & me1 & [Hcyc _] & _);
    [vm_compute; reflexivity|split; vm_compute; reflexivity|vm_compute; reflexivity..|exact Hun|].
  exists g1. split; [exact Hcyc|].
  assert (g1 = (cycle (@SwitchNode_run trivial_ext) (@SwitchNode_notify trivial_ext)
                  "switch" g).2) as -> by (by rewrite Hcyc).
  repeat split; vm_compute; reflexivity.
Defined.

(** A pending switch whose [Final] feeds an input that holds a value. *)
Lemma SwitchNode_notify_meets_value_on_stale_join :
  let c := mkConnection "switch" "Final" "join" "Object" in
  let g := mkGraph
             (<["switch" := with_fresh false (constructed (SwitchNode_init "switch"))]>
              (<["join" := given "Object" (VStr "old")
                             (constructed (Node_init DebugPrint_class "join"))]> ∅))
             [c] in
  valueSet <$> get_input g "join" "Object" = Some true
  ∧ (@SwitchNode_notify trivial_ext "switch" g).1 = Raise InputAlreadySet
  ∧ fresh <$> nodes (@SwitchNode_notify trivial_ext "switch" g).2 !! "switch" = Some false.
Proof.
  intros c g. split; [vm_compute; reflexivity|].
  rewrite (@SwitchNode_notify_meets_value trivial_ext g "switch" (node_at g "switch")
             [] [] c).
  - split; vm_compute; reflexivity.
  - vm_compute. reflexivity.
  - vm_compute. reflexivity.
  - vm_compute. eauto.
  - vm_compute. reflexivity.
  - split; constructor.
  - by right.
Defined.

(** [CreateInt] is found under in, a prefix of int. *)
Lemma matchHint_prefix_closed_on_CreateInt :
  py_truthy (matchHint CreateInt_class "int") = true
  ∧ py_truthy (matchHint CreateInt_class "in") = true.
Proof.
  split; [vm_compute; reflexivity|].
  destruct (matchHint_prefix_closed CreateInt_class "int" "in" eq_refl) as [_ Hrest].
  destruct (Hrest ltac:(discriminate)) as (_ & _ & Hall). by apply Hall.
Defined.

(** [CreateInt] is found by the type of its input [Value]. *)
Lemma matchHint_finds_input_type_on_CreateInt :
  py_truthy (matchInputHint CreateInt_class "int") = true
  ∧ py_truthy (matchHint CreateInt_class "int") = true.
Proof.
  apply (matchHint_finds_input_type CreateInt_def "Value"
           (addInput "Value" TInt None None None false) "int"); reflexivity.
Defined.

(** ** Stores without override: what the scenarios need *)


(** C7, refuted as stated. In [stale_foreach_graph] the three elements
    are emitted, but the cycle that should emit [Final] raises
    [InputAlreadySet] at the store into the input that holds a value, and
    the node is left not fresh, done, with its counter at 4 instead of
    its initial state. In [self_fed_foreach_graph] the first element
    replaces the list in [Start], and the second cycle raises [TypeError]
    instead of emitting 2. *)
Lemma ForEach_blocked_by_value :
  let step := cycle (@ForEach_run trivial_ext) ForEach_notify "each" in
  let refill g := (on_node "each" (Node_setInput "Control" VNone true) g).2 in
  let state g := (λ n, (fresh n, counter n, done n)) <$> nodes g !! "each" in
  let g1 := (step stale_foreach_graph).2 in
  let g2 := (step (refill g1)).2 in
  let g3 := (step (refill g2)).2 in
  let h1 := (step self_fed_foreach_graph).2 in
  (ready ForEach_check stale_foreach_graph "each"
   ∧ (step stale_foreach_graph).1 = Ok ()
   ∧ port_state (get_input g1 "body" "Object") = Some (true, VInt 1)
   ∧ (step (refill g1)).1 = Ok ()
   ∧ port_state (get_input g2 "body" "Object") = Some (true, VInt 2)
   ∧ (step (refill g2)).1 = Ok ()
   ∧ port_state (get_input g3 "body" "Object") = Some (true, VInt 3)
   ∧ ready ForEach_check (refill g3) "each"
   ∧ (step (refill g3)).1 = Raise InputAlreadySet
   ∧ state (step (refill g3)).2 = Some (false, 4, true)
   ∧ port_state (get_input (step (refill g3)).2 "after" "Object") = Some (true, VStr "old"))
  ∧ (ready ForEach_check self_fed_foreach_graph "each"
     ∧ (step self_fed_foreach_graph).1 = Ok ()
     ∧ port_state (get_output h1 "each" "ListElement") = Some (true, VInt 1)
     ∧ port_state (get_input h1 "each" "Start") = Some (true, VInt 1)
     ∧ ready ForEach_check (refill h1) "each"
     ∧ (step (refill h1)).1 = Raise TypeError).
Proof. repeat split; vm_compute; reflexivity. Qed.
